(** * hecaitou: the archive audit (audit_collection.py) and the scraper (scraper.py)

    A shallow embedding of the two programs of the repository and the
    properties of them that the specification states.

    Python values are modelled as follows.
    - A [str] is the list of its Unicode code points ([N]); the literals of
      the source are written with [lit] (ASCII) or [u8] (UTF-8 text).
    - An exception that leaves a function is a value [Raise e] of the result
      type [res]; [Ok v] is a normal return.
    - [set[str]] is a [gset str].
    - What the program obtains from the outside world (the feed server, the
      pages, the directory listing) is an explicit argument.
    - The parts of the Python library that rest on the Unicode character
      database or on other large tables (lower-casing outside ASCII, the
      NFKC and IPv6 checks of [urlsplit], [datetime.fromisoformat], decimal
      digits outside ASCII) are the fields of a record [pylib]; every
      theorem holds for every such record. *)

From Stdlib Require Import ZArith NArith List Bool Lia String Ascii Sorting.Sorted
  Sorting.Permutation DecimalString DecimalZ.
From stdpp Require Import base decidable countable gmap.
Import ListNotations.

Set Warnings "-register-all".
Local Open Scope N_scope.

(** ** Exceptions and results *)

Inductive exn : Type :=
  | ValueError
  | UnicodeEncodeError
  | RequestException      (* requests.RequestException and its subclasses *)
  | OtherException (tag : N).  (* any other exception class *)

Inductive res (A : Type) : Type :=
  | Ok (a : A)
  | Raise (e : exn).
Arguments Ok {A} a.
Arguments Raise {A} e.

Definition bind {A B} (m : res A) (k : A -> res B) : res B :=
  match m with
  | Ok a => k a
  | Raise e => Raise e
  end.

Notation "'try!' x := m 'in' k" := (bind m (fun x => k))
  (at level 10, x name, m at level 100, k at level 200).

(** ** Python strings *)

Module PyStr.

Definition str := list N.

(** An ASCII literal of the source. *)
Definition lit (s : string) : str := List.map N_of_ascii (list_ascii_of_string s).

Definition eqb (a b : str) : bool := bool_decide (a = b).

(** [str.isspace] for one character: the characters [str.strip()] removes. *)
Definition is_space (c : N) : bool :=
  ((9 <=? c) && (c <=? 13)) || ((28 <=? c) && (c <=? 32))
  || (c =? 133) || (c =? 160) || (c =? 5760)
  || ((8192 <=? c) && (c <=? 8202)) || (c =? 8232) || (c =? 8233)
  || (c =? 8239) || (c =? 8287) || (c =? 12288).

Fixpoint lstrip_by (p : N -> bool) (s : str) : str :=
  match s with
  | [] => []
  | c :: s' => if p c then lstrip_by p s' else s
  end.

Definition rstrip_by (p : N -> bool) (s : str) : str :=
  rev (lstrip_by p (rev s)).

(** [s.strip()] *)
Definition strip (s : str) : str := rstrip_by is_space (lstrip_by is_space s).

Definition is_ascii (c : N) : bool := c <? 128.
Definition is_upper (c : N) : bool := (65 <=? c) && (c <=? 90).
Definition is_lower (c : N) : bool := (97 <=? c) && (c <=? 122).
Definition is_alpha_ascii (c : N) : bool := is_upper c || is_lower c.
Definition is_digit_ascii (c : N) : bool := (48 <=? c) && (c <=? 57).

Definition lower_ascii (c : N) : N := if is_upper c then c + 32 else c.

(** [s.startswith(p)] *)
Fixpoint startswith (p s : str) : bool :=
  match p, s with
  | [], _ => true
  | _ :: _, [] => false
  | a :: p', b :: s' => (a =? b) && startswith p' s'
  end.

(** [p in s] for strings: [p] occurs in [s] as a substring. *)
Fixpoint contains (p s : str) : bool :=
  startswith p s ||
  match s with
  | [] => false
  | _ :: s' => contains p s'
  end.

(** [c in s] for a character. *)
Definition has_char (c : N) (s : str) : bool := existsb (N.eqb c) s.

(** [s.split(c, 1)] when [c] occurs in [s]: the text before the first [c]
    and the text after it. *)
Fixpoint cut (c : N) (s : str) : option (str * str) :=
  match s with
  | [] => None
  | x :: s' =>
      if x =? c then Some ([], s')
      else match cut c s' with
           | Some (a, b) => Some (x :: a, b)
           | None => None
           end
  end.

(** [sep.join(parts)] *)
Fixpoint join (sep : str) (parts : list str) : str :=
  match parts with
  | [] => []
  | [p] => p
  | p :: rest => p ++ sep ++ join sep rest
  end.

(** [s.split(c)] for a one-character separator. *)
Fixpoint split_on (c : N) (s : str) : list str :=
  match s with
  | [] => [[]]
  | x :: s' =>
      if x =? c then [] :: split_on c s'
      else match split_on c s' with
           | [] => [[x]]
           | p :: ps => (x :: p) :: ps
           end
  end.

(** [s.replace(c, e)] for a character [c] and the empty string [e]. *)
Definition remove_char (c : N) (s : str) : str :=
  List.filter (fun x => negb (x =? c)) s.

(** Comparison of strings: code point by code point, a proper prefix first. *)
Fixpoint leb (a b : str) : bool :=
  match a, b with
  | [], _ => true
  | _ :: _, [] => false
  | x :: a', y :: b' => (x <? y) || ((x =? y) && leb a' b')
  end.

End PyStr.
Export PyStr.

(** ** UTF-8, as [str.encode("utf-8")] and [bytes.decode("utf-8", "replace")] *)

Module Utf8.

Definition is_surrogate (c : N) : bool := (55296 <=? c) && (c <=? 57343).

(** The bytes of one code point; [None] where the strict encoder raises
    [UnicodeEncodeError] (a lone surrogate; there is no code point past
    U+10FFFF). *)
Definition encode_char (c : N) : option (list N) :=
  if c <? 128 then Some [c]
  else if c <? 2048 then Some [192 + c / 64; 128 + c mod 64]
  else if c <? 65536 then
    if is_surrogate c then None
    else Some [224 + c / 4096; 128 + (c / 64) mod 64; 128 + c mod 64]
  else if c <? 1114112 then
    Some [240 + c / 262144; 128 + (c / 4096) mod 64; 128 + (c / 64) mod 64;
          128 + c mod 64]
  else None.

Fixpoint encode (s : str) : res (list N) :=
  match s with
  | [] => Ok []
  | c :: s' =>
      match encode_char c with
      | None => Raise UnicodeEncodeError
      | Some bs => try! rest := encode s' in Ok (bs ++ rest)
      end
  end.

Definition is_cont (b : N) : bool := (128 <=? b) && (b <? 192).

(** U+FFFD, what the [replace] error handler puts for an undecodable run. *)
Definition replacement : N := 65533.

(** The decoder with [errors="replace"]: an invalid start byte is replaced
    alone; a sequence broken by a byte that cannot continue it is replaced up
    to that byte; a sequence cut by the end of the data is replaced whole.
    The second byte is also checked against over-long forms, surrogates and
    values past U+10FFFF. *)
Fixpoint decode (bs : list N) : str :=
  match bs with
  | [] => []
  | b1 :: r1 =>
      if b1 <? 128 then b1 :: decode r1
      else if b1 <? 194 then replacement :: decode r1
      else if b1 <? 224 then
        match r1 with
        | [] => [replacement]
        | b2 :: r2 =>
            if is_cont b2 then ((b1 - 192) * 64 + (b2 - 128)) :: decode r2
            else replacement :: decode r1
        end
      else if b1 <? 240 then
        match r1 with
        | [] => [replacement]
        | b2 :: r2 =>
            if negb (is_cont b2) || (if b2 <? 160 then b1 =? 224 else b1 =? 237)
            then replacement :: decode r1
            else match r2 with
                 | [] => [replacement]
                 | b3 :: r3 =>
                     if is_cont b3
                     then ((b1 - 224) * 4096 + (b2 - 128) * 64 + (b3 - 128))
                            :: decode r3
                     else replacement :: decode r2
                 end
        end
      else if b1 <? 245 then
        match r1 with
        | [] => [replacement]
        | b2 :: r2 =>
            if negb (is_cont b2) || (if b2 <? 144 then b1 =? 240 else b1 =? 244)
            then replacement :: decode r1
            else match r2 with
                 | [] => [replacement]
                 | b3 :: r3 =>
                     if negb (is_cont b3) then replacement :: decode r2
                     else match r3 with
                          | [] => [replacement]
                          | b4 :: r4 =>
                              if is_cont b4
                              then ((b1 - 240) * 262144 + (b2 - 128) * 4096
                                    + (b3 - 128) * 64 + (b4 - 128)) :: decode r4
                              else replacement :: decode r3
                          end
                 end
        end
      else replacement :: decode r1
  end.

End Utf8.

(** A literal of the source with characters outside ASCII: the file holds its
    UTF-8 bytes. *)
Definition u8 (s : string) : str := Utf8.decode (lit s).

(** ** Calendar dates ([datetime.date]) *)

Record date : Type := mkdate { year : Z; month : Z; day : Z }.

Definition date_ltb (a b : date) : bool :=
  ((year a <? year b)
   || ((year a =? year b) && ((month a <? month b)
        || ((month a =? month b) && (day a <? day b)))))%Z.

Definition date_leb (a b : date) : bool := negb (date_ltb b a).

(** ** The parts of the Python library taken as given *)

Record pylib : Type := {
  (** [s.lower()] for a string with a character outside ASCII *)
  unicode_lower : str -> str;
  (** [urllib.parse._checknetloc] on a network location with a character
      outside ASCII: false where it raises [ValueError] *)
  nfkc_netloc_ok : str -> bool;
  (** [urllib.parse._check_bracketed_host] on the text between the brackets
      of a network location: false where it raises [ValueError] *)
  bracketed_host_ok : str -> bool;
  (** [datetime.fromisoformat(s).date()]; [ValueError] on a malformed text *)
  fromisoformat_date : str -> res date;
  (** the value of a decimal digit outside ASCII, for [\d] and [int] *)
  unicode_decimal : N -> option N
}.

(** ** urllib.parse (CPython 3.13): urlsplit, urlunsplit, quote, unquote *)

Module Urllib.

Record SplitResult : Type := mkSplit {
  scheme : str; netloc : str; path : str; query : str; fragment : str }.

Definition scheme_char (c : N) : bool :=
  is_alpha_ascii c || is_digit_ascii c || (c =? 43) || (c =? 45) || (c =? 46).

Definition c0_or_space (c : N) : bool := c <=? 32.

(** [s.lower()] *)
Definition lower (db : pylib) (s : str) : str :=
  if forallb is_ascii s then List.map lower_ascii s else unicode_lower db s.

(** [_splitnetloc(url, 2)] on the text after the two slashes: up to the first
    of [/], [?] and [#]. *)
Fixpoint splitnetloc (s : str) : str * str :=
  match s with
  | [] => ([], [])
  | c :: s' =>
      if (c =? 47) || (c =? 63) || (c =? 35) then ([], s)
      else let '(a, b) := splitnetloc s' in (c :: a, b)
  end.

(** The text between the first [[] and the next []] of a network location. *)
Definition bracketed_host (nl : str) : str :=
  match cut 91 nl with
  | Some (_, after) =>
      match cut 93 after with
      | Some (host, _) => host
      | None => after
      end
  | None => []
  end.

Definition split_scheme (url : str) : str * str :=
  match cut 58 url with
  | Some (c :: pre, rest) =>
      if is_alpha_ascii c && forallb scheme_char (c :: pre)
      then (List.map lower_ascii (c :: pre), rest)
      else ([], url)
  | _ => ([], url)
  end.

Definition urlsplit (db : pylib) (url0 : str) : res SplitResult :=
  let url := lstrip_by c0_or_space url0 in
  let url := remove_char 10 (remove_char 13 (remove_char 9 url)) in
  let '(sch, url) := split_scheme url in
  try! nl_rest :=
    match url with
    | 47 :: 47 :: after =>
        let '(nl, rest) := splitnetloc after in
        if xorb (has_char 91 nl) (has_char 93 nl) then Raise ValueError
        else if has_char 91 nl && negb (bracketed_host_ok db (bracketed_host nl))
        then Raise ValueError
        else Ok (nl, rest)
    | _ => Ok ([], url)
    end in
  let '(nl, url) := nl_rest in
  let '(url, frag) := match cut 35 url with Some p => p | None => (url, []) end in
  let '(url, qry) := match cut 63 url with Some p => p | None => (url, []) end in
  if match nl with [] => false | _ => negb (forallb is_ascii nl) end
     && negb (nfkc_netloc_ok db nl)
  then Raise ValueError
  else Ok (mkSplit sch nl url qry frag).

Definition uses_netloc : list str :=
  [] :: List.map lit
    ["ftp"; "http"; "gopher"; "nntp"; "telnet"; "imap"; "wais"; "file";
     "mms"; "https"; "shttp"; "snews"; "prospero"; "rtsp"; "rtsps"; "rtspu";
     "rsync"; "svn"; "svn+ssh"; "sftp"; "nfs"; "git"; "git+ssh"; "ws"; "wss";
     "itms-services"]%string.

Definition nonempty (s : str) : bool := match s with [] => false | _ => true end.

Definition urlunsplit (p : SplitResult) : str :=
  let url := path p in
  let url :=
    if nonempty (netloc p) then
      let url := if nonempty url && negb (startswith [47] url) then 47 :: url else url in
      [47; 47] ++ netloc p ++ url
    else if startswith [47; 47] url then [47; 47] ++ url
    else if nonempty (scheme p) && existsb (PyStr.eqb (scheme p)) uses_netloc
            && (negb (nonempty url) || startswith [47] url)
    then [47; 47] ++ url
    else url in
  let url := if nonempty (scheme p) then scheme p ++ 58 :: url else url in
  let url := if nonempty (query p) then url ++ 63 :: query p else url in
  if nonempty (fragment p) then url ++ 35 :: fragment p else url.

(** Letters, digits and [_.-~]: never quoted. *)
Definition always_safe (b : N) : bool :=
  is_alpha_ascii b || is_digit_ascii b
  || (b =? 95) || (b =? 46) || (b =? 45) || (b =? 126).

Definition is_safe (safe : str) (b : N) : bool :=
  (b <? 128) && (always_safe b || has_char b safe).

Definition hexdigit (n : N) : N := if n <? 10 then 48 + n else 55 + n.

(** The quoter of [quote_from_bytes]: the byte itself, or [%XX]. *)
Definition quote_byte (safe : str) (b : N) : str :=
  if is_safe safe b then [b] else [37; hexdigit (b / 16); hexdigit (b mod 16)].

(** [quote(s, safe=safe)] *)
Definition quote (s safe : str) : res str :=
  try! bs := Utf8.encode s in Ok (List.concat (List.map (quote_byte safe) bs)).

Definition hexval (c : N) : option N :=
  if is_digit_ascii c then Some (c - 48)
  else if (65 <=? c) && (c <=? 70) then Some (c - 55)
  else if (97 <=? c) && (c <=? 102) then Some (c - 87)
  else None.

(** [unquote_to_bytes] on ASCII text: [%] and two hexadecimal digits give a
    byte; any other [%] stays. *)
Fixpoint unquote_to_bytes (s : str) : list N :=
  match s with
  | [] => []
  | c :: s' =>
      if c =? 37 then
        match s' with
        | h1 :: h2 :: s'' =>
            match hexval h1, hexval h2 with
            | Some a, Some b => (16 * a + b) :: unquote_to_bytes s''
            | _, _ => c :: unquote_to_bytes s'
            end
        | _ => c :: unquote_to_bytes s'
        end
      else c :: unquote_to_bytes s'
  end.

(** The loop of [unquote]: each maximal run of ASCII characters ([run], held
    in reverse) is unquoted to bytes and decoded; the characters between the
    runs are kept. *)
Fixpoint unquote_parts (run : str) (s : str) : str :=
  match s with
  | [] => Utf8.decode (unquote_to_bytes (rev run))
  | c :: s' =>
      if is_ascii c then unquote_parts (c :: run) s'
      else Utf8.decode (unquote_to_bytes (rev run)) ++ c :: unquote_parts [] s'
  end.

(** [unquote(s)] *)
Definition unquote (s : str) : str :=
  if has_char 37 s then unquote_parts [] s else s.

End Urllib.
Import Urllib.

(** ** audit_collection.py *)

(** [normalize_url] *)
Definition normalize_url (db : pylib) (url : str) : res str :=
  try! parts := urlsplit db (strip url) in
  let scheme := lower db (scheme parts) in
  let netloc := lower db (netloc parts) in
  try! path := quote (unquote (path parts)) (lit "/~%:@!$&'()*+,;=") in
  try! query := quote (unquote (query parts)) (lit "=&%") in
  try! fragment := quote (unquote (fragment parts)) [] in
  Ok (urlunsplit (mkSplit scheme netloc path query fragment)).

(** A library for examples: it is consulted only outside ASCII. *)
Definition ascii_lib : pylib :=
  {| unicode_lower := fun s => s;
     nfkc_netloc_ok := fun _ => true;
     bracketed_host_ok := fun _ => true;
     fromisoformat_date := fun _ => Raise ValueError;
     unicode_decimal := fun _ => None |}.

(** *** The feed: entries as the JSON feed gives them *)

Record raw_link : Type := { rel : option str; href : option str }.

(** One element of [feed.entry]; a key that is absent or [null] is [None]. *)
Record raw_entry : Type := {
  raw_title : option str;             (* title.$t *)
  raw_links : list raw_link;          (* link[] *)
  raw_published : option str;         (* published.$t *)
  raw_content : option str;           (* content.$t *)
  raw_summary : option str;           (* summary.$t *)
  raw_categories : list (option str)  (* category[].term *)
}.

Record feed_obj : Type := { entry : option (list raw_entry) }.
Record payload : Type := { feed : option feed_obj }.

Record FeedEntry : Type := mkFeedEntry {
  title : str;
  url : str;
  published : date;
  labels : list str;   (* a sorted tuple *)
  content : str
}.

(** [x or s] for the empty string [s] *)
Definition or_empty (x : option str) : str :=
  match x with Some s => s | None => [] end.

(** [_extract_entry_url] *)
Fixpoint _extract_entry_url (links : list raw_link) : option str :=
  match links with
  | [] => None
  | l :: rest =>
      if bool_decide (rel l = Some (lit "alternate")) then
        match href l with
        | Some (c :: h) => Some (c :: h)
        | _ => _extract_entry_url rest
        end
      else _extract_entry_url rest
  end.

(** [sorted(xs, key=key)]: a stable sort, written as an insertion sort. *)
Section Sorted.
Context {A : Type} (le : A -> A -> bool).

Fixpoint insert_sorted (x : A) (l : list A) : list A :=
  match l with
  | [] => [x]
  | y :: l' => if le x y then x :: l else y :: insert_sorted x l'
  end.

Fixpoint sorted (l : list A) : list A :=
  match l with
  | [] => []
  | x :: l' => insert_sorted x (sorted l')
  end.
End Sorted.

(** The elements of a set of strings, once each. *)
Fixpoint dedup (l : list str) : list str :=
  match l with
  | [] => []
  | x :: l' => if existsb (PyStr.eqb x) l' then dedup l' else x :: dedup l'
  end.

(** [s.replace("Z", "+00:00")] *)
Definition replace_Z (s : str) : str :=
  List.concat (List.map (fun c => if c =? 90 then lit "+00:00" else [c]) s).

(** The labels of an entry: [tuple(sorted({term.strip() ... if term.strip()}))] *)
Definition entry_labels (cats : list (option str)) : list str :=
  sorted PyStr.leb
    (dedup (List.filter nonempty (List.map (fun c => strip (or_empty c)) cats))).

(** The body of the loop over the raw entries of a page: [None] for an entry
    that is skipped, [Raise] where the date or the link does not parse. *)
Definition decode_entry (db : pylib) (raw : raw_entry) : res (option FeedEntry) :=
  let title := strip (or_empty (raw_title raw)) in
  let url := _extract_entry_url (raw_links raw) in
  let published_raw := strip (or_empty (raw_published raw)) in
  match url with
  | Some url =>
      if nonempty title && nonempty published_raw then
        let content := strip (or_empty (raw_content raw)) in
        let content :=
          if nonempty content then content else strip (or_empty (raw_summary raw)) in
        try! published_dt := fromisoformat_date db (replace_Z published_raw) in
        let labels := entry_labels (raw_categories raw) in
        try! nurl := normalize_url db url in
        Ok (Some (mkFeedEntry title nurl published_dt labels content))
      else Ok None
  | None => Ok None
  end.

Fixpoint decode_page (db : pylib) (entries : list raw_entry) : res (list FeedEntry) :=
  match entries with
  | [] => Ok []
  | raw :: rest =>
      try! e := decode_entry db raw in
      try! es := decode_page db rest in
      Ok (match e with Some e => e :: es | None => es end)
  end.

(** [min((e.published for e in page_entries), default=None)] *)
Fixpoint oldest (es : list FeedEntry) : option date :=
  match es with
  | [] => None
  | e :: rest =>
      match oldest rest with
      | None => Some (published e)
      | Some d => Some (if date_ltb d (published e) then d else published e)
      end
  end.

Definition in_window (start_date end_date : date) (e : FeedEntry) : bool :=
  date_leb start_date (published e) && date_leb (published e) end_date.

(** The feed server as the walker sees it: the answer of
    [_fetch_feed_page(base_url, start_index, max_results, session)]. *)
Definition feed_source : Type := Z -> Z -> res payload.

(** What an observer of the generator sees, in order. *)
Inductive event : Type :=
  | Fetched (start_index : Z)
  | Yielded (e : FeedEntry).

Inductive outcome : Type :=
  | Returned              (* the generator is exhausted *)
  | Raised (e : exn)      (* an exception left the generator *)
  | Running (start_index : Z).  (* still in the loop, about to fetch *)

Definition page_of (p : payload) : list raw_entry :=
  match feed p with
  | Some f => match entry f with Some es => es | None => [] end
  | None => []
  end.

(** [iter_recent_posts]: [fuel] bounds the number of turns of [while True];
    the pause between two pages changes nothing that is observed here. *)
Fixpoint iter_recent_posts (db : pylib) (src : feed_source)
    (start_date end_date : date) (max_results : Z)
    (fuel : nat) (start_index : Z) : list event * outcome :=
  match fuel with
  | O => ([], Running start_index)
  | S fuel' =>
      match src start_index max_results with
      | Raise e => ([Fetched start_index], Raised e)
      | Ok p =>
          match page_of p with
          | [] => ([Fetched start_index], Returned)
          | entries =>
              match decode_page db entries with
              | Raise e => ([Fetched start_index], Raised e)
              | Ok page_entries =>
                  let oldest_on_page := oldest page_entries in
                  let ys :=
                    List.map Yielded
                      (List.filter (in_window start_date end_date) page_entries) in
                  let stop :=
                    match oldest_on_page with
                    | None => true
                    | Some d => date_ltb d start_date
                    end in
                  if stop then (Fetched start_index :: ys, Returned)
                  else
                    let '(evs, out) :=
                      iter_recent_posts db src start_date end_date max_results
                        fuel' (start_index + max_results)%Z in
                    (Fetched start_index :: ys ++ evs, out)
              end
          end
      end
  end.

Definition fetched (evs : list event) : list Z :=
  List.concat (List.map (fun ev => match ev with Fetched i => [i] | _ => [] end) evs).

Definition yielded (evs : list event) : list FeedEntry :=
  List.concat (List.map (fun ev => match ev with Yielded e => [e] | _ => [] end) evs).

(** *** The local archive *)

(** An entry of the local directory. *)
Inductive dirent : Type :=
  | RegularFile (bytes : list N)
  | Directory.

(** Text mode with [newline=None]: [\r\n] and [\r] are read as [\n]. *)
Fixpoint universal_newlines (s : str) : str :=
  match s with
  | [] => []
  | c :: s' =>
      if c =? 13 then
        match s' with
        | 10 :: s'' => 10 :: universal_newlines s''
        | _ => 10 :: universal_newlines s'
        end
      else c :: universal_newlines s'
  end.

(** [path.read_text(encoding="utf-8", errors="replace")] *)
Definition read_text (f : dirent) : res str :=
  match f with
  | RegularFile bytes => Ok (universal_newlines (Utf8.decode bytes))
  | Directory => Raise (OtherException 21)   (* IsADirectoryError *)
  end.

Definition link_prefix : str := u8 "- 链接：".

(** [re.search] with [re.M] for the literal [- 链接：] at the start of a line,
    then a group of any characters up to the end of that line: the pattern can
    match only from the start of a line, the dot stops at a newline and the
    end anchor holds at the end of the line, so the match is the first line
    that starts with the literal and the group is the rest of that line. *)
Fixpoint first_link_line (lines : list str) : option str :=
  match lines with
  | [] => None
  | l :: rest =>
      if startswith link_prefix l then Some (skipn (length link_prefix) l)
      else first_link_line rest
  end.

Definition search_link (text : str) : option str :=
  first_link_line (split_on 10 text).

(** [name] matches the pattern [*.md] of [glob]. *)
Definition is_md (name : str) : bool :=
  startswith (rev (lit ".md")) (rev name).

Definition name_leb (a b : str * dirent) : bool := PyStr.leb (fst a) (fst b).

(** The body of the loop of [read_local_urls] over the sorted paths. *)
Fixpoint read_local_loop (db : pylib) (paths : list (str * dirent))
    (urls : gset str) : res (gset str) :=
  match paths with
  | [] => Ok urls
  | (_, f) :: rest =>
      try! text := read_text f in
      match search_link text with
      | None => read_local_loop db rest urls
      | Some g =>
          let url := strip g in
          if nonempty url then
            try! n := normalize_url db url in
            read_local_loop db rest ({[ n ]} ∪ urls)
          else read_local_loop db rest urls
      end
  end.

(** [read_local_urls]: [local_dir] lists the entries directly in the
    directory, by name. *)
Definition read_local_urls (db : pylib) (local_dir : list (str * dirent))
    : res (gset str) :=
  read_local_loop db
    (sorted name_leb (List.filter (fun p => is_md (fst p)) local_dir)) ∅.

(** *** The classifier and the loop of [main] *)

(** [re.compile("|".join(re.escape(k) for k in keywords))]: an alternation of
    literals. *)
Definition keyword_re : Type := list str.

(** [pattern.search(text)] is a match when some keyword occurs in the text. *)
Definition re_search (pattern : keyword_re) (text : str) : bool :=
  existsb (fun k => contains k text) pattern.

Record criteria : Type := {
  include_labels : gset str;
  title_keyword_re : option keyword_re;
  content_keyword_re : option keyword_re
}.

(** [re.compile(...)] if the list is not empty, [None] otherwise. *)
Definition compile_keywords (ks : list str) : option keyword_re :=
  match ks with [] => None | _ => Some ks end.

Definition make_criteria (labels title_keywords content_keywords : list str) : criteria :=
  {| include_labels := list_to_set labels;
     title_keyword_re := compile_keywords title_keywords;
     content_keyword_re := compile_keywords content_keywords |}.

(** A call of [search] on a compiled pattern. *)
Inductive probe : Type :=
  | TitleSearch (pattern : keyword_re) (text : str)
  | ContentSearch (pattern : keyword_re) (text : str).

(** The [if]/[elif] chain of the loop of [main]: whether the entry is
    matched, and the pattern searches that were run to decide it. *)
Definition classify (c : criteria) (e : FeedEntry) : bool * list probe :=
  if negb (bool_decide (include_labels c = ∅))
     && existsb (fun label => bool_decide (label ∈ include_labels c)) (labels e)
  then (true, [])
  else
    match title_keyword_re c with
    | Some tp =>
        if re_search tp (title e) then (true, [TitleSearch tp (title e)])
        else
          match content_keyword_re c with
          | Some cp =>
              (re_search cp (content e),
               [TitleSearch tp (title e); ContentSearch cp (content e)])
          | None => (false, [TitleSearch tp (title e)])
          end
    | None =>
        match content_keyword_re c with
        | Some cp => (re_search cp (content e), [ContentSearch cp (content e)])
        | None => (false, [])
        end
    end.

(** The loop of [main] over the entries the walker yields: the lists
    [matched] and [missing]. *)
Fixpoint audit_loop (c : criteria) (local_urls : gset str) (entries : list FeedEntry)
    (matched missing : list FeedEntry) : list FeedEntry * list FeedEntry :=
  match entries with
  | [] => (matched, missing)
  | e :: rest =>
      if fst (classify c e) then
        audit_loop c local_urls rest (matched ++ [e])
          (if bool_decide (url e ∈ local_urls) then missing else missing ++ [e])
      else audit_loop c local_urls rest matched missing
  end.

(** *** The report *)

Definition pad2 (n : Z) : str :=
  let n := Z.to_N n in [48 + (n / 10) mod 10; 48 + n mod 10].

Definition pad4 (n : Z) : str :=
  let n := Z.to_N n in
  [48 + (n / 1000) mod 10; 48 + (n / 100) mod 10; 48 + (n / 10) mod 10; 48 + n mod 10].

(** [d.isoformat()] *)
Definition isoformat (d : date) : str :=
  pad4 (year d) ++ [45] ++ pad2 (month d) ++ [45] ++ pad2 (day d).

(** A value handed to [json.dumps]. *)
Inductive json : Type :=
  | JStr (s : str)
  | JInt (n : Z)
  | JArr (items : list json)
  | JObj (members : list (str * json)).

(** What a renderer hands to its output: text, a value serialized by
    [json.dumps], or a header or a row serialized by [csv.DictWriter]. *)
Inductive chunk : Type :=
  | Text (s : str)
  | JsonDumps (indent : option Z) (value : json)
  | CsvHeader (fieldnames : list str)
  | CsvRow (row : list (str * str)).

Record summary : Type := mkSummary {
  s_base_url : str;
  s_from : str;
  s_to : str;
  s_local_dir : str;
  s_local_count : Z;
  s_matched_count : Z;
  s_missing_count : Z
}.

Definition summary_members (s : summary) : list (str * json) :=
  [(lit "base_url", JStr (s_base_url s));
   (lit "from", JStr (s_from s));
   (lit "to", JStr (s_to s));
   (lit "local_dir", JStr (s_local_dir s));
   (lit "local_count", JInt (s_local_count s));
   (lit "matched_count", JInt (s_matched_count s));
   (lit "missing_count", JInt (s_missing_count s))].

(** The key of the sort of the report: [(x.published, x.url)], compared as a
    tuple. *)
Definition report_leb (a b : FeedEntry) : bool :=
  date_ltb (published a) (published b)
  || (date_leb (published a) (published b) && PyStr.leb (url a) (url b)).

Definition sorted_missing (missing : list FeedEntry) : list FeedEntry :=
  sorted report_leb missing.

Definition text_row (e : FeedEntry) : chunk :=
  Text (isoformat (published e) ++ [9] ++ title e ++ [9] ++ url e ++ [9]
        ++ join [44] (labels e) ++ [10]).

Definition json_row (e : FeedEntry) : json :=
  JObj [(lit "published", JStr (isoformat (published e)));
        (lit "title", JStr (title e));
        (lit "url", JStr (url e));
        (lit "labels", JArr (List.map JStr (labels e)))].

Definition csv_fieldnames : list str :=
  List.map lit ["published"; "title"; "url"; "labels"]%string.

Definition csv_row (e : FeedEntry) : chunk :=
  CsvRow [(lit "published", isoformat (published e));
          (lit "title", title e);
          (lit "url", url e);
          (lit "labels", join [44] (labels e))].

(** [write_text], [write_json] and [write_csv] of [main]; [summary] and
    [missing] are the variables of [main] they close over. *)
Definition write_text (s : summary) (missing : list FeedEntry) : list chunk :=
  [JsonDumps None (JObj (summary_members s)); Text [10]]
  ++ List.map text_row (sorted_missing missing).

Definition write_json (s : summary) (missing : list FeedEntry) : list chunk :=
  [JsonDumps (Some 2%Z)
     (JObj (summary_members s
            ++ [(lit "missing", JArr (List.map json_row (sorted_missing missing)))]));
   Text [10]].

Definition write_csv (s : summary) (missing : list FeedEntry) : list chunk :=
  CsvHeader csv_fieldnames :: List.map csv_row (sorted_missing missing).

Inductive format : Type := FmtText | FmtJson | FmtCsv.

Definition render (f : format) (s : summary) (missing : list FeedEntry) : list chunk :=
  match f with
  | FmtCsv => write_csv s missing
  | FmtJson => write_json s missing
  | FmtText => write_text s missing
  end.

(** *** [main] *)

(** The parsed command line. *)
Record args : Type := {
  a_base_url : str;
  a_from_date : date;
  a_to_date : date;
  a_local_dir : str;
  a_labels : list str;
  a_title_keywords : list str;
  a_content_keywords : list str;
  a_format : format;
  a_output : option str
}.

(** The world of one run: the local directory (if it exists), the feed, and
    what becomes of a text that is written. [w_write None out] is writing
    [out] to the standard output; [w_write (Some path) out] is making the
    directories of [path], opening it and writing [out] to it. Either one
    returns, or it raises: an [OSError] of the file system, a
    [UnicodeEncodeError] where a text of [out] holds a lone surrogate. *)
Record world : Type := {
  w_local_dir : option (list (str * dirent));
  w_feed : feed_source;
  w_write : option str -> list chunk -> res unit
}.

Inductive main_result : Type :=
  | Exit (code : Z) (stdout : list chunk) (file : option (str * list chunk))
  | Crashed (e : exn)
  | Unfinished.

Definition run_summary (a : args) (local_urls : gset str)
    (matched missing : list FeedEntry) : summary :=
  {| s_base_url := a_base_url a;
     s_from := isoformat (a_from_date a);
     s_to := isoformat (a_to_date a);
     s_local_dir := a_local_dir a;
     s_local_count := Z.of_nat (size local_urls);
     s_matched_count := Z.of_nat (length matched);
     s_missing_count := Z.of_nat (length missing) |}.

(** [main]; [fuel] bounds the pages the walker may fetch. Where an
    exception leaves [main] while it writes, what it had written is not
    recorded. *)
Definition main (db : pylib) (w : world) (a : args) (fuel : nat) : main_result :=
  match w_local_dir w with
  | None =>
      let line := [Text (lit "local dir not found: " ++ a_local_dir a ++ [10])] in
      match w_write w None line with
      | Raise e => Crashed e
      | Ok _ => Exit 2 line None
      end
  | Some dir =>
      let c := make_criteria (a_labels a) (a_title_keywords a) (a_content_keywords a) in
      match read_local_urls db dir with
      | Raise e => Crashed e
      | Ok local_urls =>
          match iter_recent_posts db (w_feed w) (a_from_date a) (a_to_date a) 150
                  fuel 1%Z with
          | (_, Running _) => Unfinished
          | (_, Raised e) => Crashed e
          | (evs, Returned) =>
              let '(matched, missing) := audit_loop c local_urls (yielded evs) [] [] in
              let out := render (a_format a) (run_summary a local_urls matched missing)
                           missing in
              match w_write w (a_output a) out with
              | Raise e => Crashed e
              | Ok _ =>
                  match a_output a with
                  | Some path => Exit 0 [] (Some (path, out))
                  | None => Exit 0 out None
                  end
              end
          end
      end
  end.

(** ** scraper.py *)

(** *** The document tree of BeautifulSoup *)

(** The class of a string of the tree: [get_text] keeps the plain strings and
    the CDATA sections, and no other kind (comments, declarations, the text of
    scripts and style sheets). *)
Inductive str_class : Type := PlainString | CDataString | OtherString.

Inductive node : Type :=
  | NavigableString (kind : str_class) (text : str)
  | Tag (name : str) (attrs : gmap str str) (children : list node).

Definition interesting (k : str_class) : bool :=
  match k with OtherString => false | _ => true end.

(** [elem.get_text(strip=True)]: the strings below the element, each
    stripped, the empty ones dropped, joined with nothing between them. *)
Fixpoint get_text (elem : node) : str :=
  match elem with
  | NavigableString k s => if interesting k then strip s else []
  | Tag _ _ children => List.concat (List.map get_text children)
  end.

(** [elem.get(key, default)] *)
Definition get_attr (attrs : gmap str str) (key : str) (default : str) : str :=
  match attrs !! key with Some v => v | None => default end.

Definition name_in (name : str) (names : list string) : bool :=
  existsb (fun n => PyStr.eqb name (lit n)) names.

(** [child.find_all("li", recursive=False)] *)
Definition direct_items (children : list node) : list node :=
  List.filter
    (fun c => match c with Tag n _ _ => PyStr.eqb n (lit "li") | _ => false end)
    children.

(** ['#' * n] *)
Definition hashes (n : N) : str := repeat 35 (N.to_nat n).

(** [int(child.name[1])] for a name [h1] .. [h6] *)
Definition heading_level (name : str) : N :=
  match name with
  | _ :: d :: _ => d - 48
  | _ => 0
  end.

(** The lines one child adds to [lines] in the loop of
    [extract_text_with_structure]; [rec] is the result of the recursive call
    on the child, used in the last branch. *)
Definition child_lines (rec : str) (child : node) : list str :=
  match child with
  | Tag name attrs children =>
      if name_in name ["p"; "div"]%string then
        let text := get_text child in
        if nonempty text then [text; []] else []
      else if name_in name ["h1"; "h2"; "h3"; "h4"; "h5"; "h6"]%string then
        let text := get_text child in
        if nonempty text
        then [hashes (heading_level name + 1) ++ [32] ++ text; []]
        else []
      else if name_in name ["br"]%string then [[]]
      else if name_in name ["ul"; "ol"]%string then
        List.concat
          (List.map
             (fun li => let text := get_text li in
                        if nonempty text then [lit "- " ++ text] else [])
             (direct_items children))
        ++ [[]]
      else if name_in name ["blockquote"]%string then
        let text := get_text child in
        if nonempty text
        then List.map (fun line => lit "> " ++ strip line) (split_on 10 text) ++ [[]]
        else []
      else if name_in name ["a"]%string then
        let text := get_text child in
        let href := get_attr attrs (lit "href") [] in
        if nonempty text && nonempty href
        then [[91] ++ text ++ lit "](" ++ href ++ [41]]
        else []
      else if name_in name ["img"]%string then
        let src := get_attr attrs (lit "src") [] in
        let alt := get_attr attrs (lit "alt") (u8 "图片") in
        if nonempty src
        then [lit "![" ++ alt ++ lit "](" ++ src ++ [41]; []]
        else []
      else
        if nonempty (strip rec) then [rec] else []
  | NavigableString _ s =>
      let text := strip s in
      if nonempty text then [text] else []
  end.

(** [extract_text_with_structure] *)
Fixpoint extract_text_with_structure (elem : node) : str :=
  match elem with
  | NavigableString _ s => strip s
  | Tag _ _ children =>
      join [10]
        (List.concat
           (List.map (fun c => child_lines (extract_text_with_structure c) c) children))
  end.

(** The list [lines] at the end of the loop, for an element. *)
Definition extract_lines (elem : node) : list str :=
  match elem with
  | NavigableString _ _ => []
  | Tag _ _ children =>
      List.concat
        (List.map (fun c => child_lines (extract_text_with_structure c) c) children)
  end.

(** *** Article pages *)

(** [datetime(year, month, day)]: [ValueError] outside the calendar. *)
Definition is_leap (y : Z) : bool :=
  ((y mod 4 =? 0) && (negb (y mod 100 =? 0) || (y mod 400 =? 0)))%Z.

Definition days_in_month (y m : Z) : Z :=
  (if m =? 2 then (if is_leap y then 29 else 28)
   else if (m =? 4) || (m =? 6) || (m =? 9) || (m =? 11) then 30 else 31)%Z.

Definition datetime (y m d : Z) : res date :=
  if ((1 <=? y) && (y <=? 9999) && (1 <=? m) && (m <=? 12)
      && (1 <=? d) && (d <=? days_in_month y m))%Z
  then Ok (mkdate y m d) else Raise ValueError.

(** The value of a character that [\d] matches. *)
Definition digit_value (db : pylib) (c : N) : option N :=
  if is_digit_ascii c then Some (c - 48)
  else if is_ascii c then None else unicode_decimal db c.

(** [\d{1,2}] followed by one of the separators [seps] and one more digit at
    least: the greedy choice of two digits first, then one. On success the
    value of the digits and the text after the separator. *)
Definition digits12_sep (db : pylib) (seps : list N) (s : str) : option (N * str) :=
  let after_sep (v : N) (t : str) : option (N * str) :=
    match t with
    | sep :: (d :: _) as t' =>
        if existsb (N.eqb sep) seps && bool_decide (digit_value db d <> None)
        then Some (v, t') else None
    | _ => None
    end in
  match s with
  | a :: t1 =>
      match digit_value db a with
      | Some va =>
          let two :=
            match t1 with
            | b :: t2 =>
                match digit_value db b with
                | Some vb => after_sep (10 * va + vb) t2
                | None => None
                end
            | [] => None
            end in
          match two with
          | Some r => Some r
          | None => after_sep va t1
          end
      | None => None
      end
  | [] => None
  end.

(** The date pattern of [extract_article_content] at the start of [s]: four
    digits, one of [-年/], one or two digits, one of [-月/], one or two
    digits; the three numbers. *)
Definition date_match_here (db : pylib) (s : str) : option (N * N * N) :=
  match s with
  | a :: b :: c :: d :: sep :: t =>
      match digit_value db a, digit_value db b, digit_value db c, digit_value db d with
      | Some va, Some vb, Some vc, Some vd =>
          if existsb (N.eqb sep) [45; 24180; 47] then
            match digits12_sep db [45; 26376; 47] t with
            | Some (mo, t') =>
                match t' with
                | x :: t'' =>
                    match digit_value db x with
                    | Some vx =>
                        let dd :=
                          match t'' with
                          | y :: _ =>
                              match digit_value db y with
                              | Some vy => 10 * vx + vy
                              | None => vx
                              end
                          | [] => vx
                          end in
                        Some (1000 * va + 100 * vb + 10 * vc + vd, mo, dd)
                    | None => None
                    end
                | [] => None
                end
            | None => None
            end
          else None
      | _, _, _, _ => None
      end
  | _ => None
  end.

(** [re.search] with that pattern: the leftmost match. *)
Fixpoint date_search (db : pylib) (s : str) : option (N * N * N) :=
  match date_match_here db s with
  | Some r => Some r
  | None =>
      match s with
      | [] => None
      | _ :: s' => date_search db s'
      end
  end.

(** [parse_date_from_url]: the pattern [/dddd/dd/] in the URL gives the first
    day of that month. *)
Definition url_date_here (db : pylib) (s : str) : option (N * N) :=
  match s with
  | 47 :: a :: b :: c :: d :: 47 :: e :: f :: 47 :: _ =>
      match digit_value db a, digit_value db b, digit_value db c,
            digit_value db d, digit_value db e, digit_value db f with
      | Some va, Some vb, Some vc, Some vd, Some ve, Some vf =>
          Some (1000 * va + 100 * vb + 10 * vc + vd, 10 * ve + vf)
      | _, _, _, _, _, _ => None
      end
  | _ => None
  end.

Fixpoint url_date_search (db : pylib) (s : str) : option (N * N) :=
  match url_date_here db s with
  | Some r => Some r
  | None =>
      match s with
      | [] => None
      | _ :: s' => url_date_search db s'
      end
  end.

Definition parse_date_from_url (db : pylib) (url : str) : res (option date) :=
  match url_date_search db url with
  | Some (y, m) => try! d := datetime (Z.of_N y) (Z.of_N m) 1 in Ok (Some d)
  | None => Ok None
  end.

(** A parsed page, by what the selector queries of [extract_article_content]
    find in it. *)
Record soup : Type := {
  q_post_title : option node;  (* h3.post-title, .post-title, h1.entry-title, .entry-title *)
  q_title : option node;       (* title *)
  q_date : option node;        (* .date-header, .post-timestamp, time, .published *)
  q_content : option node;     (* .post-body, .entry-content, .post-content, article *)
  q_labels : list node         (* .post-labels a, .labels a, a[rel='tag'] *)
}.

(** The web: the answer of [requests.get] and of the parser for a URL. *)
Definition web : Type := str -> res soup.

(** [get_page]: a [RequestException] is caught and gives [None]. *)
Definition get_page (w : web) (url : str) : res (option soup) :=
  match w url with
  | Ok page => Ok (Some page)
  | Raise RequestException => Ok None
  | Raise e => Raise e
  end.

Definition has_class (attrs : gmap str str) (c : string) : bool :=
  match attrs !! lit "class" with
  | Some v =>
      existsb (PyStr.eqb (lit c))
        (split_on 32 (List.map (fun x => if is_space x then 32 else x) v))
  | None => false
  end.

(** Whether the selector [script, style, .post-footer, .comments] finds the
    node. *)
Definition is_chrome (c : node) : bool :=
  match c with
  | Tag n a _ =>
      name_in n ["script"; "style"]%string
      || has_class a "post-footer" || has_class a "comments"
  | NavigableString _ _ => false
  end.

(** [elem.decompose()] for every element under [elem] that the selector
    finds. *)
Fixpoint remove_chrome (elem : node) : node :=
  match elem with
  | NavigableString k s => NavigableString k s
  | Tag name attrs children =>
      Tag name attrs
        ((fix keep (l : list node) : list node :=
            match l with
            | [] => []
            | c :: l' => if is_chrome c then keep l' else remove_chrome c :: keep l'
            end) children)
  end.

(** The dictionary an article is held in. *)
Record article : Type := mkArticle {
  art_title : option str;
  art_date : option date;
  art_content : option str;
  art_labels : list str;
  art_url : str;
  art_label : str
}.

(** [extract_article_content] *)
Definition extract_article_content (db : pylib) (w : web) (url : str)
    : res (option article) :=
  try! page := get_page w url in
  match page with
  | None => Ok None
  | Some soup =>
      let title :=
        match q_post_title soup with
        | Some elem => Some (get_text elem)
        | None => None
        end in
      let title :=
        match title with
        | Some (c :: t) => Some (c :: t)
        | _ =>
            match q_title soup with
            | Some elem =>
                Some (strip (match split_on 58 (get_text elem) with
                             | first :: _ => first
                             | [] => []
                             end))
            | None => title
            end
        end in
      try! date :=
        match q_date soup with
        | Some elem =>
            match date_search db (get_text elem) with
            | Some (y, m, d) =>
                try! dt := datetime (Z.of_N y) (Z.of_N m) (Z.of_N d) in Ok (Some dt)
            | None => Ok None
            end
        | None => Ok None
        end in
      try! date :=
        match date with
        | Some d => Ok (Some d)
        | None => parse_date_from_url db url
        end in
      let content :=
        match q_content soup with
        | Some elem => Some (extract_text_with_structure (remove_chrome elem))
        | None => None
        end in
      Ok (Some (mkArticle title date content (List.map get_text (q_labels soup)) url []))
  end.

(** *** The batch loop of [main] *)

(** An element of [all_articles]: what the index pages gave for an article. *)
Record listed : Type := mkListed {
  l_title : str;
  l_url : str;
  l_date : date;
  l_label : str
}.

(** What the loop does to the world, in order. *)
Inductive effect : Type :=
  | Visited (url : str)             (* extract_article_content was called *)
  | Wrote (a : article)             (* save_article_to_markdown wrote the file *)
  | SkippedEmpty (a : article).     (* save_article_to_markdown found no content *)

(** [save_article_to_markdown]; writing the file is taken to succeed. *)
Definition save_article_to_markdown (a : article) : effect :=
  match art_content a with
  | Some (c :: t) => Wrote a
  | _ => SkippedEmpty a
  end.

(** The merge of the loop body: label, and title and date where the page gave
    none. *)
Definition merge_listed (full : article) (l : listed) : article :=
  {| art_title :=
       match art_title full with
       | Some (c :: t) => Some (c :: t)
       | _ => Some (l_title l)
       end;
     art_date :=
       match art_date full with
       | Some d => Some d
       | None => Some (l_date l)
       end;
     art_content := art_content full;
     art_labels := art_labels full;
     art_url := art_url full;
     art_label := l_label l |}.

(** The loop [for i, article in enumerate(all_articles, 1)]: the effects so
    far and, at the end, [saved_count] or the exception that left the loop. *)
Fixpoint crawl_articles (db : pylib) (w : web) (all_articles : list listed)
    (saved_count : Z) : list effect * res Z :=
  match all_articles with
  | [] => ([], Ok saved_count)
  | a :: rest =>
      match extract_article_content db w (l_url a) with
      | Raise e => ([Visited (l_url a)], Raise e)
      | Ok None =>
          let '(effs, r) := crawl_articles db w rest saved_count in
          (Visited (l_url a) :: effs, r)
      | Ok (Some full) =>
          let '(effs, r) := crawl_articles db w rest (saved_count + 1)%Z in
          (Visited (l_url a) :: save_article_to_markdown (merge_listed full a) :: effs, r)
      end
  end.

Definition visited (effs : list effect) : list str :=
  List.concat (List.map (fun e => match e with Visited u => [u] | _ => [] end) effs).

(** ** Notions used in the statements *)

(** The three criteria, each on its own. *)
Definition label_hit (c : criteria) (e : FeedEntry) : bool :=
  existsb (fun label => bool_decide (label ∈ include_labels c)) (labels e).

Definition pattern_hit (p : option keyword_re) (text : str) : bool :=
  match p with
  | Some ks => re_search ks text
  | None => false
  end.

(** The key of the sort of the report, and its order. *)
Definition report_key (e : FeedEntry) : date * str := (published e, url e).

Definition key_leb (a b : date * str) : bool :=
  date_ltb (fst a) (fst b) || (date_leb (fst a) (fst b) && PyStr.leb (snd a) (snd b)).

(** [d[k]] for a dictionary given by its members. *)
Fixpoint member (k : str) (members : list (str * json)) : option json :=
  match members with
  | [] => None
  | (k', v) :: rest => if PyStr.eqb k k' then Some v else member k rest
  end.

(** The summary that a serialized object carries, if it has the seven
    members. *)
Definition summary_of_json (j : json) : option summary :=
  match j with
  | JObj ms =>
      match member (lit "base_url") ms, member (lit "from") ms, member (lit "to") ms,
            member (lit "local_dir") ms, member (lit "local_count") ms,
            member (lit "matched_count") ms, member (lit "missing_count") ms with
      | Some (JStr b), Some (JStr f), Some (JStr t), Some (JStr d),
        Some (JInt lc), Some (JInt mc), Some (JInt xc) =>
          Some (mkSummary b f t d lc mc xc)
      | _, _, _, _, _, _, _ => None
      end
  | _ => None
  end.

(** The summary in an output: that of the first serialized object in it. *)
Fixpoint output_summary (out : list chunk) : option summary :=
  match out with
  | [] => None
  | JsonDumps _ j :: _ => summary_of_json j
  | _ :: rest => output_summary rest
  end.

(** A library for examples: [fromisoformat_date] reads [YYYY-MM-DD] at the
    start of the text; the other fields are those of [ascii_lib]. *)
Definition example_fromisoformat (s : str) : res date :=
  match s with
  | a :: b :: c :: d :: 45 :: e :: f :: 45 :: g :: h :: _ =>
      if forallb is_digit_ascii [a; b; c; d; e; f; g; h] then
        datetime (Z.of_N (1000 * (a - 48) + 100 * (b - 48) + 10 * (c - 48) + (d - 48)))
          (Z.of_N (10 * (e - 48) + (f - 48))) (Z.of_N (10 * (g - 48) + (h - 48)))
      else Raise ValueError
  | _ => Raise ValueError
  end.

Definition example_lib : pylib :=
  {| unicode_lower := fun s => s;
     nfkc_netloc_ok := fun _ => true;
     bracketed_host_ok := fun _ => true;
     fromisoformat_date := example_fromisoformat;
     unicode_decimal := fun _ => None |}.

(** A feed entry as the server gives it, with a title, one alternate link, a
    time stamp and labels. *)
Definition example_raw (t lnk stamp : string) (cats : list string) : raw_entry :=
  {| raw_title := Some (lit t);
     raw_links := [{| rel := Some (lit "alternate"); href := Some (lit lnk) |}];
     raw_published := Some (lit stamp);
     raw_content := Some (lit "body");
     raw_summary := None;
     raw_categories := List.map (fun c => Some (lit c)) cats |}.

Definition example_page (es : list raw_entry) : res payload :=
  Ok {| feed := Some {| entry := Some es |} |}.

(** Two worlds for examples: the feed is empty in both; the local directory
    is empty in the first and holds one archived article in the second; every
    text that is written is accepted. *)
Definition empty_feed : feed_source := fun _ _ => example_page [].

Definition accepting : option str -> list chunk -> res unit := fun _ _ => Ok tt.

Definition example_file_a : str * dirent :=
  (lit "2024-01-05-a.md",
   RegularFile (lit "# a" ++ [10; 10]
                ++ lit "- 链接：https://example.com/2024/01/a.html" ++ [10])).

Definition world_empty_archive : world :=
  {| w_local_dir := Some []; w_feed := empty_feed; w_write := accepting |}.

Definition world_one_archived : world :=
  {| w_local_dir := Some [example_file_a]; w_feed := empty_feed; w_write := accepting |}.

Definition example_args (f : format) : args :=
  {| a_base_url := lit "https://example.com";
     a_from_date := mkdate 2024 1 1;
     a_to_date := mkdate 2024 12 31;
     a_local_dir := lit "articles";
     a_labels := [lit "books"];
     a_title_keywords := [lit "review"];
     a_content_keywords := [];
     a_format := f;
     a_output := None |}.

(** One turn of the loop of the walker, as a relation between the state
    before it and what it does. *)
Inductive turn (db : pylib) (src : feed_source) (start_date end_date : date)
    (max_results : Z) (start_index : Z) : list FeedEntry -> option outcome -> Prop :=
  | turn_fetch_fails e :
      src start_index max_results = Raise e ->
      turn db src start_date end_date max_results start_index [] (Some (Raised e))
  | turn_empty_page p :
      src start_index max_results = Ok p -> page_of p = [] ->
      turn db src start_date end_date max_results start_index [] (Some Returned)
  | turn_decode_fails p e :
      src start_index max_results = Ok p -> decode_page db (page_of p) = Raise e ->
      page_of p <> [] ->
      turn db src start_date end_date max_results start_index [] (Some (Raised e))
  | turn_stop p es :
      src start_index max_results = Ok p -> decode_page db (page_of p) = Ok es ->
      page_of p <> [] ->
      match oldest es with None => true | Some d => date_ltb d start_date end = true ->
      turn db src start_date end_date max_results start_index
        (List.filter (in_window start_date end_date) es) (Some Returned)
  | turn_continue p es :
      src start_index max_results = Ok p -> decode_page db (page_of p) = Ok es ->
      page_of p <> [] ->
      match oldest es with None => true | Some d => date_ltb d start_date end = false ->
      turn db src start_date end_date max_results start_index
        (List.filter (in_window start_date end_date) es) None.

(** A world for examples: the local archive holds the article [a.html]; the
    feed has one page with [a.html] and [b.html], both labelled [books]. *)
Definition feed_a_b : feed_source :=
  fun start_index _ =>
    if (start_index =? 1)%Z then
      example_page
        [example_raw "B" "https://example.com/2024/02/b.html"
           "2024-02-01T08:00:00Z" ["books"%string];
         example_raw "A review" "HTTPS://Example.com/2024/01/a.html"
           "2024-01-05T08:00:00Z" ["books"%string]]
    else example_page [].

Definition world_a_b : world :=
  {| w_local_dir := Some [example_file_a]; w_feed := feed_a_b; w_write := accepting |}.

Definition entry_b : FeedEntry :=
  mkFeedEntry (lit "B") (lit "https://example.com/2024/02/b.html") (mkdate 2024 2 1)
    [lit "books"] (lit "body").

Definition local_a : gset str := {[ lit "https://example.com/2024/01/a.html" ]}.

Definition entry_a : FeedEntry :=
  mkFeedEntry (lit "A review") (lit "https://example.com/2024/01/a.html")
    (mkdate 2024 1 5) [lit "books"] (lit "body").

Definition events_a_b : list event :=
  [Fetched 1%Z; Yielded entry_b; Yielded entry_a; Fetched 151%Z].

(** The test at the end of a turn of the walker: whether the oldest date of
    the page is before the window (or the page has no usable entry). *)
Definition crosses (start_date : date) (es : list FeedEntry) : bool :=
  match oldest es with
  | None => true
  | Some d => date_ltb d start_date
  end.

(** A source of three pages of two entries each, newest first, for a page
    size of 2: June, May, then April, March, then February, January. *)
Definition raw_n (t lnk stamp : string) : raw_entry := example_raw t lnk stamp [].

Definition page_1 : payload :=
  {| feed := Some {| entry := Some
       [raw_n "p1" "https://example.com/2024/06/p1.html" "2024-06-10T00:00:00Z";
        raw_n "p2" "https://example.com/2024/05/p2.html" "2024-05-10T00:00:00Z"] |} |}.

Definition page_2 : payload :=
  {| feed := Some {| entry := Some
       [raw_n "p3" "https://example.com/2024/04/p3.html" "2024-04-10T00:00:00Z";
        raw_n "p4" "https://example.com/2024/03/p4.html" "2024-03-10T00:00:00Z"] |} |}.

Definition page_3 : payload :=
  {| feed := Some {| entry := Some
       [raw_n "p5" "https://example.com/2024/02/p5.html" "2024-02-10T00:00:00Z";
        raw_n "p6" "https://example.com/2024/01/p6.html" "2024-01-10T00:00:00Z"] |} |}.

Definition three_pages : feed_source :=
  fun start_index _ =>
    if (start_index =? 1)%Z then Ok page_1
    else if (start_index =? 3)%Z then Ok page_2
    else if (start_index =? 5)%Z then Ok page_3
    else example_page [].

Definition entry_n (t lnk : string) (d : date) : FeedEntry :=
  mkFeedEntry (lit t) (lit lnk) d [] (lit "body").

(** The offsets [first], [first + step], ... : [n] of them. *)
Fixpoint progression (first step : Z) (n : nat) : list Z :=
  match n with
  | O => []
  | S n' => first :: progression (first + step)%Z step n'
  end.

(** The number of entries the source served at the given offsets. *)
Fixpoint served (src : feed_source) (max_results : Z) (offsets : list Z) : nat :=
  match offsets with
  | [] => 0
  | i :: rest =>
      match src i max_results with
      | Ok p => length (page_of p)
      | Raise _ => 0
      end + served src max_results rest
  end%nat.

(** The walk is over: the generator returned or raised. *)
Definition finished (o : outcome) : bool :=
  match o with
  | Running _ => false
  | _ => true
  end.

(** The page at an offset ends the walk whatever it holds: the fetch fails or
    the page is empty. *)
Definition ends_feed (src : feed_source) (max_results : Z) (i : Z) : Prop :=
  match src i max_results with
  | Ok p => page_of p = []
  | Raise _ => True
  end.

(** A source without end: at every offset a page with one entry of March
    2024. *)
Definition endless_feed : feed_source :=
  fun _ _ =>
    example_page
      [raw_n "again" "https://example.com/2024/03/again.html" "2024-03-10T00:00:00Z"].

(** A directory for examples: an archived article; a text file that is not
    Markdown; a Markdown file whose first link line is blank (a second one is
    not looked at); a Markdown file without a link line. *)
Definition example_dir : list (str * dirent) :=
  [example_file_a;
   (lit "notes.txt", RegularFile (lit "- 链接：https://example.com/2024/01/c.html"));
   (lit "blank.md",
    RegularFile (lit "- 链接：   " ++ [10]
                 ++ lit "- 链接：https://example.com/2024/01/d.html"));
   (lit "plain.md", RegularFile (lit "no link here"))].

(** Elements for examples: a tag without attributes, a plain string. *)
Definition elem (name : string) (children : list node) : node :=
  Tag (lit name) ∅ children.

Definition text (s : string) : node := NavigableString PlainString (lit s).

(** The name of a heading of level [n]: [h1] .. [h6]. *)
Definition heading_name (n : N) : str := [104; 48 + n].

(** The lines of a list element for its children. *)
Definition item_lines (children : list node) : list str :=
  List.concat
    (List.map
       (fun li => let text := get_text li in
                  if nonempty text then [lit "- " ++ text] else [])
       (direct_items children)).




(** The usable entries of the page at the [k]-th offset after the first: the
    page is served and decodes to [es]. *)
Definition page_entries (db : pylib) (src : feed_source) (max_results : Z)
    (k : nat) (es : list FeedEntry) : Prop :=
  exists p,
    src (1 + max_results * Z.of_nat k)%Z max_results = Ok p
    /\ decode_page db (page_of p) = Ok es.

(** The usable entries of the pages of [three_pages], for a page size of 2. *)
Definition three_pages_entries (k : nat) : list FeedEntry :=
  match k with
  | 0%nat =>
      [entry_n "p1" "https://example.com/2024/06/p1.html" (mkdate 2024 6 10);
       entry_n "p2" "https://example.com/2024/05/p2.html" (mkdate 2024 5 10)]
  | 1%nat =>
      [entry_n "p3" "https://example.com/2024/04/p3.html" (mkdate 2024 4 10);
       entry_n "p4" "https://example.com/2024/03/p4.html" (mkdate 2024 3 10)]
  | 2%nat =>
      [entry_n "p5" "https://example.com/2024/02/p5.html" (mkdate 2024 2 10);
       entry_n "p6" "https://example.com/2024/01/p6.html" (mkdate 2024 1 10)]
  | _ => []
  end.

(** A code point that [str.encode] accepts: not a surrogate, not past
    U+10FFFF. *)
Definition encodable (c : N) : Prop := Utf8.encode_char c <> None.

(** A character that is neither a control character, nor a space, nor
    outside ASCII. *)
Definition printable (c : N) : Prop := 32 < c < 128.

(** The scheme of a split URL: none, or a lower-case scheme name. *)
Definition scheme_ok (s : str) : Prop :=
  s = []
  \/ exists c pre,
       s = c :: pre /\ is_alpha_ascii c = true
       /\ forallb scheme_char (c :: pre) = true /\ List.map lower_ascii s = s.

(** Parts that [urlunsplit] and [urlsplit] take to a URL and back: printable
    characters, no separator where it would be read as one, a path that
    starts with a slash after a network location, and no colon in a path that
    would be read as the end of a scheme. *)
Record canonical (p : SplitResult) : Prop := {
  can_scheme : scheme_ok (scheme p);
  can_netloc :
    Forall (fun c => printable c /\ c <> 47 /\ c <> 63 /\ c <> 35 /\ c <> 91 /\ c <> 93)
      (netloc p);
  can_path : Forall (fun c => printable c /\ c <> 63 /\ c <> 35) (path p);
  can_query : Forall (fun c => printable c /\ c <> 35 /\ c <> 58) (query p);
  can_fragment : Forall (fun c => printable c /\ c <> 58) (fragment p);
  can_rooted : netloc p <> [] -> path p = [] \/ startswith [47] (path p) = true;
  can_colon :
    scheme p = [] -> netloc p = [] ->
    startswith [47] (path p) = true \/ has_char 58 (path p) = false
}.

(** The three pieces [urlunsplit] puts together: the scheme with its colon,
    the network location and path with their slashes, and the query and
    fragment with their marks. *)
Definition url_head (p : SplitResult) : str :=
  if nonempty (scheme p) then scheme p ++ [58] else [].

Definition url_body (p : SplitResult) : str :=
  let url := path p in
  if nonempty (netloc p) then
    let url := if nonempty url && negb (startswith [47] url) then 47 :: url else url in
    [47; 47] ++ netloc p ++ url
  else if startswith [47; 47] url then [47; 47] ++ url
  else if nonempty (scheme p) && existsb (PyStr.eqb (scheme p)) uses_netloc
          && (negb (nonempty url) || startswith [47] url)
  then [47; 47] ++ url
  else url.

Definition url_tail (q f : str) : str :=
  (if nonempty q then 63 :: q else []) ++ (if nonempty f then 35 :: f else []).

(** No element below [elem] is found by the selector
    [script, style, .post-footer, .comments]. *)
Fixpoint chrome_free (elem : node) : bool :=
  match elem with
  | NavigableString _ _ => true
  | Tag _ _ children => forallb (fun c => negb (is_chrome c) && chrome_free c) children
  end.

(** The files written and the articles skipped in a run of the batch loop. *)
Definition wrote (effs : list effect) : list article :=
  List.concat (List.map (fun e => match e with Wrote a => [a] | _ => [] end) effs).

Definition skipped (effs : list effect) : list article :=
  List.concat (List.map (fun e => match e with SkippedEmpty a => [a] | _ => [] end) effs).

(** A page with a title and nothing else. *)
Definition bare_soup : soup :=
  {| q_post_title := Some (Tag (lit "h3") ∅ [NavigableString PlainString (lit "T")]);
     q_title := None; q_date := None; q_content := None; q_labels := [] |}.

(** *** The index pages *)

Definition BASE_URL : str := lit "https://www.hecaitou.com".

Definition TARGET_LABELS : list (str * str) :=
  [(u8 "读后感", u8 "/search/label/读后感");
   (u8 "电影", u8 "/search/label/电影");
   (u8 "观后感", u8 "/search/label/观后感");
   (u8 "音乐", u8 "/search/label/音乐")].

Definition SEARCH_KEYWORDS : list str :=
  List.map u8 ["读后"; "书评"; "电影"; "观后"]%string.

Definition KNOWN_ARTICLES : list str :=
  [lit "https://www.hecaitou.com/2024/01/The-Happiest-Man-in-the-World-book-review.html"].

Definition YEAR_RANGE : Z * Z := (2023, 2025)%Z.

(** [is_in_year_range] *)
Definition is_in_year_range (d : option date) : bool :=
  match d with
  | None => false
  | Some d => ((fst YEAR_RANGE <=? year d) && (year d <=? snd YEAR_RANGE))%Z
  end.

(** An index page (a label page or a page of search results), by what the
    selector queries of the listing functions find in it. *)
Record index_page : Type := {
  q_post_title_links : list node;   (* .post-title a, h3.post-title a *)
  q_entry_title_links : list node;  (* .entry-title a *)
  q_posts : list (option node);     (* for each of .blog-post, .post, article:
                                       its first a[href*='hecaitou.com'] *)
  q_search_links : list node        (* .post-title a, h3.post-title a, .entry-title a *)
}.

Definition index_web : Type := str -> res index_page.

(** [get_page] for an index page. *)
Definition get_index_page (w : index_web) (url : str) : res (option index_page) :=
  match w url with
  | Ok page => Ok (Some page)
  | Raise RequestException => Ok None
  | Raise e => Raise e
  end.

(** [elem.get("href")] *)
Definition get_href (elem : node) : option str :=
  match elem with
  | Tag _ attrs _ => attrs !! lit "href"
  | NavigableString _ _ => None
  end.

(** The loop over the links a selector found: text and address of each link
    that has an address. *)
Definition titled_links (elems : list node) : list (str * str) :=
  List.concat
    (List.map
       (fun title_elem =>
          match get_href title_elem with
          | Some (c :: h) => [(get_text title_elem, c :: h)]
          | _ => []
          end)
       elems).

(** The third way of [get_articles_from_label_page]: the first link of each
    post container. *)
Definition container_links (posts : list (option node)) : list (str * str) :=
  List.concat
    (List.map
       (fun found =>
          match found with
          | Some link =>
              let title :=
                match get_text link with [] => u8 "未知标题" | t => t end in
              match get_href link with
              | Some (c :: h) =>
                  if contains (lit ".html") (c :: h) then [(title, c :: h)] else []
              | _ => []
              end
          | None => []
          end)
       posts).

(** [post_links] of [get_articles_from_label_page], after the three ways. *)
Definition label_post_links (p : index_page) : list (str * str) :=
  let post_links := titled_links (q_post_title_links p) in
  let post_links :=
    match post_links with
    | [] => titled_links (q_entry_title_links p)
    | _ :: _ => post_links
    end in
  match post_links with
  | [] => container_links (q_posts p)
  | _ :: _ => post_links
  end.

(** The last loop of [get_articles_from_label_page]: [articles], in order. *)
Fixpoint label_loop (db : pylib) (label : str) (post_links : list (str * str))
    (seen : gset str) : res (list listed) :=
  match post_links with
  | [] => Ok []
  | (title, href) :: rest =>
      if bool_decide (href ∈ seen) then label_loop db label rest seen
      else
        try! date := parse_date_from_url db href in
        try! articles := label_loop db label rest ({[ href ]} ∪ seen) in
        Ok (match date with
            | Some d =>
                if is_in_year_range date then mkListed title href d label :: articles
                else articles
            | None => articles
            end)
  end.

(** [urljoin(BASE_URL, label_url)] for a base that is a scheme and a host and
    a path that starts with one slash and has neither dot segments nor
    parameters: the two, one after the other. *)
Definition urljoin (base url : str) : str := base ++ url.

(** [get_articles_from_label_page] *)
Definition get_articles_from_label_page (db : pylib) (w : index_web)
    (label label_url : str) : res (list listed) :=
  try! page := get_index_page w (urljoin BASE_URL label_url) in
  match page with
  | None => Ok []
  | Some soup => label_loop db label (label_post_links soup) ∅
  end.

(** The last loop of [get_articles_from_search]. *)
Fixpoint search_loop (db : pylib) (label : str) (post_links : list (str * str))
    (seen : gset str) : res (list listed) :=
  match post_links with
  | [] => Ok []
  | (title, href) :: rest =>
      if negb (bool_decide (href ∈ seen)) && contains (lit ".html") href then
        try! date := parse_date_from_url db href in
        try! articles := search_loop db label rest ({[ href ]} ∪ seen) in
        Ok (match date with
            | Some d =>
                if is_in_year_range date then mkListed title href d label :: articles
                else articles
            | None => articles
            end)
      else search_loop db label rest seen
  end.

(** [get_articles_from_search] *)
Definition get_articles_from_search (db : pylib) (w : index_web) (keyword : str)
    : res (list listed) :=
  try! page := get_index_page w (BASE_URL ++ lit "/search?q=" ++ keyword) in
  match page with
  | None => Ok []
  | Some soup =>
      search_loop db (u8 "搜索:" ++ keyword) (titled_links (q_search_links soup)) ∅
  end.

(** *** The first half of [main]: the articles to fetch *)

(** The loop [for article in articles] of [main]: an article whose address
    was not seen is added. *)
Fixpoint add_unseen (articles : list listed) (seen_urls : gset str)
    (all_articles : list listed) : gset str * list listed :=
  match articles with
  | [] => (seen_urls, all_articles)
  | a :: rest =>
      if bool_decide (l_url a ∈ seen_urls) then add_unseen rest seen_urls all_articles
      else add_unseen rest ({[ l_url a ]} ∪ seen_urls) (all_articles ++ [a])
  end.

Fixpoint collect_labels (db : pylib) (w : index_web) (labels : list (str * str))
    (seen_urls : gset str) (all_articles : list listed)
    : res (gset str * list listed) :=
  match labels with
  | [] => Ok (seen_urls, all_articles)
  | (label, label_url) :: rest =>
      try! articles := get_articles_from_label_page db w label label_url in
      let '(seen_urls, all_articles) := add_unseen articles seen_urls all_articles in
      collect_labels db w rest seen_urls all_articles
  end.

Fixpoint collect_searches (db : pylib) (w : index_web) (keywords : list str)
    (seen_urls : gset str) (all_articles : list listed)
    : res (gset str * list listed) :=
  match keywords with
  | [] => Ok (seen_urls, all_articles)
  | keyword :: rest =>
      try! articles := get_articles_from_search db w keyword in
      let '(seen_urls, all_articles) := add_unseen articles seen_urls all_articles in
      collect_searches db w rest seen_urls all_articles
  end.

Fixpoint collect_known (db : pylib) (urls : list str)
    (seen_urls : gset str) (all_articles : list listed)
    : res (gset str * list listed) :=
  match urls with
  | [] => Ok (seen_urls, all_articles)
  | url :: rest =>
      if bool_decide (url ∈ seen_urls) then collect_known db rest seen_urls all_articles
      else
        try! date := parse_date_from_url db url in
        match date with
        | Some d =>
            if is_in_year_range date then
              collect_known db rest ({[ url ]} ∪ seen_urls)
                (all_articles ++ [mkListed (u8 "待获取") url d (u8 "已知文章")])
            else collect_known db rest seen_urls all_articles
        | None => collect_known db rest seen_urls all_articles
        end
  end.

(** [all_articles] when the three steps of [main] are done. *)
Definition collect_articles (db : pylib) (w : index_web) : res (list listed) :=
  try! s1 := collect_labels db w TARGET_LABELS ∅ [] in
  try! s2 := collect_searches db w SEARCH_KEYWORDS (fst s1) (snd s1) in
  try! s3 := collect_known db KNOWN_ARTICLES (fst s2) (snd s2) in
  Ok (snd s3).

(** [main] of the scraper: the effects of the batch loop and, at the end,
    [saved_count], or nothing where no article was found. *)
Definition scraper_main (db : pylib) (iw : index_web) (w : web)
    : list effect * res (option Z) :=
  match collect_articles db iw with
  | Raise e => ([], Raise e)
  | Ok [] => ([], Ok None)
  | Ok all_articles =>
      let '(effs, r) := crawl_articles db w all_articles 0 in
      (effs, match r with Ok n => Ok (Some n) | Raise e => Raise e end)
  end.

(** An article of [all_articles] as the listing functions make it: its date
    is the one its address gives, and of the years that are kept. *)
Definition listed_ok (db : pylib) (a : listed) : Prop :=
  is_in_year_range (Some (l_date a)) = true
  /\ parse_date_from_url db (l_url a) = Ok (Some (l_date a)).

(** The state of the first half of [main] between two steps: no address
    twice, every address seen, every article as the listing functions make
    it. *)
Definition collect_inv (db : pylib) (st : gset str * list listed) : Prop :=
  List.NoDup (List.map l_url (snd st))
  /\ (forall a, In a (snd st) -> l_url a ∈ fst st)
  /\ Forall (listed_ok db) (snd st).

(** A link of an index page. *)
Definition link (title href : string) : node :=
  Tag (lit "a") {[ lit "href" := lit href ]} [text title].

(** Index pages for examples: the page of the first label lists one article
    twice and one article of 2019, one search finds the first article again
    and one more, and no other page can be reached. *)
Definition example_index : index_web :=
  fun url =>
    if PyStr.eqb url (urljoin BASE_URL (u8 "/search/label/读后感")) then
      Ok {| q_post_title_links :=
              [link "Book A" "https://www.hecaitou.com/2024/03/a.html";
               link "Old" "https://www.hecaitou.com/2019/05/old.html";
               link "Book A again" "https://www.hecaitou.com/2024/03/a.html"];
            q_entry_title_links := []; q_posts := []; q_search_links := [] |}
    else if PyStr.eqb url (BASE_URL ++ lit "/search?q=" ++ u8 "书评") then
      Ok {| q_post_title_links := []; q_entry_title_links := []; q_posts := [];
            q_search_links :=
              [link "Book A" "https://www.hecaitou.com/2024/03/a.html";
               link "Film B" "https://www.hecaitou.com/2023/11/b.html"] |}
    else Raise RequestException.

Definition example_collected : list listed :=
  [mkListed (lit "Book A") (lit "https://www.hecaitou.com/2024/03/a.html")
     (mkdate 2024 3 1) (u8 "读后感");
   mkListed (lit "Film B") (lit "https://www.hecaitou.com/2023/11/b.html")
     (mkdate 2023 11 1) (u8 "搜索:书评");
   mkListed (u8 "待获取")
     (lit "https://www.hecaitou.com/2024/01/The-Happiest-Man-in-the-World-book-review.html")
     (mkdate 2024 1 1) (u8 "已知文章")].

(** *** The file of an article *)

(** [safe_title]: [re.sub] takes out of the title the backslash, the slash,
    the colon, the star, the question mark, the double quote, the two angle
    brackets and the bar; [[:50]] keeps the first fifty characters. *)
Definition safe_title (title : str) : str :=
  firstn 50
    (List.filter
       (fun c => negb (existsb (N.eqb c) [92; 47; 58; 42; 63; 34; 60; 62; 124]))
       title).

(** The name of the file [save_article_to_markdown] writes; [date_str] is
    what [strftime("%Y-%m-%d")] gave for the date of the article, or
    [unknown-date]. *)
Definition md_filename (date_str title : str) : str :=
  date_str ++ [45] ++ safe_title title ++ lit ".md".

(** [labels_str]: the labels of the page or, where it has none, the label of
    the listing. *)
Definition labels_str (a : article) : str :=
  match join (lit ", ") (art_labels a) with
  | [] => art_label a
  | s => s
  end.

(** [md_content], the text of the file. *)
Definition md_content (title date_str url labels content : str) : str :=
  lit "# " ++ title ++ [10; 10]
  ++ u8 "- 日期：" ++ date_str ++ [10]
  ++ u8 "- 链接：" ++ url ++ [10]
  ++ u8 "- 标签：" ++ labels ++ [10; 10]
  ++ lit "---" ++ [10; 10]
  ++ content ++ [10].

(** What [save_article_to_markdown] hands to [open] and to [write] for an
    article with a title and a content. *)
Definition written_file (date_str : str) (a : article) : option (str * str) :=
  match art_title a, art_content a with
  | Some title, Some (c :: content) =>
      Some (md_filename date_str title,
            md_content title date_str (art_url a) (labels_str a) (c :: content))
  | _, _ => None
  end.

(** No line break of any kind in a text. *)
Definition one_line (s : str) : Prop := has_char 10 s = false /\ has_char 13 s = false.

(** An article for examples. *)
Definition example_article : article :=
  mkArticle (Some (u8 "读《活着》: 笔记")) (Some (mkdate 2024 3 5))
    (Some (lit "First paragraph." ++ [13; 10] ++ u8 "- 链接：not this one"))
    [u8 "读后感"] (lit " https://www.hecaitou.com/2024/03/To-Live.html") [].

(** A feed for examples: one entry, with blanks around its texts, a link
    that is no alternate, an alternate link without address, an empty
    content and labels in no order, one of them twice. *)
Definition untidy_raw : raw_entry :=
  {| raw_title := Some (lit "  T  ");
     raw_links :=
       [{| rel := Some (lit "self"); href := Some (lit "https://example.com/feed") |};
        {| rel := Some (lit "alternate"); href := Some [] |};
        {| rel := Some (lit "alternate");
           href := Some (lit "HTTPS://Example.com/2024/02/t.html") |}];
     raw_published := Some (lit "2024-02-01T08:00:00Z");
     raw_content := Some (lit "  ");
     raw_summary := Some (lit " sum ");
     raw_categories :=
       [Some (lit " b "); Some (lit "a"); None; Some (lit "b"); Some (lit "  ")] |}.

Definition untidy_feed : feed_source :=
  fun start_index _ =>
    if (start_index =? 1)%Z then example_page [untidy_raw] else example_page [].

Definition tidy_entry : FeedEntry :=
  mkFeedEntry (lit "T") (lit "https://example.com/2024/02/t.html") (mkdate 2024 2 1)
    [lit "a"; lit "b"] (lit "sum").

(** *** The command line of the audit *)

(** [_default_start_date]; [date(year, month, day)] accepts what [datetime]
    accepts. *)
Definition _default_start_date (today : date) : res date :=
  let target_year := (year today - 3)%Z in
  match datetime target_year (month today) (day today) with
  | Ok d => Ok d
  | Raise ValueError => datetime target_year (month today) 28
  | Raise e => Raise e
  end.

(** [_parse_comma_list] *)
Definition _parse_comma_list (value : str) : list str :=
  if nonempty (strip value) then
    List.filter nonempty (List.map strip (split_on 44 value))
  else [].

(** A date of the calendar. *)
Definition valid_date (d : date) : Prop := datetime (year d) (month d) (day d) = Ok d.

(** An element of a list of labels or keywords as [_parse_comma_list] gives
    it: not empty, no blanks around it, no comma in it. *)
Definition list_item (s : str) : Prop :=
  s <> [] /\ strip s = s /\ has_char 44 s = false.

(** *** The request of a page of the feed *)

(** [str(n)] for an integer: its decimal digits, after a minus sign where it
    is negative. *)
Definition str_of_Z (n : Z) : str := lit (NilEmpty.string_of_int (Z.to_int n)).

(** The address [_fetch_feed_page] asks for. *)
Definition feed_page_url (base_url : str) (start_index max_results : Z) : str :=
  rstrip_by (fun c => c =? 47) base_url
  ++ lit "/feeds/posts/default?alt=json&start-index=" ++ str_of_Z start_index
  ++ lit "&max-results=" ++ str_of_Z max_results.

(** [_fetch_feed_page]; [session] answers an address with the decoded JSON
    of the page, or raises what [get], [raise_for_status] or [json] raise. *)
Definition _fetch_feed_page (base_url : str) (start_index max_results : Z)
    (session : str -> res payload) : res payload :=
  session (feed_page_url base_url start_index max_results).

(** A server for examples: it knows the first page of 150 entries of one
    blog and answers every other address with an empty feed. *)
Definition example_session : str -> res payload :=
  fun url =>
    if PyStr.eqb url
         (lit "https://www.hecaitou.com/feeds/posts/default?alt=json&start-index=1&max-results=150")
    then Ok page_1 else example_page [].

(** A page for examples: a good entry, then one whose time stamp is no
    date. *)
Definition bad_stamp_page : payload :=
  {| feed := Some {| entry := Some
       [raw_n "good" "https://example.com/2024/06/good.html" "2024-06-10T00:00:00Z";
        raw_n "bad" "https://example.com/2024/05/bad.html" "yesterday"] |} |}.

(** A source for examples, for pages of 150: a first page that decodes,
    then the page with the bad time stamp. *)
Definition bad_second_page : feed_source :=
  fun start_index _ =>
    if (start_index =? 1)%Z then Ok page_1
    else if (start_index =? 151)%Z then Ok bad_stamp_page
    else example_page [].

(** A world for examples where the normal form is not a fixed point: the
    feed gives an entry with the link [http://a/%2525], the archive holds a
    file with the line of [http://a/%25]. *)
Definition percent_file : str * dirent :=
  (lit "2024-02-01-p.md",
   RegularFile (lit "# p" ++ [10; 10] ++ lit "- 链接：http://a/%25" ++ [10])).

Definition percent_feed : feed_source :=
  fun start_index _ =>
    if (start_index =? 1)%Z then
      example_page
        [example_raw "P" "http://a/%2525" "2024-02-01T08:00:00Z" ["books"%string]]
    else example_page [].

Definition percent_world : world :=
  {| w_local_dir := Some [percent_file]; w_feed := percent_feed; w_write := accepting |}.

Definition percent_entry : FeedEntry :=
  mkFeedEntry (lit "P") (lit "http://a/%25") (mkdate 2024 2 1) [lit "books"] (lit "body").

(** * Properties *)

(** ** Strings *)

Section StripFacts.
Variable p : N -> bool.

Lemma lstrip_by_app (u r : str) :
  lstrip_by p (u ++ r) = if forallb p u then lstrip_by p r else lstrip_by p u ++ r.
Proof.
  induction u as [|c u IH]; simpl; [reflexivity|].
  destruct (p c); simpl; [exact IH | reflexivity].
Qed.

Lemma lstrip_by_all (l : str) : forallb p l = true -> lstrip_by p l = [].
Proof.
  induction l as [|c l IH]; simpl; [reflexivity|].
  destruct (p c); simpl; [exact IH | discriminate].
Qed.

Lemma lstrip_by_prefix (l s : str) :
  forallb p l = true -> lstrip_by p (l ++ s) = lstrip_by p s.
Proof. intros H. rewrite lstrip_by_app, H. reflexivity. Qed.

Lemma rstrip_by_suffix (s r : str) :
  forallb p r = true -> rstrip_by p (s ++ r) = rstrip_by p s.
Proof.
  intros H. unfold rstrip_by. rewrite rev_app_distr.
  rewrite lstrip_by_prefix; [reflexivity|].
  rewrite forallb_forall in *. intros x Hx. apply H, in_rev, Hx.
Qed.

Lemma rstrip_by_all (l : str) : forallb p l = true -> rstrip_by p l = [].
Proof.
  intros H. unfold rstrip_by. rewrite lstrip_by_all; [reflexivity|].
  rewrite forallb_forall in *. intros x Hx. apply H, in_rev, Hx.
Qed.
End StripFacts.

Lemma strip_surrounded (l u r : str) :
  forallb is_space l = true -> forallb is_space r = true ->
  strip (l ++ u ++ r) = strip u.
Proof.
  intros Hl Hr. unfold strip.
  rewrite lstrip_by_prefix by exact Hl.
  rewrite lstrip_by_app.
  destruct (forallb is_space u) eqn:Hu.
  - rewrite (lstrip_by_all _ r Hr), (lstrip_by_all _ u Hu). reflexivity.
  - apply rstrip_by_suffix, Hr.
Qed.

(** ** C9: the input of [normalize_url] is stripped first *)

(** C9. [normalize_url] ignores the white space around its input: a space
    before and after [u], and more generally any run [l] of white space before
    it and any run [r] after it, change nothing in the result (the value or
    the exception), so no such character can reach the output. *)
Theorem normalize_url_ignores_surrounding_whitespace
    (db : pylib) (u l r : str) :
  forallb is_space l = true ->
  forallb is_space r = true ->
  normalize_url db ([32] ++ u ++ [32]) = normalize_url db u
  /\ normalize_url db (l ++ u ++ r) = normalize_url db u.
Proof.
  intros Hl Hr. unfold normalize_url. split.
  - rewrite (strip_surrounded [32] u [32]) by reflexivity. reflexivity.
  - rewrite (strip_surrounded l u r Hl Hr). reflexivity.
Qed.

Lemma normalize_url_ignores_surrounding_whitespace_witness :
  normalize_url ascii_lib ([32] ++ lit "HTTP://Example.com/a b" ++ [32])
    = normalize_url ascii_lib (lit "HTTP://Example.com/a b")
  /\ normalize_url ascii_lib
       ([9; 32; 12288] ++ lit "HTTP://Example.com/a b" ++ [10; 13; 160])
     = normalize_url ascii_lib (lit "HTTP://Example.com/a b").
Proof.
  apply (normalize_url_ignores_surrounding_whitespace ascii_lib
           (lit "HTTP://Example.com/a b") [9; 32; 12288] [10; 13; 160]);
    reflexivity.
Defined.

(** ** C5: the classifier *)

Lemma label_hit_empty (c : criteria) (e : FeedEntry) :
  include_labels c = ∅ -> label_hit c e = false.
Proof.
  intros H. unfold label_hit. rewrite H.
  induction (labels e) as [|l ls IH]; simpl; [reflexivity|].
  rewrite IH, orb_false_r. apply bool_decide_eq_false. set_solver.
Qed.

Lemma pattern_hit_compile_nil (text : str) : pattern_hit (compile_keywords []) text = false.
Proof. reflexivity. Qed.

Lemma pattern_hit_compile (ks : list str) (text : str) :
  pattern_hit (compile_keywords ks) text = existsb (fun k => contains k text) ks.
Proof. destruct ks; reflexivity. Qed.

Lemma classify_general (c : criteria) (e : FeedEntry) :
  fst (classify c e)
    = (label_hit c e
       || pattern_hit (title_keyword_re c) (title e)
       || pattern_hit (content_keyword_re c) (content e))
  /\ snd (classify c e)
     = (if label_hit c e then []
        else
          match title_keyword_re c with
          | Some tp => [TitleSearch tp (title e)]
          | None => []
          end
          ++ (if pattern_hit (title_keyword_re c) (title e) then []
              else match content_keyword_re c with
                   | Some cp => [ContentSearch cp (content e)]
                   | None => []
                   end)).
Proof.
  unfold classify. fold (label_hit c e).
  destruct (bool_decide (include_labels c = ∅)) eqn:Hempty; simpl.
  - apply bool_decide_eq_true in Hempty. rewrite (label_hit_empty c e Hempty). simpl.
    destruct (title_keyword_re c) as [tp|], (content_keyword_re c) as [cp|]; simpl;
      try destruct (re_search tp (title e)); simpl; auto using orb_false_r.
  - destruct (label_hit c e); simpl; [auto|].
    destruct (title_keyword_re c) as [tp|], (content_keyword_re c) as [cp|]; simpl;
      try destruct (re_search tp (title e)); simpl; auto using orb_false_r.
Qed.

Lemma label_hit_make (ls tks cks : list str) (e : FeedEntry) :
  label_hit (make_criteria ls tks cks) e
  = existsb (fun label => bool_decide (label ∈ ls)) (labels e).
Proof.
  unfold label_hit, make_criteria. simpl.
  induction (labels e) as [|l rest IH]; simpl; [reflexivity|].
  rewrite IH. f_equal. apply bool_decide_ext. set_solver.
Qed.

(** C5. With the criteria [main] builds from the three lists of the command
    line, an entry is matched exactly when one of its labels is among the
    labels, or else a title keyword occurs in its title, or else a content
    keyword occurs in its content; an empty list is skipped and contributes
    nothing. The pattern searches that are run are: none after a label hit;
    otherwise the title search, if there are title keywords; and the content
    search only if the title did not match and there are content keywords. *)
Theorem classify_short_circuit (ls tks cks : list str) (e : FeedEntry) :
  let c := make_criteria ls tks cks in
  let by_label := existsb (fun label => bool_decide (label ∈ ls)) (labels e) in
  let by_title := existsb (fun k => contains k (title e)) tks in
  let by_content := existsb (fun k => contains k (content e)) cks in
  fst (classify c e) = (by_label || by_title || by_content)
  /\ snd (classify c e)
     = (if by_label then []
        else
          match tks with
          | [] => []
          | _ => [TitleSearch tks (title e)]
          end
          ++ (if by_title then []
              else match cks with
                   | [] => []
                   | _ => [ContentSearch cks (content e)]
                   end)).
Proof.
  intros c by_label by_title by_content.
  destruct (classify_general c e) as [Hfst Hsnd].
  rewrite Hfst, Hsnd. subst c by_label by_title by_content.
  rewrite label_hit_make. simpl.
  rewrite !pattern_hit_compile.
  split; [reflexivity|].
  destruct tks, cks; reflexivity.
Qed.

(** ** The sort *)

Section SortPermutation.
Context {A : Type} (le : A -> A -> bool).

Lemma insert_sorted_perm (x : A) (l : list A) :
  Permutation (insert_sorted le x l) (x :: l).
Proof.
  induction l as [|y l IH]; simpl; [reflexivity|].
  destruct (le x y); [reflexivity|].
  rewrite IH. apply perm_swap.
Qed.

Lemma sorted_perm (l : list A) : Permutation (sorted le l) l.
Proof.
  induction l as [|x l IH]; simpl; [reflexivity|].
  rewrite insert_sorted_perm. constructor. exact IH.
Qed.

Lemma sorted_In (x : A) (l : list A) : In x (sorted le l) <-> In x l.
Proof.
  split; apply Permutation_in; [|symmetry]; apply sorted_perm.
Qed.
End SortPermutation.

Section SortOrder.
Context {A : Type} (le : A -> A -> bool).
Hypothesis le_total : forall a b, le a b = true \/ le b a = true.
Hypothesis le_trans : forall a b c, le a b = true -> le b c = true -> le a c = true.

Let R (a b : A) : Prop := le a b = true.

Lemma insert_sorted_sorted (x : A) (l : list A) :
  StronglySorted R l -> StronglySorted R (insert_sorted le x l).
Proof.
  induction 1 as [|y l Hs IH Hall]; simpl.
  - repeat constructor.
  - destruct (le x y) eqn:Hxy.
    + constructor; [constructor; assumption|].
      constructor; [exact Hxy|].
      rewrite List.Forall_forall in *. intros z Hz. apply (le_trans x y z Hxy), Hall, Hz.
    + constructor; [exact IH|].
      rewrite List.Forall_forall in *. intros z Hz.
      apply (Permutation_in _ (insert_sorted_perm le x l)) in Hz.
      destruct Hz as [<-|Hz]; [|apply Hall, Hz].
      destruct (le_total y x) as [H|H]; [exact H|congruence].
Qed.

Lemma sorted_sorted (l : list A) : StronglySorted R (sorted le l).
Proof.
  induction l as [|x l IH]; simpl; [constructor|].
  apply insert_sorted_sorted, IH.
Qed.
End SortOrder.

(** Two sorted lists with the same elements are equal, for an order in which
    no two different elements are each below the other. *)
Lemma sorted_unique {K : Type} (R : K -> K -> Prop) :
  (forall a b, R a b -> R b a -> a = b) ->
  forall l1 l2 : list K,
    StronglySorted R l1 -> StronglySorted R l2 -> Permutation l1 l2 -> l1 = l2.
Proof.
  intros Hanti l1.
  induction l1 as [|x l1 IH]; intros l2 H1 H2 Hp.
  - apply Permutation_nil in Hp. congruence.
  - destruct l2 as [|y l2]; [symmetry in Hp; apply Permutation_nil in Hp; discriminate|].
    inversion H1 as [|? ? Hs1 Ha1]; inversion H2 as [|? ? Hs2 Ha2]; subst.
    rewrite List.Forall_forall in Ha1, Ha2.
    assert (Hxy : x = y).
    { assert (Hx : In x (y :: l2)) by (apply (Permutation_in _ Hp); left; reflexivity).
      assert (Hy : In y (x :: l1))
        by (apply (Permutation_in _ (Permutation_sym Hp)); left; reflexivity).
      destruct Hx as [->|Hx]; [reflexivity|].
      destruct Hy as [->|Hy]; [reflexivity|].
      apply Hanti; [apply Ha1, Hy | apply Ha2, Hx]. }
    subst y. f_equal. apply IH; try assumption.
    apply Permutation_cons_inv in Hp. exact Hp.
Qed.

Lemma StronglySorted_map {A K : Type} (key : A -> K) (R : K -> K -> Prop) (l : list A) :
  StronglySorted (fun a b => R (key a) (key b)) l -> StronglySorted R (List.map key l).
Proof.
  induction 1 as [|x l Hs IH Hall]; simpl; constructor; [exact IH|].
  rewrite List.Forall_forall in *. intros k Hk. apply in_map_iff in Hk.
  destruct Hk as [a [<- Ha]]. apply Hall, Ha.
Qed.

(** ** The order of dates and of strings *)

Ltac bool_to_Z :=
  repeat match goal with
  | H : context [(?a <? ?b)%Z] |- _ => destruct (Z.ltb_spec a b)
  | |- context [(?a <? ?b)%Z] => destruct (Z.ltb_spec a b)
  | H : context [(?a =? ?b)%Z] |- _ => destruct (Z.eqb_spec a b)
  | |- context [(?a =? ?b)%Z] => destruct (Z.eqb_spec a b)
  end; simpl in *; try reflexivity; try discriminate; try lia.

Lemma date_ltb_iff (a b : date) :
  date_ltb a b = true
  <-> (year a < year b
       \/ (year a = year b
           /\ (month a < month b \/ (month a = month b /\ day a < day b))))%Z.
Proof.
  unfold date_ltb.
  rewrite orb_true_iff, andb_true_iff, orb_true_iff, andb_true_iff,
    !Z.ltb_lt, !Z.eqb_eq.
  reflexivity.
Qed.

Lemma date_ltb_irrefl (a : date) : date_ltb a a = false.
Proof.
  destruct (date_ltb a a) eqn:E; [|reflexivity]. apply date_ltb_iff in E. lia.
Qed.

Lemma date_ltb_trans (a b c : date) :
  date_ltb a b = true -> date_ltb b c = true -> date_ltb a c = true.
Proof. rewrite !date_ltb_iff. lia. Qed.

Lemma date_ltb_asym (a b : date) : date_ltb a b = true -> date_ltb b a = false.
Proof.
  intros H. destruct (date_ltb b a) eqn:E; [|reflexivity].
  apply date_ltb_iff in H, E. lia.
Qed.

Lemma date_trichotomy (a b : date) :
  date_ltb a b = true \/ a = b \/ date_ltb b a = true.
Proof.
  destruct a as [y1 m1 d1], b as [y2 m2 d2]. unfold date_ltb; simpl.
  destruct (Z.lt_total y1 y2) as [?|[?|?]], (Z.lt_total m1 m2) as [?|[?|?]],
    (Z.lt_total d1 d2) as [?|[?|?]]; subst;
    try (left; bool_to_Z; fail); try (right; right; bool_to_Z; fail).
  right; left; reflexivity.
Qed.

Lemma date_leb_ltb_trans (a b c : date) :
  date_leb a b = true -> date_ltb b c = true -> date_ltb a c = true.
Proof.
  unfold date_leb. intros H1 H2. apply negb_true_iff in H1.
  destruct (date_trichotomy a b) as [H|[->|H]]; [|exact H2|congruence].
  exact (date_ltb_trans _ _ _ H H2).
Qed.

Lemma date_ltb_leb_trans (a b c : date) :
  date_ltb a b = true -> date_leb b c = true -> date_ltb a c = true.
Proof.
  unfold date_leb. intros H1 H2. apply negb_true_iff in H2.
  destruct (date_trichotomy b c) as [H|[<-|H]]; [|exact H1|congruence].
  exact (date_ltb_trans _ _ _ H1 H).
Qed.

Lemma str_leb_refl (a : str) : PyStr.leb a a = true.
Proof.
  induction a as [|x a IH]; simpl; [reflexivity|].
  rewrite N.eqb_refl, IH. apply orb_true_r.
Qed.

Lemma str_leb_total (a b : str) : PyStr.leb a b = true \/ PyStr.leb b a = true.
Proof.
  revert b. induction a as [|x a IH]; intros [|y b]; simpl; auto.
  destruct (N.ltb_spec x y), (N.ltb_spec y x), (N.eqb_spec x y), (N.eqb_spec y x);
    simpl; auto; try lia.
Qed.

Lemma str_leb_trans (a b c : str) :
  PyStr.leb a b = true -> PyStr.leb b c = true -> PyStr.leb a c = true.
Proof.
  revert b c. induction a as [|x a IH]; intros [|y b] [|z c]; simpl; auto; try discriminate.
  destruct (N.ltb_spec x y), (N.ltb_spec y z), (N.ltb_spec x z),
    (N.eqb_spec x y), (N.eqb_spec y z), (N.eqb_spec x z);
    simpl; auto; try lia; try discriminate.
  apply IH.
Qed.

Lemma str_leb_antisym (a b : str) :
  PyStr.leb a b = true -> PyStr.leb b a = true -> a = b.
Proof.
  revert b. induction a as [|x a IH]; intros [|y b]; simpl; auto; try discriminate.
  destruct (N.ltb_spec x y), (N.ltb_spec y x), (N.eqb_spec x y), (N.eqb_spec y x);
    simpl; try lia; try discriminate.
  intros H1 H2. subst. f_equal. apply IH; assumption.
Qed.

(** ** C3: the three renderings *)

Lemma summary_of_members (s : summary) (extra : list (str * json)) :
  summary_of_json (JObj (summary_members s ++ extra)) = Some s.
Proof. destruct s. reflexivity. Qed.

(** C3 does not hold of the CSV rendering: two runs that differ in the number
    of local articles, and so in their summaries (as the text rendering shows),
    print the same CSV report, the header alone, which carries no summary. *)
Lemma csv_report_carries_no_summary :
  main example_lib world_empty_archive (example_args FmtCsv) 1
    = Exit 0 [CsvHeader csv_fieldnames] None
  /\ main example_lib world_one_archived (example_args FmtCsv) 1
     = Exit 0 [CsvHeader csv_fieldnames] None
  /\ main example_lib world_empty_archive (example_args FmtText) 1
     = Exit 0 [JsonDumps None
                 (JObj (summary_members
                          (mkSummary (lit "https://example.com") (lit "2024-01-01")
                             (lit "2024-12-31") (lit "articles") 0 0 0)));
               Text [10]] None
  /\ main example_lib world_one_archived (example_args FmtText) 1
     = Exit 0 [JsonDumps None
                 (JObj (summary_members
                          (mkSummary (lit "https://example.com") (lit "2024-01-01")
                             (lit "2024-12-31") (lit "articles") 1 0 0)));
               Text [10]] None
  /\ output_summary [CsvHeader csv_fieldnames] = None.
Proof. vm_compute. repeat split; reflexivity. Qed.

(** C3, amended. The three renderings are projections of the same sorted
    list of missing entries: the text report is the summary, serialized on one
    line, then one row per entry; the JSON report is one object with the
    members of the summary and a member [missing] with one object per entry;
    the CSV report is the header row and one row per entry. The text and the
    JSON report carry the summary of the run; the CSV report carries none and
    does not depend on it. *)
Theorem renderings_project_sorted_missing (s : summary) (missing : list FeedEntry) :
  render FmtText s missing
    = JsonDumps None (JObj (summary_members s)) :: Text [10]
      :: List.map text_row (sorted_missing missing)
  /\ output_summary (render FmtText s missing) = Some s
  /\ (exists doc,
        render FmtJson s missing = [JsonDumps (Some 2%Z) (JObj doc); Text [10]]
        /\ member (lit "missing") doc
           = Some (JArr (List.map json_row (sorted_missing missing))))
  /\ output_summary (render FmtJson s missing) = Some s
  /\ render FmtCsv s missing
     = CsvHeader csv_fieldnames :: List.map csv_row (sorted_missing missing)
  /\ output_summary (render FmtCsv s missing) = None
  /\ (forall s', render FmtCsv s' missing = render FmtCsv s missing).
Proof.
  split; [reflexivity|].
  split; [apply (summary_of_members s [])|].
  split; [eexists; split; reflexivity|].
  split; [apply summary_of_members|].
  split; [reflexivity|].
  split; [|reflexivity].
  simpl. induction (sorted_missing missing) as [|e l IH]; [reflexivity|exact IH].
Qed.

(** ** The order of the report *)

Lemma report_leb_key (a b : FeedEntry) :
  report_leb a b = key_leb (report_key a) (report_key b).
Proof. reflexivity. Qed.

Lemma key_leb_total (a b : date * str) : key_leb a b = true \/ key_leb b a = true.
Proof.
  destruct a as [d1 u1], b as [d2 u2]. unfold key_leb, date_leb; simpl.
  destruct (date_trichotomy d1 d2) as [H|[->|H]].
  - left. rewrite H. reflexivity.
  - rewrite date_ltb_irrefl. simpl. apply str_leb_total.
  - right. rewrite H. reflexivity.
Qed.

Lemma key_leb_trans (a b c : date * str) :
  key_leb a b = true -> key_leb b c = true -> key_leb a c = true.
Proof.
  destruct a as [d1 u1], b as [d2 u2], c as [d3 u3]. unfold key_leb; simpl.
  intros H1 H2.
  apply orb_true_iff in H1. apply orb_true_iff in H2. apply orb_true_iff.
  destruct H1 as [H1|H1], H2 as [H2|H2].
  - left. exact (date_ltb_trans _ _ _ H1 H2).
  - apply andb_true_iff in H2. destruct H2 as [H2 _].
    left. exact (date_ltb_leb_trans _ _ _ H1 H2).
  - apply andb_true_iff in H1. destruct H1 as [H1 _].
    left. exact (date_leb_ltb_trans _ _ _ H1 H2).
  - apply andb_true_iff in H1. apply andb_true_iff in H2.
    destruct H1 as [H1 L1], H2 as [H2 L2].
    destruct (date_trichotomy d1 d3) as [H|[->|H]].
    + left. exact H.
    + right. rewrite (str_leb_trans _ _ _ L1 L2). unfold date_leb.
      rewrite date_ltb_irrefl. reflexivity.
    + exfalso. pose proof (date_ltb_leb_trans _ _ _ H H1) as H3.
      unfold date_leb in H2. rewrite H3 in H2. discriminate.
Qed.

Lemma key_leb_antisym (a b : date * str) :
  key_leb a b = true -> key_leb b a = true -> a = b.
Proof.
  destruct a as [d1 u1], b as [d2 u2]. unfold key_leb, date_leb; simpl.
  destruct (date_trichotomy d1 d2) as [H|[->|H]].
  - rewrite H, (date_ltb_asym _ _ H). simpl. discriminate.
  - rewrite date_ltb_irrefl. simpl. intros H1 H2. f_equal.
    apply str_leb_antisym; assumption.
  - rewrite H, (date_ltb_asym _ _ H). simpl. discriminate.
Qed.

Lemma sorted_missing_sorted (missing : list FeedEntry) :
  StronglySorted (fun x y => key_leb (report_key x) (report_key y) = true)
    (sorted_missing missing).
Proof.
  apply (sorted_sorted report_leb).
  - intros a b. rewrite !report_leb_key. apply key_leb_total.
  - intros a b c. rewrite !report_leb_key. apply key_leb_trans.
Qed.

Lemma sorted_missing_keys (l1 l2 : list FeedEntry) :
  Permutation l1 l2 ->
  List.map report_key (sorted_missing l1) = List.map report_key (sorted_missing l2).
Proof.
  intros Hp.
  apply (sorted_unique (fun a b => key_leb a b = true) key_leb_antisym).
  - apply StronglySorted_map, sorted_missing_sorted.
  - apply StronglySorted_map, sorted_missing_sorted.
  - apply Permutation_map. unfold sorted_missing.
    rewrite !sorted_perm. exact Hp.
Qed.

(** ** The loop of [main] *)

Lemma audit_loop_spec (c : criteria) (local_urls : gset str) (entries : list FeedEntry)
    (matched missing : list FeedEntry) :
  audit_loop c local_urls entries matched missing
  = (matched ++ List.filter (fun e => fst (classify c e)) entries,
     missing ++ List.filter (fun e => negb (bool_decide (url e ∈ local_urls)))
                  (List.filter (fun e => fst (classify c e)) entries)).
Proof.
  revert matched missing.
  induction entries as [|e rest IH]; intros matched missing; simpl.
  - rewrite !app_nil_r. reflexivity.
  - destruct (fst (classify c e)); simpl; rewrite IH; [|reflexivity].
    destruct (bool_decide (url e ∈ local_urls)); simpl;
      rewrite <- ?app_assoc; reflexivity.
Qed.

(** Every entry the walker hands over has, as its [url], the normal form of
    the alternate link of an entry of the feed. *)
Lemma decode_entry_url (db : pylib) (raw : raw_entry) (e : FeedEntry) :
  decode_entry db raw = Ok (Some e) ->
  exists u, _extract_entry_url (raw_links raw) = Some u /\ normalize_url db u = Ok (url e).
Proof.
  unfold decode_entry.
  destruct (_extract_entry_url (raw_links raw)) as [u|]; [|discriminate].
  destruct (nonempty _ && nonempty _); [|discriminate].
  destruct (fromisoformat_date db _); simpl; [|discriminate].
  destruct (normalize_url db u) as [n|] eqn:Hn; simpl; [|discriminate].
  intros [= <-]. exists u. split; [reflexivity|exact Hn].
Qed.

Lemma decode_page_url (db : pylib) (raws : list raw_entry) (es : list FeedEntry) :
  decode_page db raws = Ok es ->
  forall e, In e es -> exists u, normalize_url db u = Ok (url e).
Proof.
  revert es. induction raws as [|raw rest IH]; intros es; simpl.
  - intros [= <-] e [].
  - destruct (decode_entry db raw) as [oe|] eqn:He; simpl; [|discriminate].
    destruct (decode_page db rest) as [es'|]; simpl; [|discriminate].
    intros [= <-] e Hin. destruct oe as [e0|].
    + destruct Hin as [<-|Hin]; [|exact (IH es' eq_refl e Hin)].
      destruct (decode_entry_url db raw e0 He) as [u [_ Hu]]. exists u. exact Hu.
    + exact (IH es' eq_refl e Hin).
Qed.

(** ** The events of the walker *)

Lemma yielded_app (a b : list event) : yielded (a ++ b) = yielded a ++ yielded b.
Proof. unfold yielded. rewrite map_app, concat_app. reflexivity. Qed.

Lemma fetched_app (a b : list event) : fetched (a ++ b) = fetched a ++ fetched b.
Proof. unfold fetched. rewrite map_app, concat_app. reflexivity. Qed.

Lemma yielded_Yielded (es : list FeedEntry) : yielded (List.map Yielded es) = es.
Proof. induction es as [|e es IH]; [reflexivity|]. unfold yielded in *. simpl. f_equal. exact IH. Qed.

Lemma fetched_Yielded (es : list FeedEntry) : fetched (List.map Yielded es) = [].
Proof. induction es as [|e es IH]; [reflexivity|]. unfold fetched in *. simpl. exact IH. Qed.

(** Every turn is one of these, and the walker follows it: it stops with the
    outcome of the turn, or goes on from [start_index + max_results]. *)
Lemma iter_recent_posts_turn (db : pylib) (src : feed_source) (start_date end_date : date)
    (max_results : Z) (fuel : nat) (start_index : Z) :
  exists ys o,
    turn db src start_date end_date max_results start_index ys o
    /\ iter_recent_posts db src start_date end_date max_results (S fuel) start_index
       = match o with
         | Some out => (Fetched start_index :: List.map Yielded ys, out)
         | None =>
             let r := iter_recent_posts db src start_date end_date max_results fuel
                        (start_index + max_results)%Z in
             (Fetched start_index :: List.map Yielded ys ++ fst r, snd r)
         end.
Proof.
  cbn [iter_recent_posts].
  destruct (src start_index max_results) as [p|e] eqn:Hsrc.
  2:{ exists [], (Some (Raised e)). split; [constructor; exact Hsrc | reflexivity]. }
  destruct (page_of p) as [|raw raws] eqn:Hpage.
  { exists [], (Some Returned). split; [econstructor; eassumption | reflexivity]. }
  rewrite <- Hpage.
  assert (Hne : page_of p <> []) by (rewrite Hpage; discriminate).
  destruct (decode_page db (page_of p)) as [es|e] eqn:Hdec.
  2:{ exists [], (Some (Raised e)). split; [econstructor; eassumption | reflexivity]. }
  destruct (match oldest es with None => true | Some d => date_ltb d start_date end) eqn:Hstop.
  - exists (List.filter (in_window start_date end_date) es), (Some Returned).
    split; [econstructor; eassumption | reflexivity].
  - exists (List.filter (in_window start_date end_date) es), None.
    split; [econstructor; eassumption|].
    destruct (iter_recent_posts db src start_date end_date max_results fuel
                (start_index + max_results)%Z) as [evs out].
    reflexivity.
Qed.

Lemma iter_recent_posts_yielded_url (db : pylib) (src : feed_source)
    (start_date end_date : date) (max_results : Z) (fuel : nat) :
  forall start_index e,
    In e (yielded (fst (iter_recent_posts db src start_date end_date max_results
                          fuel start_index))) ->
    exists u, normalize_url db u = Ok (url e).
Proof.
  induction fuel as [|fuel IH]; intros i e.
  - simpl. intros [].
  - destruct (iter_recent_posts_turn db src start_date end_date max_results fuel i)
      as [ys [o [Hturn ->]]].
    assert (Hys : forall x, In x ys -> exists u, normalize_url db u = Ok (url x)).
    { inversion Hturn; subst; try (intros x []);
        intros x Hx; apply filter_In in Hx; destruct Hx as [Hx _];
        eapply decode_page_url; eassumption. }
    destruct o as [out|]; simpl.
    + change (Fetched i :: List.map Yielded ys) with ([Fetched i] ++ List.map Yielded ys).
      rewrite yielded_app, yielded_Yielded. simpl. apply Hys.
    + change (Fetched i :: List.map Yielded ys ++ ?r)
        with ([Fetched i] ++ List.map Yielded ys ++ r).
      rewrite !yielded_app, yielded_Yielded. simpl.
      intros Hin. apply in_app_or in Hin. destruct Hin as [Hin|Hin]; [apply Hys, Hin|].
      eapply IH. exact Hin.
Qed.

(** ** C6: the gap report *)

Lemma decode_page_In (db : pylib) (raws : list raw_entry) (es : list FeedEntry) :
  decode_page db raws = Ok es ->
  forall e, In e es -> exists raw, In raw raws /\ decode_entry db raw = Ok (Some e).
Proof.
  revert es. induction raws as [|raw rest IH]; intros es; cbn [decode_page].
  - intros [= <-] e [].
  - destruct (decode_entry db raw) as [oe|] eqn:He; cbn [bind]; [|discriminate].
    destruct (decode_page db rest) as [es'|]; cbn [bind]; [|discriminate].
    intros [= <-] e Hin.
    assert (Hrest : In e es' ->
              exists raw0, In raw0 (raw :: rest) /\ decode_entry db raw0 = Ok (Some e)).
    { intros H. destruct (IH es' eq_refl e H) as [raw0 [H1 H2]].
      exists raw0. split; [right; exact H1 | exact H2]. }
    destruct oe as [e0|]; [|exact (Hrest Hin)].
    destruct Hin as [<-|Hin]; [|exact (Hrest Hin)].
    exists raw. split; [left; reflexivity | exact He].
Qed.

(** Every entry the walker yields was yielded in some turn of its loop. *)
Lemma yielded_in_some_turn (db : pylib) (src : feed_source) (start_date end_date : date)
    (max_results : Z) (fuel : nat) :
  forall start_index e,
    In e (yielded (fst (iter_recent_posts db src start_date end_date max_results
                          fuel start_index))) ->
    exists i ys o, turn db src start_date end_date max_results i ys o /\ In e ys.
Proof.
  induction fuel as [|fuel IH]; intros i e.
  - intros [].
  - destruct (iter_recent_posts_turn db src start_date end_date max_results fuel i)
      as [ys [o [Hturn ->]]].
    destruct o as [out|]; cbn [fst].
    + change (Fetched i :: List.map Yielded ys) with ([Fetched i] ++ List.map Yielded ys).
      rewrite yielded_app, yielded_Yielded. intros Hin. exists i, ys, (Some out).
      split; [exact Hturn | exact Hin].
    + change (Fetched i :: List.map Yielded ys ++ ?r)
        with ([Fetched i] ++ List.map Yielded ys ++ r).
      rewrite !yielded_app, yielded_Yielded. cbn [yielded List.map List.concat app].
      intros Hin. apply in_app_or in Hin. destruct Hin as [Hin|Hin].
      * exists i, ys, None. split; [exact Hturn | exact Hin].
      * exact (IH _ _ Hin).
Qed.

(** Every entry the walker yields is the decoding of a raw entry of a page
    the source served, and its URL the normal form of the link of that raw
    entry. *)
Lemma yielded_entry_link (db : pylib) (src : feed_source) (start_date end_date : date)
    (max_results : Z) (fuel : nat) (start_index : Z) (e : FeedEntry) :
  In e (yielded (fst (iter_recent_posts db src start_date end_date max_results
                        fuel start_index))) ->
  exists i p raw link,
    src i max_results = Ok p /\ In raw (page_of p)
    /\ decode_entry db raw = Ok (Some e)
    /\ _extract_entry_url (raw_links raw) = Some link
    /\ normalize_url db link = Ok (url e).
Proof.
  intros Hin.
  destruct (yielded_in_some_turn _ _ _ _ _ _ _ _ Hin) as [i [ys [o [Hturn Hys]]]].
  assert (Hraw : exists p raw,
            src i max_results = Ok p /\ In raw (page_of p)
            /\ decode_entry db raw = Ok (Some e)).
  { inversion Hturn as [? ?|? ? ?|? ? ? ? ?|p es Hsrc Hdec ? ? Heq|p es Hsrc Hdec ? ? Heq];
      subst; try (destruct Hys; fail);
      apply filter_In in Hys; destruct Hys as [Hes _];
      destruct (decode_page_In db _ _ Hdec e Hes) as [raw [Hr He]];
      exists p, raw; auto. }
  destruct Hraw as [p [raw [Hsrc [Hr He]]]].
  destruct (decode_entry_url db raw e He) as [link [Hl Hn]].
  exists i, p, raw, link. auto.
Qed.

(** The claim as the specification words it, with the normal form taken of
    the stored URL of a record, fails: the feed gives the link
    [http://a/%2525], stored as [http://a/%25]; the archive holds the line of
    [http://a/%25], indexed as [http://a/%]. The entry is reported missing,
    and the normal form of its stored URL is in the index. *)
Lemma stored_url_is_not_normalized_again :
  read_local_urls example_lib [percent_file] = Ok {[ lit "http://a/%" ]}
  /\ fst (iter_recent_posts example_lib percent_feed (mkdate 2024 1 1)
            (mkdate 2024 12 31) 150 2 1)
     = [Fetched 1%Z; Yielded percent_entry; Fetched 151%Z]
  /\ main example_lib percent_world (example_args FmtText) 2
     = Exit 0
         [JsonDumps None
            (JObj (summary_members
                     (mkSummary (lit "https://example.com") (lit "2024-01-01")
                        (lit "2024-12-31") (lit "articles") 1 1 1)));
          Text [10];
          text_row percent_entry]
         None
  /\ url percent_entry = lit "http://a/%25"
  /\ normalize_url example_lib (url percent_entry) = Ok (lit "http://a/%")
  /\ lit "http://a/%" ∈ ({[ lit "http://a/%" ]} : gset str).
Proof.
  split; [vm_compute; reflexivity|]. split; [vm_compute; reflexivity|].
  split; [vm_compute; reflexivity|]. split; [reflexivity|].
  split; [vm_compute; reflexivity|]. apply elem_of_singleton. reflexivity.
Qed.

(** C6. When the local directory exists and is read, and the walker comes to
    its end, [main] writes the report of [missing], the matched entries
    whose stored URL is not in the local index; it ends with status 0 when
    the report is written and with the exception of the writing otherwise.
    Matched are the entries of the walker that the classifier accepts. The
    stored URL of an entry is the normal form of the link of the raw entry of
    the feed it was decoded from: the normal form is taken once, of the link,
    and not again of the stored URL. Every rendering lists the missing
    entries sorted by the pair of date and URL, ascending; the keys listed
    are the same for every order in which the entries arrive. *)
Theorem gap_report (db : pylib) (w : world) (a : args) (fuel : nat)
    (dir : list (str * dirent)) (local_urls : gset str) (evs : list event) :
  w_local_dir w = Some dir ->
  read_local_urls db dir = Ok local_urls ->
  iter_recent_posts db (w_feed w) (a_from_date a) (a_to_date a) 150 fuel 1
    = (evs, Returned) ->
  let c := make_criteria (a_labels a) (a_title_keywords a) (a_content_keywords a) in
  let matched := List.filter (fun e => fst (classify c e)) (yielded evs) in
  let missing :=
    List.filter (fun e => negb (bool_decide (url e ∈ local_urls))) matched in
  let out := render (a_format a) (run_summary a local_urls matched missing) missing in
  main db w a fuel
    = match w_write w (a_output a) out with
      | Raise e => Crashed e
      | Ok _ =>
          match a_output a with
          | Some path => Exit 0 [] (Some (path, out))
          | None => Exit 0 out None
          end
      end
  /\ (forall e, In e missing <->
        In e matched /\ url e ∉ local_urls)
  /\ (forall e, In e matched ->
        exists i p raw link,
          w_feed w i 150%Z = Ok p /\ In raw (page_of p)
          /\ decode_entry db raw = Ok (Some e)
          /\ _extract_entry_url (raw_links raw) = Some link
          /\ normalize_url db link = Ok (url e))
  /\ (forall e link,
        In e matched -> normalize_url db link = Ok (url e) ->
        (In e missing <-> forall n, normalize_url db link = Ok n -> n ∉ local_urls))
  /\ (exists head,
        out = head ++ List.map text_row (sorted_missing missing)
        \/ out = head ++ List.map csv_row (sorted_missing missing)
        \/ exists s members,
             out = [JsonDumps (Some 2%Z) (JObj members); Text [10]]
             /\ summary_of_json (JObj members) = Some s
             /\ member (lit "missing") members
                = Some (JArr (List.map json_row (sorted_missing missing))))
  /\ StronglySorted (fun x y => key_leb (report_key x) (report_key y) = true)
       (sorted_missing missing)
  /\ Permutation (sorted_missing missing) missing
  /\ (forall arrived, Permutation arrived missing ->
        List.map report_key (sorted_missing arrived)
        = List.map report_key (sorted_missing missing)).
Proof.
  intros Hdir Hlocal Hwalk c matched missing out.
  assert (Hmissing : forall e, In e missing <-> In e matched /\ url e ∉ local_urls).
  { intros e. subst missing. rewrite filter_In, negb_true_iff, bool_decide_eq_false.
    reflexivity. }
  split.
  { unfold main. rewrite Hdir, Hlocal, Hwalk. fold c.
    rewrite audit_loop_spec. reflexivity. }
  split; [exact Hmissing|].
  split.
  { intros e He. subst matched. apply filter_In in He. destruct He as [He _].
    apply (yielded_entry_link db (w_feed w) (a_from_date a) (a_to_date a) 150 fuel 1 e).
    rewrite Hwalk. exact He. }
  split.
  { intros e link He Hlink. rewrite Hmissing. split.
    - intros [_ Hno] n Hn. rewrite Hlink in Hn. injection Hn as <-. exact Hno.
    - intros H. split; [exact He | exact (H _ Hlink)]. }
  split.
  { subst out. destruct (a_format a); unfold render.
    - eexists [_; _]. left. reflexivity.
    - exists []. right. right. unfold write_json.
      set (s := run_summary a local_urls matched missing).
      exists s. eexists. split; [reflexivity|].
      split; [apply summary_of_members|]. destruct s. reflexivity.
    - eexists [_]. right. left. reflexivity. }
  split; [apply sorted_missing_sorted|].
  split; [apply sorted_perm|].
  intros arrived Hp. apply sorted_missing_keys, Hp.
Qed.

Lemma gap_report_witness :
  main example_lib world_a_b (example_args FmtText) 2
  = Exit 0
      [JsonDumps None
         (JObj (summary_members
                  (mkSummary (lit "https://example.com") (lit "2024-01-01")
                     (lit "2024-12-31") (lit "articles") 1 2 1)));
       Text [10];
       text_row entry_b]
      None.
Proof.
  assert (Hlocal : read_local_urls example_lib [example_file_a] = Ok local_a)
    by (vm_compute; reflexivity).
  assert (Hwalk :
    iter_recent_posts example_lib (w_feed world_a_b)
      (a_from_date (example_args FmtText)) (a_to_date (example_args FmtText)) 150 2 1
    = (events_a_b, Returned)) by (vm_compute; reflexivity).
  destruct (gap_report example_lib world_a_b (example_args FmtText) 2
              [example_file_a] local_a events_a_b eq_refl Hlocal Hwalk) as [Hmain _].
  rewrite Hmain. vm_compute. reflexivity.
Defined.

(** ** C1 and C4: the walk *)

Lemma decode_page_nonempty (db : pylib) (raws : list raw_entry) (e : FeedEntry)
    (es : list FeedEntry) :
  decode_page db raws = Ok (e :: es) -> raws <> [].
Proof. destruct raws; [discriminate|]. intros _. discriminate. Qed.

Section OnePage.
Variables (db : pylib) (src : feed_source) (start_date end_date : date)
  (max_results : Z) (fuel : nat) (start_index : Z).
Variables (p : payload) (es : list FeedEntry).
Hypothesis Hsrc : src start_index max_results = Ok p.
Hypothesis Hdec : decode_page db (page_of p) = Ok es.
Hypothesis Hne : page_of p <> [].

Lemma iter_recent_posts_stop :
  crosses start_date es = true ->
  iter_recent_posts db src start_date end_date max_results (S fuel) start_index
  = (Fetched start_index
       :: List.map Yielded (List.filter (in_window start_date end_date) es),
     Returned).
Proof.
  unfold crosses. intros Hstop. cbn [iter_recent_posts]. rewrite Hsrc.
  destruct (page_of p) as [|raw raws] eqn:Hpage; [contradiction|].
  rewrite Hdec, Hstop. reflexivity.
Qed.

Lemma iter_recent_posts_continue :
  crosses start_date es = false ->
  iter_recent_posts db src start_date end_date max_results (S fuel) start_index
  = (Fetched start_index
       :: List.map Yielded (List.filter (in_window start_date end_date) es)
       ++ fst (iter_recent_posts db src start_date end_date max_results fuel
                 (start_index + max_results)%Z),
     snd (iter_recent_posts db src start_date end_date max_results fuel
            (start_index + max_results)%Z)).
Proof.
  unfold crosses. intros Hstop. cbn [iter_recent_posts]. rewrite Hsrc.
  destruct (page_of p) as [|raw raws] eqn:Hpage; [contradiction|].
  rewrite Hdec, Hstop.
  destruct (iter_recent_posts db src start_date end_date max_results fuel
              (start_index + max_results)%Z).
  reflexivity.
Qed.
End OnePage.

Lemma date_ltb_false_of_leb (a b : date) : date_leb a b = true -> date_ltb b a = false.
Proof. unfold date_leb. apply negb_true_iff. Qed.

Lemma date_leb_false_of_ltb (a b : date) : date_ltb b a = true -> date_leb a b = false.
Proof. unfold date_leb. intros ->. reflexivity. Qed.

Lemma date_ltb_leb (a b : date) : date_ltb a b = true -> date_leb a b = true.
Proof. intros H. unfold date_leb. rewrite (date_ltb_asym _ _ H). reflexivity. Qed.

(** C1. A source serves three pages of two entries each, at the offsets 1,
    1 + pageSize and 1 + 2 * pageSize; the dates of the six entries decrease
    strictly; the window holds the two dates of the second page and no other.
    Then the walker fetches exactly these three offsets, in this order, yields
    exactly the two entries of the second page, in page order, and returns
    after the third page, whose oldest date is before the window. *)
Theorem feed_walker_three_pages (db : pylib) (src : feed_source)
    (start_date end_date : date) (max_results : Z) (fuel : nat)
    (p1 p2 p3 : payload) (e1 e2 e3 e4 e5 e6 : FeedEntry) :
  src 1%Z max_results = Ok p1 -> decode_page db (page_of p1) = Ok [e1; e2] ->
  src (1 + max_results)%Z max_results = Ok p2 ->
  decode_page db (page_of p2) = Ok [e3; e4] ->
  src (1 + max_results + max_results)%Z max_results = Ok p3 ->
  decode_page db (page_of p3) = Ok [e5; e6] ->
  date_ltb (published e2) (published e1) = true ->
  date_ltb (published e3) (published e2) = true ->
  date_ltb (published e4) (published e3) = true ->
  date_ltb (published e5) (published e4) = true ->
  date_ltb (published e6) (published e5) = true ->
  date_leb start_date (published e4) = true ->
  date_leb (published e3) end_date = true ->
  date_ltb end_date (published e2) = true ->
  date_ltb (published e5) start_date = true ->
  (3 <= fuel)%nat ->
  iter_recent_posts db src start_date end_date max_results fuel 1
  = ([Fetched 1%Z; Fetched (1 + max_results)%Z; Yielded e3; Yielded e4;
      Fetched (1 + max_results + max_results)%Z],
     Returned).
Proof.
  intros S1 D1 S2 D2 S3 D3 L21 L32 L43 L54 L65 Wlo Whi Wnew Wold Hfuel.
  destruct fuel as [|[|[|fuel]]]; try lia.
  pose proof (date_ltb_leb_trans _ _ _ L43 Whi) as L4hi.
  pose proof (date_leb_ltb_trans _ _ _ Wlo L43) as Llo3.
  pose proof (date_ltb_trans _ _ _ Llo3 L32) as Llo2.
  pose proof (date_ltb_trans _ _ _ Wnew L21) as Lhi1.
  pose proof (date_ltb_trans _ _ _ L65 Wold) as L6lo.
  rewrite (iter_recent_posts_continue db src start_date end_date max_results _ 1
             p1 [e1; e2] S1 D1 (decode_page_nonempty _ _ _ _ D1)).
  2:{ unfold crosses. simpl. rewrite L21. apply date_ltb_asym, Llo2. }
  rewrite (iter_recent_posts_continue db src start_date end_date max_results _ _
             p2 [e3; e4] S2 D2 (decode_page_nonempty _ _ _ _ D2)).
  2:{ unfold crosses. simpl. rewrite L43. apply date_ltb_false_of_leb, Wlo. }
  rewrite (iter_recent_posts_stop db src start_date end_date max_results _ _
             p3 [e5; e6] S3 D3 (decode_page_nonempty _ _ _ _ D3)).
  2:{ unfold crosses. simpl. rewrite L65. exact L6lo. }
  simpl. unfold in_window.
  rewrite (date_leb_false_of_ltb _ _ Lhi1), (date_leb_false_of_ltb _ _ Wnew), !andb_false_r.
  rewrite Wlo, Whi, (date_ltb_leb _ _ Llo3), (date_ltb_leb _ _ L4hi).
  rewrite (date_leb_false_of_ltb _ _ Wold), (date_leb_false_of_ltb _ _ L6lo).
  reflexivity.
Qed.

Lemma feed_walker_three_pages_witness :
  iter_recent_posts example_lib three_pages (mkdate 2024 3 1) (mkdate 2024 4 30) 2 3 1
  = ([Fetched 1%Z; Fetched 3%Z;
      Yielded (entry_n "p3" "https://example.com/2024/04/p3.html" (mkdate 2024 4 10));
      Yielded (entry_n "p4" "https://example.com/2024/03/p4.html" (mkdate 2024 3 10));
      Fetched 5%Z],
     Returned).
Proof.
  apply (feed_walker_three_pages example_lib three_pages (mkdate 2024 3 1)
           (mkdate 2024 4 30) 2 3 page_1 page_2 page_3
           (entry_n "p1" "https://example.com/2024/06/p1.html" (mkdate 2024 6 10))
           (entry_n "p2" "https://example.com/2024/05/p2.html" (mkdate 2024 5 10))
           (entry_n "p3" "https://example.com/2024/04/p3.html" (mkdate 2024 4 10))
           (entry_n "p4" "https://example.com/2024/03/p4.html" (mkdate 2024 3 10))
           (entry_n "p5" "https://example.com/2024/02/p5.html" (mkdate 2024 2 10))
           (entry_n "p6" "https://example.com/2024/01/p6.html" (mkdate 2024 1 10)));
    vm_compute; reflexivity.
Defined.

Lemma decode_page_length (db : pylib) (raws : list raw_entry) (es : list FeedEntry) :
  decode_page db raws = Ok es -> (length es <= length raws)%nat.
Proof.
  revert es. induction raws as [|raw rest IH]; intros es; simpl.
  - intros [= <-]. reflexivity.
  - destruct (decode_entry db raw) as [oe|]; simpl; [|discriminate].
    destruct (decode_page db rest) as [es'|]; simpl; [|discriminate].
    intros [= <-]. specialize (IH es' eq_refl). destruct oe; simpl; lia.
Qed.

Lemma filter_length_le {A : Type} (f : A -> bool) (l : list A) :
  (length (List.filter f l) <= length l)%nat.
Proof. induction l as [|x l IH]; simpl; [lia|]. destruct (f x); simpl; lia. Qed.

Lemma turn_yields_le (db : pylib) (src : feed_source) (start_date end_date : date)
    (max_results i : Z) (ys : list FeedEntry) (o : option outcome) :
  turn db src start_date end_date max_results i ys o ->
  (length ys <= served src max_results [i])%nat.
Proof.
  intros H. simpl. inversion H; subst; simpl; try lia;
    rewrite H0; rewrite Nat.add_0_r;
    (etransitivity; [apply filter_length_le | eapply decode_page_length; eassumption]).
Qed.

Lemma turn_outcome_finished (db : pylib) (src : feed_source) (start_date end_date : date)
    (max_results i : Z) (ys : list FeedEntry) (out : outcome) :
  turn db src start_date end_date max_results i ys (Some out) -> finished out = true.
Proof. intros H. inversion H; reflexivity. Qed.

Lemma turn_continue_not_end (db : pylib) (src : feed_source) (start_date end_date : date)
    (max_results i : Z) (ys : list FeedEntry) :
  turn db src start_date end_date max_results i ys None ->
  ~ ends_feed src max_results i.
Proof.
  intros H. inversion H; subst. unfold ends_feed.
  match goal with Hs : src i max_results = Ok _ |- _ => rewrite Hs end. assumption.
Qed.

Lemma progression_lower (first step : Z) (n : nat) :
  (0 < step)%Z -> Forall (fun x => (first <= x)%Z) (progression first step n).
Proof.
  intros Hs. revert first. induction n as [|n IH]; intros first; simpl; constructor.
  - lia.
  - eapply List.Forall_impl; [|apply (IH (first + step)%Z)]. simpl. intros; lia.
Qed.

Lemma progression_increasing (first step : Z) (n : nat) :
  (0 < step)%Z -> StronglySorted Z.lt (progression first step n).
Proof.
  intros Hs. revert first. induction n as [|n IH]; intros first; simpl; constructor.
  - apply IH.
  - eapply List.Forall_impl; [|apply (progression_lower (first + step)%Z step n Hs)].
    simpl. intros; lia.
Qed.

Lemma increasing_NoDup (l : list Z) : StronglySorted Z.lt l -> List.NoDup l.
Proof.
  induction 1 as [|x l Hs IH Hall]; constructor; [|exact IH].
  intros Hin. rewrite List.Forall_forall in Hall. specialize (Hall x Hin). lia.
Qed.

Section Walk.
Variables (db : pylib) (src : feed_source) (start_date end_date : date)
  (max_results : Z).

Let walk := iter_recent_posts db src start_date end_date max_results.

Lemma walk_fetched (fuel : nat) :
  forall i,
    fetched (fst (walk fuel i))
    = progression i max_results (length (fetched (fst (walk fuel i))))
    /\ (length (fetched (fst (walk fuel i))) <= fuel)%nat
    /\ (length (yielded (fst (walk fuel i)))
        <= served src max_results (fetched (fst (walk fuel i))))%nat
    /\ (forall j, snd (walk fuel i) = Running j ->
          j = (i + max_results * Z.of_nat fuel)%Z
          /\ length (fetched (fst (walk fuel i))) = fuel).
Proof.
  induction fuel as [|fuel IH]; intros i.
  - simpl. split; [reflexivity|]. split; [lia|]. split; [lia|].
    intros j [= <-]. split; [lia|reflexivity].
  - unfold walk in *.
    destruct (iter_recent_posts_turn db src start_date end_date max_results fuel i)
      as [ys [o [Hturn ->]]].
    pose proof (turn_yields_le _ _ _ _ _ _ _ _ Hturn) as Hle. simpl in Hle.
    destruct o as [out|]; cbn [fst snd].
    + change (Fetched i :: List.map Yielded ys) with ([Fetched i] ++ List.map Yielded ys).
      rewrite fetched_app, yielded_app, fetched_Yielded, yielded_Yielded. simpl.
      split; [reflexivity|]. split; [lia|]. split; [lia|].
      intros j Hj. apply turn_outcome_finished in Hturn. rewrite Hj in Hturn.
      discriminate.
    + destruct (IH (i + max_results)%Z) as [Hf [Hlen [Hy Hr]]].
      change (Fetched i :: List.map Yielded ys ++ ?r)
        with ([Fetched i] ++ List.map Yielded ys ++ r).
      rewrite !fetched_app, !yielded_app, fetched_Yielded, yielded_Yielded. simpl.
      rewrite length_app.
      split; [f_equal; exact Hf|]. split; [lia|]. split; [lia|].
      intros j Hj. destruct (Hr j Hj). split; lia.
Qed.

Lemma walk_finishes (fuel : nat) :
  forall i n,
    (n < fuel)%nat ->
    ends_feed src max_results (i + max_results * Z.of_nat n)%Z ->
    finished (snd (walk fuel i)) = true.
Proof.
  induction fuel as [|fuel IH]; intros i n Hn Hend; [lia|].
  unfold walk in *.
  destruct (iter_recent_posts_turn db src start_date end_date max_results fuel i)
    as [ys [o [Hturn ->]]].
  destruct o as [out|]; cbn [snd].
  - eapply turn_outcome_finished, Hturn.
  - destruct n as [|n].
    + exfalso. apply (turn_continue_not_end _ _ _ _ _ _ _ Hturn).
      replace i with (i + max_results * Z.of_nat 0)%Z by lia. exact Hend.
    + apply (IH (i + max_results)%Z n); [lia|].
      replace (i + max_results + max_results * Z.of_nat n)%Z
        with (i + max_results * Z.of_nat (S n))%Z by lia.
      exact Hend.
Qed.
End Walk.

Lemma endless_feed_running (fuel : nat) :
  forall i,
    snd (iter_recent_posts example_lib endless_feed (mkdate 2024 1 1) (mkdate 2024 12 31)
           150 fuel i)
    = Running (i + 150 * Z.of_nat fuel).
Proof.
  pose (p := {| feed := Some {| entry := Some
                  [raw_n "again" "https://example.com/2024/03/again.html"
                     "2024-03-10T00:00:00Z"] |} |}).
  pose (es := [entry_n "again" "https://example.com/2024/03/again.html"
                 (mkdate 2024 3 10)]).
  assert (Hdec : decode_page example_lib (page_of p) = Ok es)
    by (vm_compute; reflexivity).
  assert (Hne : page_of p <> []) by discriminate.
  assert (Hgo : crosses (mkdate 2024 1 1) es = false) by (vm_compute; reflexivity).
  induction fuel as [|fuel IH]; intros i.
  - simpl. f_equal. lia.
  - rewrite (iter_recent_posts_continue example_lib endless_feed (mkdate 2024 1 1)
               (mkdate 2024 12 31) 150 fuel i p es eq_refl Hdec Hne Hgo).
    cbn [snd]. rewrite IH. f_equal. lia.
Qed.

(** C4 does not hold as stated: on a source that serves at every offset a
    page with an entry inside the window the walk never ends (after any number
    of turns the generator is still in its loop, about to fetch the next
    offset); and with a page size of 0 the offset does not grow (the same
    offset is fetched again and again). *)
Lemma feed_walker_can_run_without_end :
  (forall fuel : nat,
     snd (iter_recent_posts example_lib endless_feed (mkdate 2024 1 1)
            (mkdate 2024 12 31) 150 fuel 1)
     = Running (1 + 150 * Z.of_nat fuel))
  /\ fetched (fst (iter_recent_posts example_lib three_pages (mkdate 2024 1 1)
                     (mkdate 2024 12 31) 0 3 1))
     = [1; 1; 1]%Z.
Proof.
  split.
  - intros fuel. apply endless_feed_running.
  - vm_compute. reflexivity.
Qed.

(** C4, amended. For a positive page size, on any source: every turn of the
    loop either ends the walk (the fetch or the decoding fails, the page is
    empty or has no usable entry, or its oldest date is before the start of
    the window) or is followed by a turn at the offset plus the page size; the
    offsets fetched are 1, 1 + pageSize, 1 + 2 * pageSize, ..., strictly
    increasing and without repetition; the entries yielded are not more than
    the entries served at the fetched offsets; the walk is still running after
    [fuel] turns only if all of them went on; and it ends within [n + 1] turns
    if the source ends (an empty page or a failing fetch) at the [n]-th offset
    after the first. On a source that never ends the feed the walk need not
    end. *)
Theorem feed_walker_progress (db : pylib) (src : feed_source)
    (start_date end_date : date) (max_results : Z) (fuel : nat) :
  (0 < max_results)%Z ->
  let walk := iter_recent_posts db src start_date end_date max_results in
  let r := walk fuel 1%Z in
  (forall turns i, exists ys o,
      turn db src start_date end_date max_results i ys o
      /\ walk (S turns) i
         = match o with
           | Some out => (Fetched i :: List.map Yielded ys, out)
           | None =>
               (Fetched i :: List.map Yielded ys
                  ++ fst (walk turns (i + max_results)%Z),
                snd (walk turns (i + max_results)%Z))
           end
      /\ (i < i + max_results)%Z
      /\ match o with Some out => finished out = true | None => True end)
  /\ fetched (fst r) = progression 1 max_results (length (fetched (fst r)))
  /\ StronglySorted Z.lt (fetched (fst r))
  /\ List.NoDup (fetched (fst r))
  /\ (length (yielded (fst r)) <= served src max_results (fetched (fst r)))%nat
  /\ (forall j, snd r = Running j ->
        j = (1 + max_results * Z.of_nat fuel)%Z /\ length (fetched (fst r)) = fuel)
  /\ (forall n, (n < fuel)%nat ->
        ends_feed src max_results (1 + max_results * Z.of_nat n)%Z ->
        finished (snd r) = true).
Proof.
  intros Hpos walk r.
  destruct (walk_fetched db src start_date end_date max_results fuel 1)
    as [Hf [_ [Hy Hr]]].
  assert (Hsorted : StronglySorted Z.lt (fetched (fst r))).
  { subst r walk. rewrite Hf. apply progression_increasing, Hpos. }
  split.
  { intros turns i.
    destruct (iter_recent_posts_turn db src start_date end_date max_results turns i)
      as [ys [o [Hturn Heq]]].
    exists ys, o. split; [exact Hturn|]. split; [exact Heq|]. split; [lia|].
    destruct o as [out|]; [|exact I].
    eapply turn_outcome_finished, Hturn. }
  split; [exact Hf|].
  split; [exact Hsorted|].
  split; [apply increasing_NoDup, Hsorted|].
  split; [exact Hy|].
  split; [exact Hr|].
  intros n Hn Hend.
  exact (walk_finishes db src start_date end_date max_results fuel 1 n Hn Hend).
Qed.

Lemma feed_walker_progress_witness :
  fetched (fst (iter_recent_posts example_lib three_pages (mkdate 2024 1 1)
                  (mkdate 2024 12 31) 2 9 1))
  = [1; 3; 5; 7]%Z
  /\ List.NoDup [1; 3; 5; 7]%Z
  /\ finished (snd (iter_recent_posts example_lib three_pages (mkdate 2024 1 1)
                      (mkdate 2024 12 31) 2 9 1)) = true.
Proof.
  destruct (feed_walker_progress example_lib three_pages (mkdate 2024 1 1)
              (mkdate 2024 12 31) 2 9 eq_refl)
    as [_ [Hf [_ [Hnd [_ [_ Hend]]]]]].
  assert (Hfetched :
    fetched (fst (iter_recent_posts example_lib three_pages (mkdate 2024 1 1)
                    (mkdate 2024 12 31) 2 9 1)) = [1; 3; 5; 7]%Z)
    by (vm_compute; reflexivity).
  split; [exact Hfetched|].
  split; [rewrite <- Hfetched; exact Hnd|].
  apply (Hend 3%nat); [lia | vm_compute; reflexivity].
Defined.

(** ** C10: the local index *)

Lemma startswith_spec (p s : str) :
  startswith p s = true <-> exists rest, s = p ++ rest.
Proof.
  revert s. induction p as [|a p IH]; intros s; simpl.
  - split; [intros _; exists s; reflexivity | reflexivity].
  - destruct s as [|b s].
    + split; [discriminate | intros [rest H]; discriminate].
    + rewrite andb_true_iff, N.eqb_eq, IH. split.
      * intros [-> [rest ->]]. exists rest. reflexivity.
      * intros [rest [= -> ->]]. split; [reflexivity | exists rest; reflexivity].
Qed.

Lemma skipn_prefix (p rest : str) : skipn (length p) (p ++ rest) = rest.
Proof. induction p as [|a p IH]; simpl; [reflexivity | exact IH]. Qed.

Opaque link_prefix.

Lemma first_link_line_spec (lines : list str) (g : str) :
  first_link_line lines = Some g <->
  exists before after,
    lines = before ++ (link_prefix ++ g) :: after
    /\ Forall (fun l => startswith link_prefix l = false) before.
Proof.
  induction lines as [|l rest IH]; cbn [first_link_line].
  - split; [discriminate|]. intros [before [after [H _]]]. destruct before; discriminate.
  - destruct (startswith link_prefix l) eqn:Hl.
    + split.
      * intros Heq. injection Heq as Heq. subst g.
        apply startswith_spec in Hl. destruct Hl as [r ->].
        exists [], rest. rewrite skipn_prefix. split; [reflexivity | constructor].
      * intros [before [after [H Hall]]]. destruct before as [|b before].
        -- cbn [app] in H. injection H as H _. subst l.
           rewrite skipn_prefix. reflexivity.
        -- cbn [app] in H. injection H as H _. subst b.
           inversion Hall; subst. congruence.
    + rewrite IH. split.
      * intros [before [after [-> Hall]]]. exists (l :: before), after.
        split; [reflexivity | constructor; assumption].
      * intros [before [after [H Hall]]]. destruct before as [|b before].
        -- cbn [app] in H. injection H as H _. subst l.
           assert (startswith link_prefix (link_prefix ++ g) = true)
             by (apply startswith_spec; exists g; reflexivity).
           congruence.
        -- cbn [app] in H. injection H as H1 H2. subst b rest.
           inversion Hall; subst.
           exists before, after. split; [reflexivity | assumption].
Qed.

Transparent link_prefix.

Lemma is_md_spec (name : str) : is_md name = true <-> exists stem, name = stem ++ lit ".md".
Proof.
  unfold is_md. rewrite startswith_spec. split.
  - intros [r H]. exists (rev r).
    rewrite <- (rev_involutive name), H, rev_app_distr, rev_involutive. reflexivity.
  - intros [stem ->]. exists (rev stem). rewrite rev_app_distr. reflexivity.
Qed.

(** What a file gives to the index: the normal form of the stripped rest of
    its first link line, if that rest is not empty. *)
Lemma read_local_loop_spec (db : pylib) (paths : list (str * dirent)) :
  forall (acc urls : gset str),
    read_local_loop db paths acc = Ok urls ->
    forall u, u ∈ urls <->
      u ∈ acc
      \/ exists name bytes g,
           In (name, RegularFile bytes) paths
           /\ search_link (universal_newlines (Utf8.decode bytes)) = Some g
           /\ strip g <> []
           /\ normalize_url db (strip g) = Ok u.
Proof.
  induction paths as [|[name f] rest IH]; intros acc urls; simpl.
  - intros [= <-] u. split; [auto|]. intros [H|[? [? [? [[] _]]]]]. exact H.
  - destruct f as [bytes|]; simpl; [|discriminate].
    destruct (search_link (universal_newlines (Utf8.decode bytes))) as [g|] eqn:Hg.
    + destruct (strip g) as [|c t] eqn:Hs; simpl.
      * intros H u. rewrite (IH _ _ H u). split.
        -- intros [Hu|[n [b [g' [Hin Hrest]]]]]; [left; exact Hu|].
           right. exists n, b, g'. split; [right; exact Hin | exact Hrest].
        -- intros [Hu|[n [b [g' [[Heq|Hin] [H1 [H2 H3]]]]]]]; [left; exact Hu| |].
           ++ injection Heq as <- <-. rewrite Hg in H1. injection H1 as <-.
              rewrite Hs in H2. contradiction.
           ++ right. exists n, b, g'. auto.
      * destruct (normalize_url db (c :: t)) as [nu|] eqn:Hn; simpl; [|discriminate].
        intros H u. rewrite (IH _ _ H u). split.
        -- intros [Hu|[n [b [g' [Hin Hrest]]]]].
           ++ apply elem_of_union in Hu. destruct Hu as [Hu|Hu]; [|left; exact Hu].
              apply elem_of_singleton in Hu. subst u.
              right. exists name, bytes, g. rewrite Hs.
              split; [left; reflexivity|]. split; [exact Hg|].
              split; [discriminate | exact Hn].
           ++ right. exists n, b, g'. split; [right; exact Hin | exact Hrest].
        -- intros [Hu|[n [b [g' [[Heq|Hin] [H1 [H2 H3]]]]]]].
           ++ left. apply elem_of_union. right. exact Hu.
           ++ injection Heq as <- <-. rewrite Hg in H1. injection H1 as <-.
              rewrite Hs, Hn in H3. injection H3 as <-.
              left. apply elem_of_union. left. apply elem_of_singleton. reflexivity.
           ++ right. exists n, b, g'. auto.
    + intros H u. rewrite (IH _ _ H u). split.
      * intros [Hu|[n [b [g' [Hin Hrest]]]]]; [left; exact Hu|].
        right. exists n, b, g'. split; [right; exact Hin | exact Hrest].
      * intros [Hu|[n [b [g' [[Heq|Hin] [H1 Hrest]]]]]]; [left; exact Hu| |].
        -- injection Heq as <- <-. congruence.
        -- right. exists n, b, g'. auto.
Qed.

(** C10. When [read_local_urls] returns, a URL is in the index exactly when
    it is the normal form, by [normalize_url], of the stripped text that
    follows the literal on the first link line of a file of the directory
    whose name ends in [.md], and that stripped text is not empty. The first
    link line of a text is its first line that starts with the literal; a
    file without one, or with nothing but white space after the literal on
    it, gives nothing. *)
Theorem read_local_urls_index (db : pylib) (local_dir : list (str * dirent))
    (urls : gset str) :
  read_local_urls db local_dir = Ok urls ->
  (forall u, u ∈ urls <->
     exists name bytes g,
       In (name, RegularFile bytes) local_dir
       /\ (exists stem, name = stem ++ lit ".md")
       /\ search_link (universal_newlines (Utf8.decode bytes)) = Some g
       /\ strip g <> []
       /\ normalize_url db (strip g) = Ok u)
  /\ (forall text g, search_link text = Some g <->
        exists before after,
          split_on 10 text = before ++ (link_prefix ++ g) :: after
          /\ Forall (fun l => startswith link_prefix l = false) before).
Proof.
  intros H. split; [|intros; apply first_link_line_spec].
  intros u. unfold read_local_urls in H.
  rewrite (read_local_loop_spec db _ _ _ H u). split.
  - intros [Hu|[n [b [g [Hin Hrest]]]]]; [set_solver|].
    apply sorted_In, filter_In in Hin. destruct Hin as [Hin Hmd]. simpl in Hmd.
    exists n, b, g. split; [exact Hin|]. split; [apply is_md_spec, Hmd | exact Hrest].
  - intros [n [b [g [Hin [Hmd Hrest]]]]]. right. exists n, b, g.
    split; [|exact Hrest]. apply sorted_In, filter_In. split; [exact Hin|].
    simpl. apply is_md_spec, Hmd.
Qed.

Lemma read_local_urls_index_witness :
  read_local_urls example_lib example_dir = Ok local_a
  /\ exists name bytes g,
       In (name, RegularFile bytes) example_dir
       /\ (exists stem, name = stem ++ lit ".md")
       /\ search_link (universal_newlines (Utf8.decode bytes)) = Some g
       /\ strip g <> []
       /\ normalize_url example_lib (strip g)
          = Ok (lit "https://example.com/2024/01/a.html").
Proof.
  assert (H : read_local_urls example_lib example_dir = Ok local_a)
    by (vm_compute; reflexivity).
  split; [exact H|].
  destruct (read_local_urls_index example_lib example_dir local_a H) as [Hm _].
  apply Hm. apply elem_of_singleton. reflexivity.
Defined.

(** ** C7: the extractor *)

Lemma child_lines_paragraph (rec : str) (attrs : gmap str str) (children : list node) :
  child_lines rec (Tag (lit "p") attrs children)
  = let text := get_text (Tag (lit "p") attrs children) in
    if nonempty text then [text; []] else [].
Proof. reflexivity. Qed.

Lemma child_lines_list (rec kind : str) (attrs : gmap str str) (children : list node) :
  kind = lit "ul" \/ kind = lit "ol" ->
  child_lines rec (Tag kind attrs children) = item_lines children ++ [[]].
Proof. intros [-> | ->]; reflexivity. Qed.

Lemma child_lines_heading (rec : str) (n : N) (attrs : gmap str str)
    (children : list node) :
  1 <= n <= 6 ->
  child_lines rec (Tag (heading_name n) attrs children)
  = let text := get_text (Tag (heading_name n) attrs children) in
    if nonempty text then [hashes (n + 1) ++ [32] ++ text; []] else [].
Proof.
  intros Hn.
  assert (H : n = 1 \/ n = 2 \/ n = 3 \/ n = 4 \/ n = 5 \/ n = 6) by lia.
  destruct H as [->|[->|[->|[->|[->| ->]]]]]; reflexivity.
Qed.

Lemma extract_lines_children (name : str) (attrs : gmap str str) (children : list node) :
  extract_lines (Tag name attrs children)
  = List.concat
      (List.map (fun c => child_lines (extract_text_with_structure c) c) children)
  /\ extract_text_with_structure (Tag name attrs children)
     = join [10] (extract_lines (Tag name attrs children)).
Proof. split; reflexivity. Qed.

Lemma nonempty_true (s : str) : s <> [] -> nonempty s = true.
Proof. destruct s; [contradiction | reflexivity]. Qed.

(** C7 does not hold of a heading without text: it yields no block at all,
    not a line of hashes and a blank separator. *)
Lemma empty_heading_yields_nothing :
  extract_lines (elem "div" [elem "h2" []]) = []
  /\ extract_lines (elem "div" [elem "h2" [text "  "]]) = []
  /\ extract_text_with_structure (elem "div" [elem "h2" []]) = [].
Proof. vm_compute. repeat split; reflexivity. Qed.

(** C7, amended. In an element whose only children are two paragraphs with
    the non-empty texts [ta] and [tb], the lines are [ta], blank, [tb], blank,
    and the result is [ta], two line breaks, [tb], a line break (so A, B give
    the lines A, blank, B, blank). A [ul] or [ol] child gives one line, a dash
    and the text, for each direct item with a non-empty text, then one blank
    line (the items x, empty, y give the lines of x and y and a blank). A
    heading child of level [n] with a non-empty text gives [n + 1] hashes, a
    space and the text, then a blank line; a heading without text gives
    nothing. *)
Theorem extractor_block_policy
    (pname : str) (pattrs : gmap str str)
    (a1 a2 : gmap str str) (c1 c2 : list node)
    (kind : str) (al : gmap str str) (items : list node)
    (n : N) (ah : gmap str str) (ch : list node) :
  get_text (Tag (lit "p") a1 c1) <> [] ->
  get_text (Tag (lit "p") a2 c2) <> [] ->
  kind = lit "ul" \/ kind = lit "ol" ->
  1 <= n <= 6 ->
  let ta := get_text (Tag (lit "p") a1 c1) in
  let tb := get_text (Tag (lit "p") a2 c2) in
  let th := get_text (Tag (heading_name n) ah ch) in
  extract_lines (Tag pname pattrs [Tag (lit "p") a1 c1; Tag (lit "p") a2 c2])
    = [ta; []; tb; []]
  /\ extract_text_with_structure
       (Tag pname pattrs [Tag (lit "p") a1 c1; Tag (lit "p") a2 c2])
     = ta ++ [10; 10] ++ tb ++ [10]
  /\ extract_lines (elem "div" [elem "p" [text "A"]; elem "p" [text "B"]])
     = [lit "A"; []; lit "B"; []]
  /\ extract_text_with_structure (elem "div" [elem "p" [text "A"]; elem "p" [text "B"]])
     = lit "A" ++ [10; 10] ++ lit "B" ++ [10]
  /\ extract_lines (Tag pname pattrs [Tag kind al items]) = item_lines items ++ [[]]
  /\ extract_lines
       (elem "div" [elem "ul" [elem "li" [text "x"]; elem "li" []; elem "li" [text "y"]]])
     = [lit "- x"; lit "- y"; []]
  /\ extract_lines (Tag pname pattrs [Tag (heading_name n) ah ch])
     = (if nonempty th then [hashes (n + 1) ++ [32] ++ th; []] else []).
Proof.
  intros Ha Hb Hkind Hn ta tb th.
  assert (Hlines :
    extract_lines (Tag pname pattrs [Tag (lit "p") a1 c1; Tag (lit "p") a2 c2])
    = [ta; []; tb; []]).
  { destruct (extract_lines_children pname pattrs
                [Tag (lit "p") a1 c1; Tag (lit "p") a2 c2]) as [-> _].
    cbn [List.map List.concat].
    rewrite !child_lines_paragraph. cbv zeta. fold ta tb.
    rewrite (nonempty_true ta Ha), (nonempty_true tb Hb). reflexivity. }
  split; [exact Hlines|].
  split.
  { destruct (extract_lines_children pname pattrs
                [Tag (lit "p") a1 c1; Tag (lit "p") a2 c2]) as [_ ->].
    rewrite Hlines. cbn [join app]. reflexivity. }
  split; [vm_compute; reflexivity|].
  split; [vm_compute; reflexivity|].
  split.
  { destruct (extract_lines_children pname pattrs [Tag kind al items]) as [-> _].
    cbn [List.map List.concat].
    rewrite (child_lines_list _ kind al items Hkind), app_nil_r. reflexivity. }
  split; [vm_compute; reflexivity|].
  destruct (extract_lines_children pname pattrs [Tag (heading_name n) ah ch]) as [-> _].
  cbn [List.map List.concat].
  rewrite (child_lines_heading _ n ah ch Hn), app_nil_r. reflexivity.
Qed.

Lemma extractor_block_policy_witness :
  extract_lines (elem "article" [elem "p" [text " A "]; elem "p" [elem "b" [text "B"]]])
    = [lit "A"; []; lit "B"; []]
  /\ extract_lines (elem "article" [elem "ol" [elem "li" [text "x"]; text "stray";
                                                elem "li" [text "y"]]])
     = [lit "- x"; lit "- y"; []]
  /\ extract_lines (elem "article" [elem "h3" [text "Title"]]) = [lit "#### Title"; []].
Proof.
  destruct (extractor_block_policy (lit "article") ∅ ∅ ∅ [text " A "]
              [elem "b" [text "B"]] (lit "ol") ∅
              [elem "li" [text "x"]; text "stray"; elem "li" [text "y"]]
              3 ∅ [text "Title"])
    as [H1 [_ [_ [_ [H2 [_ H3]]]]]];
    [vm_compute; discriminate | vm_compute; discriminate | right; reflexivity
    | lia | ].
  split; [etransitivity; [exact H1 | vm_compute; reflexivity]|].
  split; [etransitivity; [exact H2 | vm_compute; reflexivity]|].
  etransitivity; [exact H3 | vm_compute; reflexivity].
Defined.

(** ** C8: failures in the batch loop *)



Lemma datetime_raises (y m d : Z) (e : exn) : datetime y m d = Raise e -> e = ValueError.
Proof. unfold datetime. destruct (_ && _); [discriminate|]. intros [= <-]. reflexivity. Qed.






(** ** UTF-8: decoding what was encoded *)

Ltac flag b :=
  let H := fresh "F" in
  destruct b eqn:H;
  [ try (apply N.ltb_lt in H); try (apply N.leb_le in H); try (apply N.eqb_eq in H)
  | try (apply N.ltb_ge in H); try (apply N.leb_gt in H); try (apply N.eqb_neq in H) ].

Lemma decode_ascii (b : N) (rest : list N) :
  b < 128 -> Utf8.decode (b :: rest) = b :: Utf8.decode rest.
Proof. intros H. cbn [Utf8.decode]. apply N.ltb_lt in H. rewrite H. reflexivity. Qed.

Lemma decode_two (b1 b2 : N) (rest : list N) :
  194 <= b1 < 224 -> 128 <= b2 < 192 ->
  Utf8.decode (b1 :: b2 :: rest) = ((b1 - 192) * 64 + (b2 - 128)) :: Utf8.decode rest.
Proof.
  intros H1 H2. cbn [Utf8.decode]. unfold Utf8.is_cont.
  flag (b1 <? 128); [lia|]. flag (b1 <? 194); [lia|]. flag (b1 <? 224); [|lia].
  flag (128 <=? b2); [|lia]. flag (b2 <? 192); [|lia]. reflexivity.
Qed.

Lemma decode_three (b1 b2 b3 : N) (rest : list N) :
  224 <= b1 < 240 -> 128 <= b2 < 192 -> 128 <= b3 < 192 ->
  (b1 = 224 -> 160 <= b2) -> (b1 = 237 -> b2 < 160) ->
  Utf8.decode (b1 :: b2 :: b3 :: rest)
  = ((b1 - 224) * 4096 + (b2 - 128) * 64 + (b3 - 128)) :: Utf8.decode rest.
Proof.
  intros H1 H2 H3 Hlow Hsur. cbn [Utf8.decode]. unfold Utf8.is_cont.
  flag (b1 <? 128); [lia|]. flag (b1 <? 194); [lia|]. flag (b1 <? 224); [lia|].
  flag (b1 <? 240); [|lia].
  flag (128 <=? b2); [|lia]. flag (b2 <? 192); [|lia].
  flag (128 <=? b3); [|lia]. flag (b3 <? 192); [|lia].
  cbn [negb andb orb].
  flag (b2 <? 160); flag (b1 =? 224); flag (b1 =? 237); try lia; reflexivity.
Qed.

Lemma decode_four (b1 b2 b3 b4 : N) (rest : list N) :
  240 <= b1 < 245 -> 128 <= b2 < 192 -> 128 <= b3 < 192 -> 128 <= b4 < 192 ->
  (b1 = 240 -> 144 <= b2) -> (b1 = 244 -> b2 < 144) ->
  Utf8.decode (b1 :: b2 :: b3 :: b4 :: rest)
  = ((b1 - 240) * 262144 + (b2 - 128) * 4096 + (b3 - 128) * 64 + (b4 - 128))
      :: Utf8.decode rest.
Proof.
  intros H1 H2 H3 H4 Hlow Hhigh. cbn [Utf8.decode]. unfold Utf8.is_cont.
  flag (b1 <? 128); [lia|]. flag (b1 <? 194); [lia|]. flag (b1 <? 224); [lia|].
  flag (b1 <? 240); [lia|]. flag (b1 <? 245); [|lia].
  flag (128 <=? b2); [|lia]. flag (b2 <? 192); [|lia].
  flag (128 <=? b3); [|lia]. flag (b3 <? 192); [|lia].
  flag (128 <=? b4); [|lia]. flag (b4 <? 192); [|lia].
  cbn [negb andb orb].
  flag (b2 <? 144); flag (b1 =? 240); flag (b1 =? 244); try lia; reflexivity.
Qed.

(** The quotient and the remainder of a division by 64, as numbers that
    [lia] can reason about. *)
Lemma div_mod_64 (a : N) : exists q r, a / 64 = q /\ a mod 64 = r /\ a = 64 * q + r /\ r < 64.
Proof.
  exists (a / 64), (a mod 64). split; [reflexivity|]. split; [reflexivity|].
  split; [apply N.div_mod; discriminate | apply N.mod_lt; discriminate].
Qed.

Lemma decode_encode_char (c : N) (bs rest : list N) :
  Utf8.encode_char c = Some bs -> Utf8.decode (bs ++ rest) = c :: Utf8.decode rest.
Proof.
  unfold Utf8.encode_char, Utf8.is_surrogate.
  replace (c / 4096) with (c / 64 / 64) by (rewrite N.Div0.div_div; reflexivity).
  replace (c / 262144) with (c / 64 / 64 / 64) by (rewrite !N.Div0.div_div; reflexivity).
  destruct (div_mod_64 c) as [q1 [r1 [-> [-> [Hc Hr1]]]]].
  destruct (div_mod_64 q1) as [q2 [r2 [-> [-> [Hq1 Hr2]]]]].
  destruct (div_mod_64 q2) as [q3 [r3 [-> [-> [Hq2 Hr3]]]]].
  flag (c <? 128).
  { intros [= <-]. apply decode_ascii, F. }
  flag (c <? 2048).
  { intros [= <-]. cbn [app]. rewrite decode_two by lia. f_equal. lia. }
  flag (c <? 65536).
  { flag (55296 <=? c); flag (c <=? 57343); cbn [andb]; try discriminate;
      intros [= <-]; cbn [app]; (rewrite decode_three by lia); f_equal; lia. }
  flag (c <? 1114112); [|discriminate].
  intros [= <-]. cbn [app]. rewrite decode_four by lia. f_equal. lia.
Qed.

Lemma decode_encode (s : str) (bs : list N) :
  Utf8.encode s = Ok bs -> Utf8.decode bs = s.
Proof.
  revert bs. induction s as [|c s IH]; intros bs; simpl.
  - intros [= <-]. reflexivity.
  - destruct (Utf8.encode_char c) as [cb|] eqn:Hc; [|discriminate].
    destruct (Utf8.encode s) as [rest|]; simpl; [|discriminate].
    intros [= <-]. rewrite (decode_encode_char c cb rest Hc). f_equal. apply IH.
    reflexivity.
Qed.
(** ** Quoting and unquoting *)

Lemma hexval_hexdigit (n : N) : n < 16 -> hexval (hexdigit n) = Some n.
Proof.
  intros H. unfold hexdigit, hexval, is_digit_ascii.
  flag (n <? 10).
  - flag (48 <=? 48 + n); [|lia]. flag (48 + n <=? 57); [|lia].
    cbn [andb]. f_equal. lia.
  - flag (48 <=? 55 + n); [|lia]. flag (55 + n <=? 57); [lia|].
    flag (65 <=? 55 + n); [|lia]. flag (55 + n <=? 70); [|lia].
    cbn [andb]. f_equal. lia.
Qed.

Lemma hexdigit_ascii (n : N) : n < 16 -> hexdigit n < 128 /\ hexdigit n <> 37.
Proof. intros H. unfold hexdigit. destruct (n <? 10); lia. Qed.

Lemma encode_char_bytes (c : N) (bs : list N) :
  Utf8.encode_char c = Some bs ->
  Forall (fun b => b < 256) bs /\ (In 37 bs -> c = 37).
Proof.
  unfold Utf8.encode_char, Utf8.is_surrogate.
  replace (c / 4096) with (c / 64 / 64) by (rewrite N.Div0.div_div; reflexivity).
  replace (c / 262144) with (c / 64 / 64 / 64) by (rewrite !N.Div0.div_div; reflexivity).
  destruct (div_mod_64 c) as [q1 [r1 [-> [-> [Hc Hr1]]]]].
  destruct (div_mod_64 q1) as [q2 [r2 [-> [-> [Hq1 Hr2]]]]].
  destruct (div_mod_64 q2) as [q3 [r3 [-> [-> [Hq2 Hr3]]]]].
  flag (c <? 128).
  { intros [= <-]. split; [repeat constructor; lia|]. intros [H|[]]. lia. }
  flag (c <? 2048).
  { intros [= <-]. split; [repeat constructor; lia|]. simpl. intros [H|[H|[]]]; lia. }
  flag (c <? 65536).
  { destruct ((55296 <=? c) && (c <=? 57343)); [discriminate|].
    intros [= <-]. split; [repeat constructor; lia|].
    simpl. intros [H|[H|[H|[]]]]; lia. }
  flag (c <? 1114112); [|discriminate].
  intros [= <-]. split; [repeat constructor; lia|].
  simpl. intros [H|[H|[H|[H|[]]]]]; lia.
Qed.

Lemma encode_bytes (s : str) (bs : list N) :
  Utf8.encode s = Ok bs ->
  Forall (fun b => b < 256) bs /\ (In 37 bs -> In 37 s).
Proof.
  revert bs. induction s as [|c s IH]; intros bs; simpl.
  - intros [= <-]. split; [constructor | intros []].
  - destruct (Utf8.encode_char c) as [cb|] eqn:Hc; [|discriminate].
    destruct (Utf8.encode s) as [rest|]; simpl; [|discriminate].
    intros [= <-]. destruct (encode_char_bytes c cb Hc) as [Hb Hp].
    destruct (IH rest eq_refl) as [Hb' Hp'].
    split; [apply Forall_app; split; assumption|].
    intros Hin. apply in_app_or in Hin. destruct Hin as [Hin|Hin]; [left|right]; auto.
Qed.

Lemma unquote_to_bytes_quoted (safe : str) (bs : list N) :
  Forall (fun b => b < 256) bs ->
  (forall b, In b bs -> b = 37 -> is_safe safe b = false) ->
  unquote_to_bytes (List.concat (List.map (quote_byte safe) bs)) = bs.
Proof.
  induction 1 as [|b bs Hb Hbs IH]; intros Hpct; [reflexivity|].
  cbn [List.map List.concat]. unfold quote_byte at 1.
  assert (IH' : unquote_to_bytes (List.concat (List.map (quote_byte safe) bs)) = bs)
    by (apply IH; intros b' Hb'; apply Hpct; right; exact Hb').
  destruct (is_safe safe b) eqn:Hsafe.
  - assert (Hne : b <> 37).
    { intros ->. rewrite (Hpct 37 (or_introl eq_refl) eq_refl) in Hsafe. discriminate. }
    cbn [app unquote_to_bytes]. apply N.eqb_neq in Hne. rewrite Hne, IH'. reflexivity.
  - assert (Hq : b / 16 < 16) by (apply N.Div0.div_lt_upper_bound; lia).
    assert (Hr : b mod 16 < 16) by (apply N.mod_lt; discriminate).
    cbn [app unquote_to_bytes]. rewrite N.eqb_refl.
    rewrite (hexval_hexdigit _ Hq), (hexval_hexdigit _ Hr), IH'.
    f_equal. symmetry. apply N.div_mod. discriminate.
Qed.

Lemma quoted_ascii (safe : str) (bs : list N) :
  Forall (fun b => b < 256) bs ->
  forallb is_ascii (List.concat (List.map (quote_byte safe) bs)) = true.
Proof.
  induction 1 as [|b bs Hb Hbs IH]; [reflexivity|].
  cbn [List.map List.concat]. rewrite forallb_app, IH, andb_true_r.
  unfold quote_byte. destruct (is_safe safe b) eqn:Hsafe.
  - unfold is_safe in Hsafe. apply andb_true_iff in Hsafe. destruct Hsafe as [Hlt _].
    simpl. unfold is_ascii. rewrite Hlt. reflexivity.
  - assert (Hq : b / 16 < 16) by (apply N.Div0.div_lt_upper_bound; lia).
    assert (Hr : b mod 16 < 16) by (apply N.mod_lt; discriminate).
    destruct (hexdigit_ascii _ Hq) as [H1 _], (hexdigit_ascii _ Hr) as [H2 _].
    simpl. unfold is_ascii. apply N.ltb_lt in H1, H2. rewrite H1, H2. reflexivity.
Qed.

Lemma unquote_parts_ascii (s : str) :
  forall run, forallb is_ascii s = true ->
    unquote_parts run s = Utf8.decode (unquote_to_bytes (rev run ++ s)).
Proof.
  induction s as [|c s IH]; intros run; simpl.
  - intros _. rewrite app_nil_r. reflexivity.
  - destruct (is_ascii c); simpl; [|discriminate].
    intros H. rewrite (IH (c :: run) H). simpl. rewrite <- app_assoc. reflexivity.
Qed.

Lemma unquote_to_bytes_plain (s : str) :
  has_char 37 s = false -> unquote_to_bytes s = s.
Proof.
  unfold has_char. induction s as [|c s IH]; [reflexivity|].
  cbn [existsb unquote_to_bytes]. rewrite orb_false_iff. intros [Hc Hs].
  rewrite N.eqb_sym in Hc. rewrite Hc, (IH Hs). reflexivity.
Qed.

Lemma decode_plain (s : str) : forallb is_ascii s = true -> Utf8.decode s = s.
Proof.
  induction s as [|c s IH]; [reflexivity|].
  cbn [forallb]. rewrite andb_true_iff. intros [Hc Hs].
  unfold is_ascii in Hc. apply N.ltb_lt in Hc.
  rewrite (decode_ascii c s Hc), (IH Hs). reflexivity.
Qed.

Lemma unquote_of_ascii (s : str) :
  forallb is_ascii s = true -> unquote s = Utf8.decode (unquote_to_bytes s).
Proof.
  intros H. unfold unquote. destruct (has_char 37 s) eqn:Hp.
  - apply (unquote_parts_ascii s [] H).
  - rewrite (unquote_to_bytes_plain s Hp), (decode_plain s H). reflexivity.
Qed.

(** Unquoting what [quote] gave returns the text that was quoted, when no
    percent sign of the text was left as it is. *)
Lemma unquote_quote (s safe q : str) :
  quote s safe = Ok q ->
  has_char 37 s = false \/ has_char 37 safe = false ->
  unquote q = s.
Proof.
  unfold quote. destruct (Utf8.encode s) as [bs|] eqn:Henc; simpl; [|discriminate].
  intros [= <-] Hpct.
  destruct (encode_bytes s bs Henc) as [Hb Hin].
  rewrite (unquote_of_ascii _ (quoted_ascii safe bs Hb)).
  rewrite (unquote_to_bytes_quoted safe bs Hb).
  - apply decode_encode, Henc.
  - intros b Hb37 ->. destruct Hpct as [Hs|Hsafe].
    + exfalso. specialize (Hin Hb37). unfold has_char in Hs.
      rewrite <- not_true_iff_false in Hs. apply Hs.
      apply existsb_exists. exists 37. split; [exact Hin | reflexivity].
    + unfold is_safe. rewrite Hsafe. reflexivity.
Qed.
(** ** C2: [normalize_url] *)



(** ** More on the walker *)

Lemma oldest_None (es : list FeedEntry) : oldest es = None -> es = [].
Proof.
  destruct es as [|e rest]; [reflexivity|]. simpl.
  destruct (oldest rest); discriminate.
Qed.

Lemma oldest_In (es : list FeedEntry) (d : date) :
  oldest es = Some d -> exists x, In x es /\ published x = d.
Proof.
  revert d. induction es as [|e rest IH]; intros d; simpl; [discriminate|].
  destruct (oldest rest) as [d'|].
  - destruct (date_ltb d' (published e)); intros [= <-].
    + destruct (IH d' eq_refl) as [x [Hx Hd]]. exists x. auto.
    + exists e. auto.
  - intros [= <-]. exists e. auto.
Qed.

Lemma turn_yields_in_window (db : pylib) (src : feed_source) (start_date end_date : date)
    (max_results i : Z) (ys : list FeedEntry) (o : option outcome) :
  turn db src start_date end_date max_results i ys o ->
  forall y, In y ys -> in_window start_date end_date y = true.
Proof.
  intros H y Hy. inversion H; subst; try contradiction;
    apply filter_In in Hy; apply Hy.
Qed.

(** X1. Every entry that the walker yields has its date inside the window,
    both ends included, whatever the source serves. *)
Theorem yielded_entries_are_in_window (db : pylib) (src : feed_source)
    (start_date end_date : date) (max_results : Z) (fuel : nat) (start_index : Z)
    (x : FeedEntry) :
  In x (yielded (fst (iter_recent_posts db src start_date end_date max_results
                        fuel start_index))) ->
  date_leb start_date (published x) = true
  /\ date_leb (published x) end_date = true.
Proof.
  revert start_index. induction fuel as [|fuel IH]; intros i.
  - intros [].
  - destruct (iter_recent_posts_turn db src start_date end_date max_results fuel i)
      as [ys [o [Hturn ->]]].
    assert (Hys : forall y, In y ys ->
              date_leb start_date (published y) = true
              /\ date_leb (published y) end_date = true).
    { intros y Hy. apply andb_true_iff.
      exact (turn_yields_in_window _ _ _ _ _ _ _ _ Hturn y Hy). }
    destruct o as [out|]; cbn [fst].
    + change (Fetched i :: List.map Yielded ys) with ([Fetched i] ++ List.map Yielded ys).
      rewrite yielded_app, yielded_Yielded. apply Hys.
    + change (Fetched i :: List.map Yielded ys ++ ?r)
        with ([Fetched i] ++ List.map Yielded ys ++ r).
      rewrite !yielded_app, yielded_Yielded. cbn [yielded List.map List.concat app].
      intros Hin. apply in_app_or in Hin. destruct Hin as [Hin|Hin]; [apply Hys, Hin|].
      exact (IH _ Hin).
Qed.

Lemma yielded_entries_are_in_window_witness :
  date_leb (mkdate 2024 3 1) (mkdate 2024 4 10) = true
  /\ date_leb (mkdate 2024 4 10) (mkdate 2024 4 30) = true.
Proof.
  apply (yielded_entries_are_in_window example_lib three_pages (mkdate 2024 3 1)
           (mkdate 2024 4 30) 2 3 1
           (entry_n "p3" "https://example.com/2024/04/p3.html" (mkdate 2024 4 10))).
  vm_compute. left. reflexivity.
Defined.

Lemma page_entries_unique (db : pylib) (src : feed_source) (max_results : Z) (k : nat)
    (es es' : list FeedEntry) :
  page_entries db src max_results k es -> page_entries db src max_results k es' ->
  es = es'.
Proof. intros [p [Hp Hd]] [p' [Hp' Hd']]. congruence. Qed.

(** X2. Nothing in the window is missed when the feed is newest first and
    ends where a page has no usable entry: if the walk returns, every entry
    of every page of the feed, fetched or not, whose date is inside the
    window has been yielded. *)
Theorem walker_misses_nothing (db : pylib) (src : feed_source)
    (start_date end_date : date) (max_results : Z) (fuel : nat) (evs : list event) :
  iter_recent_posts db src start_date end_date max_results fuel 1 = (evs, Returned) ->
  (forall j k es_j es_k x y,
     (j < k)%nat ->
     page_entries db src max_results j es_j -> page_entries db src max_results k es_k ->
     In x es_j -> In y es_k -> date_leb (published y) (published x) = true) ->
  (forall j k es_k,
     (j <= k)%nat ->
     page_entries db src max_results j [] -> page_entries db src max_results k es_k ->
     es_k = []) ->
  forall k es y,
    page_entries db src max_results k es -> In y es ->
    in_window start_date end_date y = true ->
    In y (yielded evs).
Proof.
  intros Hwalk Hsorted Hend.
  assert (Hgen : forall fuel k0 evs,
    iter_recent_posts db src start_date end_date max_results fuel
      (1 + max_results * Z.of_nat k0)%Z = (evs, Returned) ->
    forall k es y, (k0 <= k)%nat ->
      page_entries db src max_results k es -> In y es ->
      in_window start_date end_date y = true -> In y (yielded evs)).
  { clear Hwalk fuel evs. induction fuel as [|fuel IH]; intros k0 evs Hwalk k es y Hk Hpage Hy Hwin.
    - discriminate.
    - destruct (iter_recent_posts_turn db src start_date end_date max_results fuel
                  (1 + max_results * Z.of_nat k0)%Z) as [ys [o [Hturn Heq]]].
      rewrite Heq in Hwalk. clear Heq.
      assert (Hempty : page_entries db src max_results k0 [] -> False).
      { intros H0. rewrite (Hend k0 k es Hk H0 Hpage) in Hy. exact Hy. }
      inversion Hturn as [e Hs|p Hs Hp|p e Hs Hd Hne|p es0 Hs Hd Hne Hstop
                          |p es0 Hs Hd Hne Hstop]; subst.
      + discriminate.
      + exfalso. apply Hempty. exists p. rewrite Hp. split; [exact Hs | reflexivity].
      + discriminate.
      + injection Hwalk as <-.
        change (Fetched ?i :: List.map Yielded ?l) with ([Fetched i] ++ List.map Yielded l).
        rewrite yielded_app, yielded_Yielded. cbn [yielded List.map List.concat app].
        assert (H0 : page_entries db src max_results k0 es0) by (exists p; auto).
        destruct (oldest es0) as [d|] eqn:Hold.
        * destruct (Nat.eq_dec k0 k) as [->|Hne'].
          -- rewrite (page_entries_unique _ _ _ _ _ _ H0 Hpage).
             apply filter_In. auto.
          -- exfalso. destruct (oldest_In es0 d Hold) as [x [Hx Hxd]].
             assert (Hle : date_leb (published y) (published x) = true)
               by (apply (Hsorted k0 k es0 es x y); auto; lia).
             rewrite Hxd in Hle.
             pose proof (date_leb_ltb_trans _ _ _ Hle Hstop) as Hlt.
             unfold in_window in Hwin. apply andb_true_iff in Hwin.
             destruct Hwin as [Hlo _]. unfold date_leb in Hlo. rewrite Hlt in Hlo.
             discriminate.
        * exfalso. apply Hempty. rewrite <- (oldest_None es0 Hold). exact H0.
      + cbn zeta in Hwalk.
        destruct (iter_recent_posts db src start_date end_date max_results fuel
                    (1 + max_results * Z.of_nat k0 + max_results)%Z)
          as [evs' out'] eqn:Hrest.
        cbn [fst snd] in Hwalk. injection Hwalk as <- ->.
        change (Fetched ?i :: List.map Yielded ?l ++ ?r)
          with ([Fetched i] ++ List.map Yielded l ++ r).
        rewrite !yielded_app, yielded_Yielded. cbn [yielded List.map List.concat app].
        assert (H0 : page_entries db src max_results k0 es0) by (exists p; auto).
        destruct (Nat.eq_dec k0 k) as [->|Hne'].
        * apply in_or_app. left. rewrite (page_entries_unique _ _ _ _ _ _ H0 Hpage).
          apply filter_In. auto.
        * apply in_or_app. right.
          replace (1 + max_results * Z.of_nat k0 + max_results)%Z
            with (1 + max_results * Z.of_nat (S k0))%Z in Hrest by lia.
          apply (IH (S k0) evs' Hrest k es y); auto. lia. }
  intros k es y. apply (Hgen fuel 0%nat evs); [|lia].
  replace (1 + max_results * Z.of_nat 0)%Z with 1%Z by lia. exact Hwalk.
Qed.

Lemma three_pages_page_entries (k : nat) (es : list FeedEntry) :
  page_entries example_lib three_pages 2 k es -> es = three_pages_entries k.
Proof.
  intros [p [Hp Hd]].
  destruct k as [|[|[|k]]].
  - vm_compute in Hp. injection Hp as <-. vm_compute in Hd. injection Hd as <-.
    vm_compute. reflexivity.
  - vm_compute in Hp. injection Hp as <-. vm_compute in Hd. injection Hd as <-.
    vm_compute. reflexivity.
  - vm_compute in Hp. injection Hp as <-. vm_compute in Hd. injection Hd as <-.
    vm_compute. reflexivity.
  - unfold three_pages in Hp.
    assert (H1 : (1 + 2 * Z.of_nat (S (S (S k))) =? 1)%Z = false) by (apply Z.eqb_neq; lia).
    assert (H3 : (1 + 2 * Z.of_nat (S (S (S k))) =? 3)%Z = false) by (apply Z.eqb_neq; lia).
    assert (H5 : (1 + 2 * Z.of_nat (S (S (S k))) =? 5)%Z = false) by (apply Z.eqb_neq; lia).
    rewrite H1, H3, H5 in Hp. injection Hp as <-. vm_compute in Hd.
    injection Hd as <-. reflexivity.
Qed.

Lemma three_pages_newest_first (j k : nat) (x y : FeedEntry) :
  (j < k)%nat -> In x (three_pages_entries j) -> In y (three_pages_entries k) ->
  date_leb (published y) (published x) = true.
Proof.
  intros Hjk Hx Hy.
  destruct k as [|[|[|k]]]; [lia| | |destruct Hy];
    destruct j as [|[|[|j]]]; try lia; simpl in Hx, Hy;
    repeat match goal with
           | H : _ \/ _ |- _ => destruct H
           | H : False |- _ => destruct H
           end; subst; reflexivity.
Qed.

Lemma walker_misses_nothing_witness :
  In (entry_n "p4" "https://example.com/2024/03/p4.html" (mkdate 2024 3 10))
    (yielded
       [Fetched 1%Z; Fetched 3%Z;
        Yielded (entry_n "p3" "https://example.com/2024/04/p3.html" (mkdate 2024 4 10));
        Yielded (entry_n "p4" "https://example.com/2024/03/p4.html" (mkdate 2024 3 10));
        Fetched 5%Z]).
Proof.
  assert (Hwalk :
    iter_recent_posts example_lib three_pages (mkdate 2024 3 1) (mkdate 2024 4 30) 2 3 1
    = ([Fetched 1%Z; Fetched 3%Z;
        Yielded (entry_n "p3" "https://example.com/2024/04/p3.html" (mkdate 2024 4 10));
        Yielded (entry_n "p4" "https://example.com/2024/03/p4.html" (mkdate 2024 3 10));
        Fetched 5%Z], Returned)) by (vm_compute; reflexivity).
  apply (walker_misses_nothing example_lib three_pages (mkdate 2024 3 1)
           (mkdate 2024 4 30) 2 3 _ Hwalk)
    with (k := 1%nat) (es := three_pages_entries 1).
  - intros j k es_j es_k x y Hjk Hj Hk Hx Hy.
    rewrite (three_pages_page_entries j es_j Hj) in Hx.
    rewrite (three_pages_page_entries k es_k Hk) in Hy.
    exact (three_pages_newest_first j k x y Hjk Hx Hy).
  - intros j k es_k Hjk Hj Hk.
    rewrite (three_pages_page_entries k es_k Hk).
    pose proof (three_pages_page_entries j [] Hj) as Hj0.
    destruct j as [|[|[|j]]]; try discriminate.
    destruct k as [|[|[|k]]]; try lia. reflexivity.
  - exists page_2. split; vm_compute; reflexivity.
  - right. left. reflexivity.
  - vm_compute. reflexivity.
Defined.

(** ** More on [normalize_url]: where it raises *)

Section Preserved.
Variable P : N -> Prop.

Lemma lstrip_by_Forall (p : N -> bool) (s : str) :
  Forall P s -> Forall P (lstrip_by p s).
Proof.
  induction 1 as [|c s Hc Hs IH]; simpl; [constructor|].
  destruct (p c); [exact IH | constructor; assumption].
Qed.

Lemma rev_Forall (s : str) : Forall P s -> Forall P (rev s).
Proof.
  intros H. apply List.Forall_forall. intros x Hx. apply in_rev in Hx.
  rewrite List.Forall_forall in H. exact (H x Hx).
Qed.

Lemma strip_Forall (s : str) : Forall P s -> Forall P (strip s).
Proof.
  intros H. unfold strip, rstrip_by.
  apply rev_Forall, lstrip_by_Forall, rev_Forall, lstrip_by_Forall, H.
Qed.

Lemma remove_char_Forall (c : N) (s : str) : Forall P s -> Forall P (remove_char c s).
Proof.
  intros H. unfold remove_char. apply List.Forall_forall. intros x Hx.
  apply filter_In in Hx. rewrite List.Forall_forall in H. apply H, Hx.
Qed.

Lemma cut_Forall (c : N) (s a b : str) :
  cut c s = Some (a, b) -> Forall P s -> Forall P a /\ Forall P b.
Proof.
  revert a b. induction s as [|x s IH]; intros a b; simpl; [discriminate|].
  intros Hcut Hs. inversion Hs as [|? ? Hx Hs']; subst.
  destruct (x =? c).
  - injection Hcut as <- <-. split; [constructor | exact Hs'].
  - destruct (cut c s) as [[a' b']|]; [|discriminate].
    injection Hcut as <- <-. destruct (IH a' b' eq_refl Hs') as [Ha Hb].
    split; [constructor; assumption | exact Hb].
Qed.

Lemma splitnetloc_Forall (s : str) :
  Forall P s -> Forall P (fst (splitnetloc s)) /\ Forall P (snd (splitnetloc s)).
Proof.
  induction 1 as [|c s Hc Hs IH]; simpl; [split; constructor|].
  destruct ((c =? 47) || (c =? 63) || (c =? 35)); simpl.
  - split; [constructor | constructor; assumption].
  - destruct (splitnetloc s) as [a b]. simpl in *. destruct IH as [Ha Hb].
    split; [constructor; assumption | exact Hb].
Qed.

Lemma split_scheme_Forall (s : str) : Forall P s -> Forall P (snd (split_scheme s)).
Proof.
  intros H. unfold split_scheme.
  destruct (cut 58 s) as [[[|c pre] rest]|] eqn:Hcut; cbn [snd]; try exact H.
  destruct (is_alpha_ascii c && forallb scheme_char (c :: pre)); cbn [snd]; [|exact H].
  exact (proj2 (cut_Forall 58 s _ _ Hcut H)).
Qed.
End Preserved.

Lemma has_char_false (c : N) (s : str) :
  Forall (fun x => x <> c) s -> has_char c s = false.
Proof.
  unfold has_char. induction 1 as [|x s Hx Hs IH]; simpl; [reflexivity|].
  rewrite IH, orb_false_r. apply N.eqb_neq. congruence.
Qed.

Lemma forallb_Forall_ascii (s : str) :
  Forall (fun x => x < 128) s -> forallb is_ascii s = true.
Proof.
  induction 1 as [|x s Hx Hs IH]; simpl; [reflexivity|].
  rewrite IH, andb_true_r. apply N.ltb_lt, Hx.
Qed.

(** The test [url[:2] == '//'] as a case distinction. *)
Lemma double_slash_case {A : Type} (f : str -> A) (d : A) (rest : str) :
  (exists after, rest = 47 :: 47 :: after)
  \/ match rest with 47 :: 47 :: after => f after | _ => d end = d.
Proof.
  destruct rest as [|a rest]; [right; reflexivity|].
  destruct (N.eq_dec a 47) as [->|Ha].
  - destruct rest as [|b after]; [right; reflexivity|].
    destruct (N.eq_dec b 47) as [->|Hb]; [left; exists after; reflexivity|].
    right. destruct b as [|pb]; [reflexivity|].
    repeat (destruct pb as [pb|pb|]; try reflexivity). congruence.
  - right. destruct a as [|pa]; [reflexivity|].
    repeat (destruct pa as [pa|pa|]; try reflexivity). congruence.
Qed.

(** [urlsplit] on plain text: ASCII without brackets. It returns, and the
    parts are plain text again. *)
Lemma urlsplit_plain (db : pylib) (u : str) :
  Forall (fun c => c < 128 /\ c <> 91 /\ c <> 93) u ->
  exists parts,
    urlsplit db u = Ok parts
    /\ forallb is_ascii (netloc parts) = true
    /\ forallb is_ascii (path parts) = true
    /\ forallb is_ascii (query parts) = true
    /\ forallb is_ascii (fragment parts) = true.
Proof.
  set (P := fun c : N => c < 128 /\ c <> 91 /\ c <> 93).
  assert (Hascii : forall s, Forall P s -> forallb is_ascii s = true).
  { intros s Hs. apply forallb_Forall_ascii. eapply List.Forall_impl; [|exact Hs].
    intros a [Ha _]. exact Ha. }
  assert (Hno91 : forall s, Forall P s -> has_char 91 s = false).
  { intros s Hs. apply has_char_false. eapply List.Forall_impl; [|exact Hs].
    intros a [_ [Ha _]]. exact Ha. }
  assert (Hno93 : forall s, Forall P s -> has_char 93 s = false).
  { intros s Hs. apply has_char_false. eapply List.Forall_impl; [|exact Hs].
    intros a [_ [_ Ha]]. exact Ha. }
  intros Hu. unfold urlsplit.
  set (u1 := remove_char 10 (remove_char 13 (remove_char 9 (lstrip_by c0_or_space u)))).
  assert (H1 : Forall P u1)
    by (repeat apply remove_char_Forall; apply lstrip_by_Forall, Hu).
  pose proof (split_scheme_Forall P u1 H1) as H2.
  destruct (split_scheme u1) as [sch rest]. simpl in H2.
  assert (Hnet : exists nl url,
    match rest with
    | 47 :: 47 :: after =>
        let '(nl, rest0) := splitnetloc after in
        if xorb (has_char 91 nl) (has_char 93 nl) then Raise ValueError
        else if has_char 91 nl && negb (bracketed_host_ok db (bracketed_host nl))
        then Raise ValueError
        else Ok (nl, rest0)
    | _ => Ok ([], rest)
    end = Ok (nl, url) /\ Forall P nl /\ Forall P url).
  { match goal with
    | |- exists nl url, ?m = _ /\ _ =>
        match m with
        | match rest with [] => ?d | _ => _ end =>
            destruct (double_slash_case
                        (fun after =>
                           let '(nl, rest0) := splitnetloc after in
                           if xorb (has_char 91 nl) (has_char 93 nl) then Raise ValueError
                           else if has_char 91 nl
                                   && negb (bracketed_host_ok db (bracketed_host nl))
                           then Raise ValueError
                           else Ok (nl, rest0)) d rest) as [[after ->]|Hd]
        end
    end.
    - inversion H2 as [|? ? _ H2']; subst. inversion H2' as [|? ? _ H2'']; subst.
      destruct (splitnetloc_Forall P after H2'') as [Hn Hr].
      destruct (splitnetloc after) as [nl rest0]. simpl in Hn, Hr.
      exists nl, rest0. rewrite (Hno91 nl Hn), (Hno93 nl Hn). simpl.
      split; [reflexivity | split; assumption].
    - exists [], rest. split; [exact Hd | split; [constructor | assumption]]. }
  destruct Hnet as [nl [url [-> [Hnl Hurl]]]]. simpl.
  assert (Hfrag : exists url1 frag,
    match cut 35 url with Some p => p | None => (url, []) end = (url1, frag)
    /\ Forall P url1 /\ Forall P frag).
  { destruct (cut 35 url) as [[a b]|] eqn:Hc.
    - destruct (cut_Forall P 35 url a b Hc Hurl). eexists _, _. eauto.
    - eexists _, _. split; [reflexivity | split; [assumption | constructor]]. }
  destruct Hfrag as [url1 [frag [-> [Hurl1 Hfr]]]].
  assert (Hqry : exists url2 qry,
    match cut 63 url1 with Some p => p | None => (url1, []) end = (url2, qry)
    /\ Forall P url2 /\ Forall P qry).
  { destruct (cut 63 url1) as [[a b]|] eqn:Hc.
    - destruct (cut_Forall P 63 url1 a b Hc Hurl1). eexists _, _. eauto.
    - eexists _, _. split; [reflexivity | split; [assumption | constructor]]. }
  destruct Hqry as [url2 [qry [-> [Hurl2 Hq]]]].
  rewrite (Hascii nl Hnl).
  replace (match nl with [] => false | _ :: _ => negb true end) with false
    by (destruct nl; reflexivity).
  simpl. eexists. split; [reflexivity|]. simpl. auto.
Qed.

Lemma hexval_lt (c a : N) : hexval c = Some a -> a < 16.
Proof.
  unfold hexval, is_digit_ascii.
  flag (48 <=? c); flag (c <=? 57); cbn [andb]; try (intros [= <-]; lia);
    flag (65 <=? c); flag (c <=? 70); cbn [andb]; try (intros [= <-]; lia);
    flag (97 <=? c); flag (c <=? 102); cbn [andb]; try (intros [= <-]; lia);
    discriminate.
Qed.

Lemma unquote_to_bytes_bytes (n : nat) :
  forall s, (length s <= n)%nat -> Forall (fun c => c < 128) s ->
    Forall (fun b => b < 256) (unquote_to_bytes s).
Proof.
  induction n as [|n IH]; intros s Hlen Hs.
  - destruct s; [constructor | simpl in Hlen; lia].
  - destruct s as [|c s']; [constructor|].
    inversion Hs as [|? ? Hc Hs']; subst. simpl in Hlen.
    assert (Hplain : Forall (fun b => b < 256) (c :: unquote_to_bytes s')).
    { constructor; [lia | apply IH; [lia | exact Hs']]. }
    cbn [unquote_to_bytes]. destruct (c =? 37); [|exact Hplain].
    destruct s' as [|h1 [|h2 s'']]; try exact Hplain.
    destruct (hexval h1) as [a|] eqn:H1; [|exact Hplain].
    destruct (hexval h2) as [b|] eqn:H2; [|exact Hplain].
    apply hexval_lt in H1, H2.
    constructor; [lia|]. apply IH; [simpl in Hlen; lia|].
    inversion Hs' as [|? ? _ Hs'']; subst. inversion Hs'' as [|? ? _ H3]; subst. exact H3.
Qed.

Lemma encodable_small (c : N) : c < 55296 -> encodable c.
Proof.
  intros H. unfold encodable, Utf8.encode_char, Utf8.is_surrogate.
  flag (c <? 128); [discriminate|]. flag (c <? 2048); [discriminate|].
  flag (c <? 65536); [|lia]. flag (55296 <=? c); [lia|]. discriminate.
Qed.

Lemma encodable_replacement : encodable Utf8.replacement.
Proof. discriminate. Qed.

Lemma encodable_three (b1 b2 b3 : N) :
  224 <= b1 < 240 -> 128 <= b2 < 192 -> 128 <= b3 < 192 ->
  (b1 = 237 -> b2 < 160) ->
  encodable ((b1 - 224) * 4096 + (b2 - 128) * 64 + (b3 - 128)).
Proof.
  intros H1 H2 H3 Hs. unfold encodable, Utf8.encode_char, Utf8.is_surrogate.
  set (c := (b1 - 224) * 4096 + (b2 - 128) * 64 + (b3 - 128)).
  assert (Hc : c < 65536) by (subst c; lia).
  assert (Hn : c < 55296 \/ 57343 < c).
  { subst c. destruct (N.eq_dec b1 237) as [->|Hne]; [specialize (Hs eq_refl); lia|lia]. }
  flag (c <? 128); [discriminate|]. flag (c <? 2048); [discriminate|].
  flag (c <? 65536); [|lia].
  flag (55296 <=? c); flag (c <=? 57343); cbn [andb]; try discriminate; lia.
Qed.

Lemma encodable_four (b1 b2 b3 b4 : N) :
  240 <= b1 < 245 -> 128 <= b2 < 192 -> 128 <= b3 < 192 -> 128 <= b4 < 192 ->
  (b1 = 240 -> 144 <= b2) -> (b1 = 244 -> b2 < 144) ->
  encodable ((b1 - 240) * 262144 + (b2 - 128) * 4096 + (b3 - 128) * 64 + (b4 - 128)).
Proof.
  intros H1 H2 H3 H4 Hlo Hhi. unfold encodable, Utf8.encode_char, Utf8.is_surrogate.
  set (c := (b1 - 240) * 262144 + (b2 - 128) * 4096 + (b3 - 128) * 64 + (b4 - 128)).
  assert (Hc : 65536 <= c < 1114112).
  { subst c. destruct (N.eq_dec b1 240) as [->|Hn0];
      [specialize (Hlo eq_refl); lia|].
    destruct (N.eq_dec b1 244) as [->|Hn4]; [specialize (Hhi eq_refl); lia | lia]. }
  flag (c <? 128); [lia|]. flag (c <? 2048); [lia|]. flag (c <? 65536); [lia|].
  flag (c <? 1114112); [discriminate | lia].
Qed.

(** The decoder gives code points that can be encoded again. *)
Lemma decode_encodable (n : nat) :
  forall bs, (length bs <= n)%nat -> Forall encodable (Utf8.decode bs).
Proof.
  induction n as [|n IH]; intros bs Hlen.
  - destruct bs; [constructor | simpl in Hlen; lia].
  - destruct bs as [|b1 r1]; [constructor|]. simpl in Hlen.
    assert (Hrep : forall r, (length r <= n)%nat ->
              Forall encodable (Utf8.replacement :: Utf8.decode r))
      by (intros r Hr; constructor; [exact encodable_replacement | apply IH, Hr]).
    assert (Hone : Forall encodable [Utf8.replacement])
      by (constructor; [exact encodable_replacement | constructor]).
    cbn [Utf8.decode]. unfold Utf8.is_cont.
    flag (b1 <? 128).
    { constructor; [apply encodable_small; lia | apply IH; lia]. }
    flag (b1 <? 194); [apply Hrep; lia|].
    flag (b1 <? 224).
    { destruct r1 as [|b2 r2]; [exact Hone|]. simpl in Hlen.
      flag (128 <=? b2); flag (b2 <? 192); cbn [andb]; try (apply Hrep; simpl; lia).
      constructor; [apply encodable_small; lia | apply IH; lia]. }
    flag (b1 <? 240).
    { destruct r1 as [|b2 r2]; [exact Hone|]. simpl in Hlen.
      flag (128 <=? b2); flag (b2 <? 192); cbn [andb negb orb];
        try (apply Hrep; simpl; lia).
      flag (b2 <? 160); flag (b1 =? 224); flag (b1 =? 237);
        try (apply Hrep; simpl; lia);
        (destruct r2 as [|b3 r3]; [exact Hone|]; simpl in Hlen;
         flag (128 <=? b3); flag (b3 <? 192); cbn [andb];
         try (apply Hrep; simpl; lia);
         constructor; [apply encodable_three; lia | apply IH; lia]). }
    flag (b1 <? 245); [|apply Hrep; lia].
    destruct r1 as [|b2 r2]; [exact Hone|]. simpl in Hlen.
    flag (128 <=? b2); flag (b2 <? 192); cbn [andb negb orb];
      try (apply Hrep; simpl; lia).
    flag (b2 <? 144); flag (b1 =? 240); flag (b1 =? 244);
      try (apply Hrep; simpl; lia);
      (destruct r2 as [|b3 r3]; [exact Hone|]; simpl in Hlen;
       flag (128 <=? b3); flag (b3 <? 192); cbn [andb negb];
       try (apply Hrep; simpl; lia);
       destruct r3 as [|b4 r4]; [exact Hone|]; simpl in Hlen;
       flag (128 <=? b4); flag (b4 <? 192); cbn [andb];
       try (apply Hrep; simpl; lia);
       constructor; [apply encodable_four; lia | apply IH; lia]).
Qed.

Lemma encode_total (s : str) : Forall encodable s -> exists bs, Utf8.encode s = Ok bs.
Proof.
  induction 1 as [|c s Hc Hs [bs IH]]; simpl; [eexists; reflexivity|].
  unfold encodable in Hc. destruct (Utf8.encode_char c) as [cb|]; [|contradiction].
  rewrite IH. simpl. eexists. reflexivity.
Qed.

Lemma quote_unquote_plain (s safe : str) :
  forallb is_ascii s = true -> exists q, quote (unquote s) safe = Ok q.
Proof.
  intros H. rewrite (unquote_of_ascii s H). unfold quote.
  destruct (encode_total (Utf8.decode (unquote_to_bytes s))) as [bs ->].
  - apply (decode_encodable _ _ (Nat.le_refl _)).
  - simpl. eexists. reflexivity.
Qed.

(** X3. [normalize_url] raises nothing but the [ValueError] of [urlsplit]
    and the [UnicodeEncodeError] of [quote], and on ASCII text without square
    brackets it raises nothing: it returns a URL. *)
Theorem normalize_url_returns_on_plain_text (db : pylib) (u : str) :
  Forall (fun c => c < 128 /\ c <> 91 /\ c <> 93) u ->
  (exists y, normalize_url db u = Ok y)
  /\ (forall v e, normalize_url db v = Raise e ->
        e = ValueError \/ e = UnicodeEncodeError).
Proof.
  intros Hu. split.
  - unfold normalize_url.
    destruct (urlsplit_plain db (strip u) (strip_Forall _ u Hu))
      as [parts [-> [_ [Hp [Hq Hf]]]]]. simpl.
    destruct (quote_unquote_plain (path parts) (lit "/~%:@!$&'()*+,;=") Hp) as [p' ->].
    destruct (quote_unquote_plain (query parts) (lit "=&%") Hq) as [q' ->].
    destruct (quote_unquote_plain (fragment parts) [] Hf) as [f' ->].
    simpl. eexists. reflexivity.
  - intros v e. unfold normalize_url.
    destruct (urlsplit db (strip v)) as [parts|e0] eqn:Hsplit; simpl.
    + assert (Hquote : forall s safe e1, quote s safe = Raise e1 -> e1 = UnicodeEncodeError).
      { intros s safe e1. unfold quote.
        assert (Henc : forall t e2, Utf8.encode t = Raise e2 -> e2 = UnicodeEncodeError).
        { induction t as [|c t IH]; intros e2; simpl; [discriminate|].
          destruct (Utf8.encode_char c); [|intros [= <-]; reflexivity].
          destruct (Utf8.encode t) as [bs|e3]; simpl; [discriminate|].
          intros [= <-]. apply IH. reflexivity. }
        destruct (Utf8.encode s) as [bs|e2] eqn:He; simpl; [discriminate|].
        intros [= <-]. exact (Henc s e2 He). }
      destruct (quote (unquote (path parts)) _) as [p'|e1] eqn:H1; simpl.
      2:{ intros [= <-]. right. exact (Hquote _ _ _ H1). }
      destruct (quote (unquote (query parts)) _) as [q'|e2] eqn:H2; simpl.
      2:{ intros [= <-]. right. exact (Hquote _ _ _ H2). }
      destruct (quote (unquote (fragment parts)) _) as [f'|e3] eqn:H3; simpl.
      2:{ intros [= <-]. right. exact (Hquote _ _ _ H3). }
      discriminate.
    + intros [= <-]. left. revert Hsplit. unfold urlsplit.
      destruct (split_scheme _) as [sch rest].
      match goal with
      | |- context [bind ?m _] => destruct m as [[nl url]|e1] eqn:Hm
      end; simpl.
      * destruct (match cut 35 url with Some p => p | None => (url, []) end) as [url1 frag].
        destruct (match cut 63 url1 with Some p => p | None => (url1, []) end)
          as [url2 qry].
        destruct (_ && _); [intros [= <-]; reflexivity | discriminate].
      * intros [= <-]. revert Hm.
        destruct (double_slash_case
                    (fun after : str =>
                       let '(nl, rest0) := splitnetloc after in
                       if xorb (has_char 91 nl) (has_char 93 nl)
                       then @Raise (str * str) ValueError
                       else if has_char 91 nl
                               && negb (bracketed_host_ok db (bracketed_host nl))
                       then Raise ValueError
                       else Ok (nl, rest0)) (Ok ([], rest)) rest)
          as [[after ->]|Hd].
        -- cbn iota beta. destruct (splitnetloc after) as [nl rest0].
           destruct (xorb (has_char 91 nl) (has_char 93 nl));
             [intros H; congruence|].
           destruct (has_char 91 nl && negb (bracketed_host_ok db (bracketed_host nl)));
             [intros H; congruence | discriminate].
        -- intros Hm.
           assert (H : Ok ([], rest) = @Raise (str * str) e1)
             by (rewrite <- Hd; exact Hm).
           discriminate.
Qed.

Lemma normalize_url_returns_on_plain_text_witness :
  exists y, normalize_url ascii_lib (lit " HTTP://Example.com/a b?q=1#f ") = Ok y.
Proof.
  apply (normalize_url_returns_on_plain_text ascii_lib
           (lit " HTTP://Example.com/a b?q=1#f ")).
  vm_compute. repeat constructor; discriminate.
Defined.

(** ** More on [normalize_url]: the characters of its result *)

Lemma encode_char_low (c b : N) (cb : list N) :
  Utf8.encode_char c = Some cb -> In b cb -> b < 128 -> b = c.
Proof.
  unfold Utf8.encode_char, Utf8.is_surrogate.
  replace (c / 4096) with (c / 64 / 64) by (rewrite N.Div0.div_div; reflexivity).
  replace (c / 262144) with (c / 64 / 64 / 64) by (rewrite !N.Div0.div_div; reflexivity).
  destruct (div_mod_64 c) as [q1 [r1 [-> [-> [Hc Hr1]]]]].
  destruct (div_mod_64 q1) as [q2 [r2 [-> [-> [Hq1 Hr2]]]]].
  destruct (div_mod_64 q2) as [q3 [r3 [-> [-> [Hq2 Hr3]]]]].
  flag (c <? 128).
  { intros [= <-] [H|[]] _. congruence. }
  flag (c <? 2048).
  { intros [= <-]. simpl. intros [H|[H|[]]]; lia. }
  flag (c <? 65536).
  { destruct ((55296 <=? c) && (c <=? 57343)); [discriminate|].
    intros [= <-]. simpl. intros [H|[H|[H|[]]]]; lia. }
  flag (c <? 1114112); [|discriminate].
  intros [= <-]. simpl. intros [H|[H|[H|[H|[]]]]]; lia.
Qed.

Lemma encode_low (s : str) (bs : list N) (b : N) :
  Utf8.encode s = Ok bs -> In b bs -> b < 128 -> In b s.
Proof.
  revert bs. induction s as [|c s IH]; intros bs; simpl.
  - intros [= <-] [].
  - destruct (Utf8.encode_char c) as [cb|] eqn:Hc; [|discriminate].
    destruct (Utf8.encode s) as [rest|]; simpl; [|discriminate].
    intros [= <-] Hin Hb. apply in_app_or in Hin. destruct Hin as [Hin|Hin].
    + left. symmetry. exact (encode_char_low c b cb Hc Hin Hb).
    + right. exact (IH rest eq_refl Hin Hb).
Qed.

Lemma hexdigit_range (n : N) :
  n < 16 -> 48 <= hexdigit n <= 57 \/ 65 <= hexdigit n <= 70.
Proof. intros H. unfold hexdigit. flag (n <? 10); lia. Qed.

(** A character of a quoted text is a percent sign, a hexadecimal digit of an
    escape, or a safe character of the text that was quoted. *)
Lemma quote_chars (s safe q : str) (c : N) :
  quote s safe = Ok q -> In c q ->
  (c = 37 \/ 48 <= c <= 57 \/ 65 <= c <= 70) \/ (is_safe safe c = true /\ In c s).
Proof.
  unfold quote. destruct (Utf8.encode s) as [bs|] eqn:Henc; simpl; [|discriminate].
  intros [= <-] Hin. apply in_concat in Hin. destruct Hin as [piece [Hpiece Hc]].
  apply in_map_iff in Hpiece. destruct Hpiece as [b [<- Hb]].
  destruct (encode_bytes s bs Henc) as [Hbytes _].
  rewrite List.Forall_forall in Hbytes. specialize (Hbytes b Hb).
  unfold quote_byte in Hc. destruct (is_safe safe b) eqn:Hsafe.
  - destruct Hc as [<-|[]]. right. split; [exact Hsafe|].
    apply (encode_low s bs b Henc Hb).
    unfold is_safe in Hsafe. apply andb_true_iff in Hsafe. apply N.ltb_lt, Hsafe.
  - left.
    assert (Hq : b / 16 < 16) by (apply N.Div0.div_lt_upper_bound; lia).
    assert (Hr : b mod 16 < 16) by (apply N.mod_lt; discriminate).
    destruct Hc as [<-|[<-|[<-|[]]]]; [left; reflexivity | right | right].
    + exact (hexdigit_range _ Hq).
    + exact (hexdigit_range _ Hr).
Qed.

Ltac bools :=
  repeat (rewrite andb_true_iff in * || rewrite orb_true_iff in *
          || rewrite N.eqb_eq in * || rewrite N.leb_le in * || rewrite N.ltb_lt in * ).

(** The safe sets of the three components, and what is not in them. *)
Lemma path_safe_chars (c : N) :
  is_safe (lit "/~%:@!$&'()*+,;=") c = true -> 32 < c < 128 /\ c <> 35 /\ c <> 63.
Proof.
  unfold is_safe, always_safe, is_alpha_ascii, is_upper, is_lower, is_digit_ascii, has_char.
  let l := eval vm_compute in (lit "/~%:@!$&'()*+,;=") in
  change (lit "/~%:@!$&'()*+,;=") with l.
  cbn [existsb]. intros H. bools. lia.
Qed.

Lemma query_safe_chars (c : N) :
  is_safe (lit "=&%") c = true -> 32 < c < 128 /\ c <> 35 /\ c <> 58 /\ c <> 63.
Proof.
  unfold is_safe, always_safe, is_alpha_ascii, is_upper, is_lower, is_digit_ascii, has_char.
  let l := eval vm_compute in (lit "=&%") in change (lit "=&%") with l.
  cbn [existsb]. intros H. bools. lia.
Qed.

Lemma fragment_safe_chars (c : N) :
  is_safe [] c = true -> 32 < c < 128 /\ c <> 35 /\ c <> 58 /\ c <> 63.
Proof.
  unfold is_safe, always_safe, is_alpha_ascii, is_upper, is_lower, is_digit_ascii, has_char.
  cbn [existsb]. intros H. bools. lia.
Qed.
(** ** More on [normalize_url]: splitting what was put together *)

Lemma urlunsplit_pieces (p : SplitResult) :
  urlunsplit p = url_head p ++ url_body p ++ url_tail (query p) (fragment p).
Proof.
  unfold urlunsplit, url_head, url_tail, url_body.
  destruct (nonempty (scheme p)), (nonempty (query p)), (nonempty (fragment p));
    cbn [app]; rewrite <- ?app_assoc, ?app_nil_r; cbn [app];
    rewrite <- ?app_assoc; reflexivity.
Qed.

Lemma cut_found (c : N) (a b : str) :
  has_char c a = false -> cut c (a ++ c :: b) = Some (a, b).
Proof.
  unfold has_char. induction a as [|x a IH]; simpl.
  - intros _. rewrite N.eqb_refl. reflexivity.
  - rewrite orb_false_iff. intros [Hx Ha]. rewrite N.eqb_sym in Hx.
    rewrite Hx, (IH Ha). reflexivity.
Qed.

Lemma cut_none (c : N) (s : str) : has_char c s = false -> cut c s = None.
Proof.
  unfold has_char. induction s as [|x s IH]; simpl; [reflexivity|].
  rewrite orb_false_iff. intros [Hx Hs]. rewrite N.eqb_sym in Hx.
  rewrite Hx, (IH Hs). reflexivity.
Qed.

Lemma has_char_app (c : N) (a b : str) :
  has_char c (a ++ b) = has_char c a || has_char c b.
Proof. unfold has_char. apply existsb_app. Qed.

Lemma has_char_Forall (c : N) (P : N -> Prop) (s : str) :
  Forall P s -> ~ P c -> has_char c s = false.
Proof.
  intros Hs Hc. apply has_char_false. eapply List.Forall_impl; [|exact Hs].
  intros a Ha ->. exact (Hc Ha).
Qed.

Lemma splitnetloc_stop (nl rest : str) :
  Forall (fun c => c <> 47 /\ c <> 63 /\ c <> 35) nl ->
  rest = [] \/ (exists c t, rest = c :: t /\ (c = 47 \/ c = 63 \/ c = 35)) ->
  splitnetloc (nl ++ rest) = (nl, rest).
Proof.
  intros Hnl Hrest. induction Hnl as [|x nl [H1 [H2 H3]] Hnl IH]; simpl.
  - destruct Hrest as [->|[c [t [-> Hc]]]]; [reflexivity|]. simpl.
    destruct Hc as [->|[->| ->]]; reflexivity.
  - apply N.eqb_neq in H1, H2, H3. rewrite H1, H2, H3, IH. reflexivity.
Qed.

Lemma printable_clean (s : str) :
  Forall printable s ->
  strip s = s
  /\ remove_char 10 (remove_char 13 (remove_char 9 (lstrip_by c0_or_space s))) = s.
Proof.
  intros Hs.
  assert (Hl : forall p, (forall c, printable c -> p c = false) ->
             forall t, Forall printable t -> lstrip_by p t = t).
  { intros p Hp t Ht. destruct Ht as [|c t Hc Ht]; [reflexivity|].
    simpl. rewrite (Hp c Hc). reflexivity. }
  assert (Hsp : forall c, printable c -> is_space c = false).
  { intros c [H1 H2]. unfold is_space.
    repeat match goal with
           | |- context [?a <=? ?b] => flag (a <=? b); try lia
           | |- context [?a =? ?b] => flag (a =? b); try lia
           end; reflexivity. }
  assert (Hc0 : forall c, printable c -> c0_or_space c = false).
  { intros c [H1 H2]. unfold c0_or_space. apply N.leb_gt. exact H1. }
  assert (Hrm : forall k t, ~ printable k -> Forall printable t -> remove_char k t = t).
  { intros k t Hk Ht. unfold remove_char. induction Ht as [|c t Hc Ht IH]; simpl;
      [reflexivity|].
    flag (c =? k); [subst; contradiction|]. simpl. rewrite IH. reflexivity. }
  split.
  - unfold strip, rstrip_by. rewrite (Hl _ Hsp s Hs).
    rewrite (Hl _ Hsp (rev s)); [apply rev_involutive|].
    apply rev_Forall, Hs.
  - rewrite (Hl _ Hc0 s Hs).
    rewrite (Hrm 9 s), (Hrm 13 s), (Hrm 10 s);
      [reflexivity | ..]; try exact Hs; unfold printable; lia.
Qed.
Lemma split_scheme_slash (s : str) : split_scheme (47 :: s) = ([], 47 :: s).
Proof.
  unfold split_scheme. cbn [cut]. change (47 =? 58) with false. cbn iota.
  destruct (cut 58 s) as [[a b]|]; reflexivity.
Qed.

Lemma split_scheme_no_colon (s : str) : has_char 58 s = false -> split_scheme s = ([], s).
Proof. intros H. unfold split_scheme. rewrite (cut_none 58 s H). reflexivity. Qed.

Lemma scheme_char_not_colon (s : str) :
  forallb scheme_char s = true -> has_char 58 s = false.
Proof.
  intros H. apply has_char_false. apply List.Forall_forall. intros c Hc ->.
  rewrite forallb_forall in H. specialize (H 58 Hc). discriminate.
Qed.

Lemma url_tail_start (q f : str) :
  url_tail q f = [] \/ exists c t, url_tail q f = c :: t /\ (c = 47 \/ c = 63 \/ c = 35).
Proof.
  unfold url_tail. destruct (nonempty q); [right; eexists _, _; split; [reflexivity|auto]|].
  destruct (nonempty f); [right; eexists _, _; split; [reflexivity|auto] | left; reflexivity].
Qed.

Lemma startswith_slash (s : str) :
  startswith [47] s = true -> exists t, s = 47 :: t.
Proof.
  destruct s as [|c t]; [discriminate|]. cbn [startswith]. rewrite andb_true_r.
  intros H. apply N.eqb_eq in H. subst c. exists t. reflexivity.
Qed.

Lemma rest_stops (pth q f : str) :
  pth = [] \/ startswith [47] pth = true ->
  pth ++ url_tail q f = []
  \/ exists c t, pth ++ url_tail q f = c :: t /\ (c = 47 \/ c = 63 \/ c = 35).
Proof.
  intros [->|H]; [apply url_tail_start|].
  destruct (startswith_slash pth H) as [t ->]. right. eexists _, _.
  split; [reflexivity | auto].
Qed.

Section Canonical.
Variables (db : pylib) (p : SplitResult).
Hypothesis Hcan : canonical p.

Lemma nonempty_false (s : str) : nonempty s = false -> s = [].
Proof. destruct s; [reflexivity | discriminate]. Qed.

Lemma url_body_cases :
  (url_body p = 47 :: 47 :: netloc p ++ path p
   /\ (path p = [] \/ startswith [47] (path p) = true))
  \/ (netloc p = [] /\ url_body p = path p /\ startswith [47; 47] (path p) = false).
Proof.
  unfold url_body. destruct (nonempty (netloc p)) eqn:Hn.
  - left. assert (Hne : netloc p <> []) by (intros E; rewrite E in Hn; discriminate).
    pose proof (can_rooted p Hcan Hne) as Hr. split; [|exact Hr].
    destruct Hr as [->|Hr]; [reflexivity|]. rewrite Hr, andb_false_r. reflexivity.
  - apply nonempty_false in Hn. rewrite Hn.
    destruct (startswith [47; 47] (path p)) eqn:H2.
    + left. split; [reflexivity|]. right.
      destruct (path p) as [|a [|b t]]; cbn [startswith] in *;
        rewrite ?andb_false_r in H2; try discriminate.
      apply andb_true_iff in H2. destruct H2 as [-> _]. reflexivity.
    + destruct (nonempty (scheme p) && existsb (PyStr.eqb (scheme p)) uses_netloc
                && (negb (nonempty (path p)) || startswith [47] (path p))) eqn:H3.
      * left. split; [reflexivity|].
        apply andb_true_iff in H3. destruct H3 as [_ H3].
        apply orb_true_iff in H3. destruct H3 as [H3|H3]; [left|right; exact H3].
        apply nonempty_false. apply negb_true_iff. exact H3.
      * right. auto.
Qed.

Lemma tail_no_colon : has_char 58 (url_tail (query p) (fragment p)) = false.
Proof.
  unfold url_tail. rewrite has_char_app.
  assert (Hq : has_char 58 (query p) = false).
  { apply (has_char_Forall 58 _ _ (can_query p Hcan)). intros [_ [_ H]]. congruence. }
  assert (Hf : has_char 58 (fragment p) = false).
  { apply (has_char_Forall 58 _ _ (can_fragment p Hcan)). intros [_ H]. congruence. }
  destruct (nonempty (query p)), (nonempty (fragment p)); unfold has_char in *; simpl;
    rewrite ?Hq, ?Hf; reflexivity.
Qed.

Lemma split_scheme_assembled :
  split_scheme (url_head p ++ url_body p ++ url_tail (query p) (fragment p))
  = (scheme p, url_body p ++ url_tail (query p) (fragment p)).
Proof.
  unfold url_head. destruct (can_scheme p Hcan) as [Hs|[c [pre [Hs [Ha [Hf Hl]]]]]].
  - rewrite Hs. cbn [nonempty app].
    destruct url_body_cases as [[-> _]|[Hn [-> H2]]].
    + apply split_scheme_slash.
    + destruct (can_colon p Hcan Hs Hn) as [H|H].
      * destruct (startswith_slash _ H) as [t ->]. apply split_scheme_slash.
      * apply split_scheme_no_colon. rewrite has_char_app, H, tail_no_colon. reflexivity.
  - rewrite Hs in *. cbn [nonempty]. rewrite <- app_assoc. cbn [app].
    unfold split_scheme.
    change (c :: pre ++ 58 :: ?r) with ((c :: pre) ++ 58 :: r).
    rewrite (cut_found 58 (c :: pre) _ (scheme_char_not_colon _ Hf)).
    rewrite Ha, Hf. cbn [andb]. rewrite Hl. reflexivity.
Qed.

Lemma netloc_assembled :
  match url_body p ++ url_tail (query p) (fragment p) with
  | 47 :: 47 :: after =>
      let '(nl, rest) := splitnetloc after in
      if xorb (has_char 91 nl) (has_char 93 nl) then Raise ValueError
      else if has_char 91 nl && negb (bracketed_host_ok db (bracketed_host nl))
      then Raise ValueError
      else Ok (nl, rest)
  | _ => Ok ([], url_body p ++ url_tail (query p) (fragment p))
  end = Ok (netloc p, path p ++ url_tail (query p) (fragment p)).
Proof.
  assert (Hstop : Forall (fun c => c <> 47 /\ c <> 63 /\ c <> 35) (netloc p)).
  { eapply List.Forall_impl; [|exact (can_netloc p Hcan)]. simpl. intros a H. tauto. }
  assert (H91 : has_char 91 (netloc p) = false).
  { apply (has_char_Forall 91 _ _ (can_netloc p Hcan)). intros H. tauto. }
  assert (H93 : has_char 93 (netloc p) = false).
  { apply (has_char_Forall 93 _ _ (can_netloc p Hcan)). intros H. tauto. }
  destruct url_body_cases as [[-> Hroot]|[Hn [-> H2]]].
  - cbn [app]. rewrite <- app_assoc.
    rewrite (splitnetloc_stop _ _ Hstop (rest_stops _ _ _ Hroot)).
    rewrite H91, H93. reflexivity.
  - rewrite Hn.
    destruct (double_slash_case
                (fun after : str =>
                   let '(nl, rest) := splitnetloc after in
                   if xorb (has_char 91 nl) (has_char 93 nl)
                   then @Raise (str * str) ValueError
                   else if has_char 91 nl
                           && negb (bracketed_host_ok db (bracketed_host nl))
                   then Raise ValueError
                   else Ok (nl, rest))
                (Ok ([], path p ++ url_tail (query p) (fragment p)))
                (path p ++ url_tail (query p) (fragment p))) as [[after Heq]|Hd].
    + exfalso. destruct (path p) as [|a [|b t]].
      * destruct (url_tail_start (query p) (fragment p)) as [E|[c [t [E Hc]]]];
          simpl in Heq; rewrite E in Heq; [discriminate|].
        injection Heq as -> _. unfold url_tail in E.
        destruct (nonempty (query p)); [discriminate|].
        destruct (nonempty (fragment p)); discriminate.
      * simpl in Heq. injection Heq as -> Heq.
        unfold url_tail in Heq.
        destruct (nonempty (query p)); [discriminate|].
        destruct (nonempty (fragment p)); discriminate.
      * simpl in Heq. injection Heq as -> -> _. discriminate.
    + exact Hd.
Qed.

Lemma cut_fragment_assembled :
  (cut 35 (path p ++ url_tail (query p) (fragment p))
   = Some (path p ++ (if nonempty (query p) then 63 :: query p else []), fragment p))
  \/ (cut 35 (path p ++ url_tail (query p) (fragment p)) = None
      /\ fragment p = []
      /\ path p ++ url_tail (query p) (fragment p)
         = path p ++ (if nonempty (query p) then 63 :: query p else [])).
Proof.
  assert (Hp35 : has_char 35 (path p) = false).
  { apply (has_char_Forall 35 _ _ (can_path p Hcan)). intros H. tauto. }
  assert (Hq35 : has_char 35 (query p) = false).
  { apply (has_char_Forall 35 _ _ (can_query p Hcan)). intros H. tauto. }
  assert (Hqp : has_char 35 (path p ++ (if nonempty (query p) then 63 :: query p else []))
                = false).
  { rewrite has_char_app, Hp35. destruct (nonempty (query p)); [|reflexivity].
    unfold has_char in *. simpl. exact Hq35. }
  unfold url_tail. rewrite app_assoc.
  destruct (nonempty (fragment p)) eqn:Hf.
  - left. apply (cut_found 35 _ _ Hqp).
  - right. rewrite app_nil_r. split; [apply (cut_none 35 _ Hqp)|].
    split; [apply (nonempty_false _ Hf) | reflexivity].
Qed.

Lemma cut_query_assembled :
  (cut 63 (path p ++ (if nonempty (query p) then 63 :: query p else []))
   = Some (path p, query p))
  \/ (cut 63 (path p ++ (if nonempty (query p) then 63 :: query p else [])) = None
      /\ query p = []
      /\ path p ++ (if nonempty (query p) then 63 :: query p else []) = path p).
Proof.
  assert (Hp63 : has_char 63 (path p) = false).
  { apply (has_char_Forall 63 _ _ (can_path p Hcan)). intros H. tauto. }
  destruct (nonempty (query p)) eqn:Hq.
  - left. apply (cut_found 63 _ _ Hp63).
  - right. rewrite app_nil_r. split; [apply (cut_none 63 _ Hp63)|].
    split; [apply (nonempty_false _ Hq) | reflexivity].
Qed.

Lemma assembled_printable : Forall printable (urlunsplit p).
Proof.
  rewrite urlunsplit_pieces.
  assert (Hsch : Forall printable (scheme p)).
  { destruct (can_scheme p Hcan) as [->|[c [pre [Hs [_ [Hf _]]]]]]; [constructor|].
    rewrite Hs. apply List.Forall_forall. intros x Hx.
    rewrite forallb_forall in Hf. specialize (Hf x Hx).
    unfold scheme_char, is_alpha_ascii, is_upper, is_lower, is_digit_ascii in Hf.
    unfold printable. bools. lia. }
  assert (Hnl : Forall printable (netloc p))
    by (eapply List.Forall_impl; [|exact (can_netloc p Hcan)]; simpl; intros a H; tauto).
  assert (Hpa : Forall printable (path p))
    by (eapply List.Forall_impl; [|exact (can_path p Hcan)]; simpl; intros a H; tauto).
  assert (Hqu : Forall printable (query p))
    by (eapply List.Forall_impl; [|exact (can_query p Hcan)]; simpl; intros a H; tauto).
  assert (Hfr : Forall printable (fragment p))
    by (eapply List.Forall_impl; [|exact (can_fragment p Hcan)]; simpl; intros a H; tauto).
  assert (P47 : printable 47) by (unfold printable; lia).
  assert (P58 : printable 58) by (unfold printable; lia).
  assert (P63 : printable 63) by (unfold printable; lia).
  assert (P35 : printable 35) by (unfold printable; lia).
  apply Forall_app. split; [|apply Forall_app; split].
  - unfold url_head. destruct (nonempty (scheme p)); [|constructor].
    apply Forall_app. split; [exact Hsch | repeat constructor; exact P58].
  - destruct url_body_cases as [[-> _]|[_ [-> _]]]; [|exact Hpa].
    repeat constructor; try exact P47. apply Forall_app. split; assumption.
  - unfold url_tail. apply Forall_app. split.
    + destruct (nonempty (query p)); constructor; assumption.
    + destruct (nonempty (fragment p)); constructor; assumption.
Qed.

(** What [urlunsplit] assembles from canonical parts, [urlsplit] takes apart
    into the same parts. *)
Lemma urlsplit_urlunsplit : urlsplit db (urlunsplit p) = Ok p.
Proof.
  unfold urlsplit.
  rewrite (proj2 (printable_clean _ assembled_printable)).
  rewrite urlunsplit_pieces, split_scheme_assembled.
  pose proof netloc_assembled as Hnet.
  cbv beta iota zeta.
  match goal with
  | |- context [bind ?m _] =>
      replace m with (@Ok (str * str) (netloc p, path p ++ url_tail (query p) (fragment p)))
        by (symmetry; exact Hnet)
  end.
  cbn [bind]. cbv beta iota zeta.
  assert (Hascii : forallb is_ascii (netloc p) = true).
  { apply forallb_Forall_ascii. eapply List.Forall_impl; [|exact (can_netloc p Hcan)].
    simpl. unfold printable. intros a H. lia. }
  assert (Hchk : (match netloc p with [] => false | _ :: _ => negb (forallb is_ascii (netloc p)) end
                  && negb (nfkc_netloc_ok db (netloc p))) = false).
  { rewrite Hascii. destruct (netloc p); reflexivity. }
  destruct cut_fragment_assembled as [Hc1|[Hc1 [Hf Heq]]]; rewrite Hc1;
    cbv beta iota zeta; rewrite ?Heq;
    (destruct cut_query_assembled as [Hc2|[Hc2 [Hq Heq2]]]; rewrite Hc2;
     cbv beta iota zeta; rewrite Hchk; rewrite ?Heq2; destruct p; simpl in *; subst; reflexivity).
Qed.
End Canonical.
(** ** More on [normalize_url]: the shape of what [urlsplit] returns *)

Lemma lower_ascii_cases (c : N) :
  (65 <= c <= 90 /\ lower_ascii c = c + 32) \/ (~ 65 <= c <= 90 /\ lower_ascii c = c).
Proof.
  unfold lower_ascii, is_upper. flag (65 <=? c); flag (c <=? 90); cbn [andb];
    [left | right | right | right]; (split; [lia | reflexivity]).
Qed.

Lemma lower_ascii_idem (c : N) : lower_ascii (lower_ascii c) = lower_ascii c.
Proof.
  destruct (lower_ascii_cases c) as [[H E]|[H E]]; rewrite E; [|exact E].
  destruct (lower_ascii_cases (c + 32)) as [[H' E']|[H' E']]; [lia | exact E'].
Qed.

Lemma is_alpha_lower (c : N) :
  is_alpha_ascii c = true -> is_alpha_ascii (lower_ascii c) = true.
Proof.
  destruct (lower_ascii_cases c) as [[H ->]|[H ->]]; [|tauto].
  intros _. unfold is_alpha_ascii, is_upper, is_lower. bools. lia.
Qed.

Lemma scheme_char_lower (c : N) :
  scheme_char c = true -> scheme_char (lower_ascii c) = true.
Proof.
  destruct (lower_ascii_cases c) as [[H ->]|[H ->]]; [|tauto].
  intros _. unfold scheme_char, is_alpha_ascii, is_upper, is_lower. bools. lia.
Qed.

Lemma split_scheme_ok (s : str) : scheme_ok (fst (split_scheme s)).
Proof.
  unfold split_scheme.
  destruct (cut 58 s) as [[[|c pre] rest]|]; cbn [fst]; try (left; reflexivity).
  destruct (is_alpha_ascii c && forallb scheme_char (c :: pre)) eqn:H; cbn [fst];
    [|left; reflexivity].
  apply andb_true_iff in H. destruct H as [Ha Hs].
  right. exists (lower_ascii c), (List.map lower_ascii pre).
  split; [reflexivity|]. split; [exact (is_alpha_lower c Ha)|]. split.
  - change (forallb scheme_char (List.map lower_ascii (c :: pre)) = true).
    apply List.forallb_forall. intros x Hx. apply List.in_map_iff in Hx.
    destruct Hx as [x0 [<- Hx0]].
    rewrite List.forallb_forall in Hs. exact (scheme_char_lower x0 (Hs x0 Hx0)).
  - rewrite List.map_map. apply List.map_ext. intros x. apply lower_ascii_idem.
Qed.

Lemma scheme_ok_lower (db : pylib) (s : str) : scheme_ok s -> lower db s = s.
Proof.
  intros [->|[c [pre [-> [_ [Hs Hl]]]]]]; [reflexivity|]. unfold lower.
  replace (forallb is_ascii (c :: pre)) with true; [exact Hl|].
  symmetry. apply List.forallb_forall. intros x Hx.
  rewrite List.forallb_forall in Hs. specialize (Hs x Hx).
  unfold scheme_char, is_alpha_ascii, is_upper, is_lower, is_digit_ascii, is_ascii in *.
  bools. lia.
Qed.

Lemma host_lower (db : pylib) (nl : str) :
  Forall (fun c => printable c /\ c <> 47 /\ c <> 63 /\ c <> 35 /\ c <> 91 /\ c <> 93) nl ->
  lower db nl = List.map lower_ascii nl
  /\ Forall (fun c => printable c /\ c <> 47 /\ c <> 63 /\ c <> 35 /\ c <> 91 /\ c <> 93)
       (List.map lower_ascii nl)
  /\ lower db (List.map lower_ascii nl) = List.map lower_ascii nl.
Proof.
  intros H.
  assert (Hlow : Forall (fun c => printable c /\ c <> 47 /\ c <> 63 /\ c <> 35
                                  /\ c <> 91 /\ c <> 93) (List.map lower_ascii nl)).
  { apply Forall_map. eapply List.Forall_impl; [|exact H]. cbv beta.
    unfold printable. intros c Hc.
    destruct (lower_ascii_cases c) as [[Hu ->]|[Hu ->]]; lia. }
  assert (Hascii : forall t,
             Forall (fun c => printable c /\ c <> 47 /\ c <> 63 /\ c <> 35
                              /\ c <> 91 /\ c <> 93) t -> forallb is_ascii t = true).
  { intros t Ht. apply forallb_Forall_ascii. eapply List.Forall_impl; [|exact Ht].
    cbv beta. unfold printable. intros c Hc. lia. }
  split; [|split; [exact Hlow|]].
  - unfold lower. rewrite (Hascii nl H). reflexivity.
  - unfold lower. rewrite (Hascii _ Hlow), List.map_map.
    apply List.map_ext. intros x. apply lower_ascii_idem.
Qed.

Lemma splitnetloc_shape (s : str) :
  Forall (fun c => c <> 47 /\ c <> 63 /\ c <> 35) (fst (splitnetloc s))
  /\ (snd (splitnetloc s) = []
      \/ exists c t, snd (splitnetloc s) = c :: t /\ (c = 47 \/ c = 63 \/ c = 35)).
Proof.
  induction s as [|c s [IH1 IH2]]; cbn [splitnetloc].
  - split; [constructor | left; reflexivity].
  - flag (c =? 47); [|flag (c =? 63); [|flag (c =? 35)]]; cbn [orb fst snd].
    1-3: split; [constructor | right; exists c, s; split; [reflexivity | tauto]].
    destruct (splitnetloc s) as [a b]. cbn [fst snd] in *.
    split; [constructor; [tauto | exact IH1] | exact IH2].
Qed.

(** The text before the first [k] of [s], as [urlsplit] takes it. *)
Lemma cut_head (k : N) (s : str) :
  match s with
  | [] => fst (match cut k s with Some pr => pr | None => (s, []) end) = []
  | c :: _ =>
      if c =? k then fst (match cut k s with Some pr => pr | None => (s, []) end) = []
      else exists t, fst (match cut k s with Some pr => pr | None => (s, []) end) = c :: t
  end.
Proof.
  destruct s as [|c s]; [reflexivity|]. cbn [cut].
  destruct (c =? k); [reflexivity|].
  destruct (cut k s) as [[a b]|]; eexists; reflexivity.
Qed.

(** After a network location the path is empty or starts with a slash. *)
Lemma path_after_netloc (url : str) :
  url = [] \/ (exists c t, url = c :: t /\ (c = 47 \/ c = 63 \/ c = 35)) ->
  let url1 := fst (match cut 35 url with Some pr => pr | None => (url, []) end) in
  let pth := fst (match cut 63 url1 with Some pr => pr | None => (url1, []) end) in
  pth = [] \/ startswith [47] pth = true.
Proof.
  intros Hurl url1 pth. subst url1 pth.
  destruct Hurl as [->|[c [t [-> Hc]]]]; [left; reflexivity|].
  pose proof (cut_head 35 (c :: t)) as H35. cbv beta iota in H35.
  destruct Hc as [->|[->| ->]].
  - change (47 =? 35) with false in H35. cbv iota in H35. destruct H35 as [t1 ->].
    pose proof (cut_head 63 (47 :: t1)) as H63. cbv beta iota in H63.
    change (47 =? 63) with false in H63. cbv iota in H63. destruct H63 as [t2 ->].
    right. apply startswith_spec. exists t2. reflexivity.
  - change (63 =? 35) with false in H35. cbv iota in H35. destruct H35 as [t1 ->].
    pose proof (cut_head 63 (63 :: t1)) as H63. cbv beta iota in H63.
    change (63 =? 63) with true in H63. cbv iota in H63. left. exact H63.
  - change (35 =? 35) with true in H35. cbv iota in H35. rewrite H35. left. reflexivity.
Qed.

Lemma urlsplit_shape (db : pylib) (u : str) (parts : SplitResult) :
  urlsplit db u = Ok parts ->
  scheme_ok (scheme parts)
  /\ Forall (fun c => c <> 47 /\ c <> 63 /\ c <> 35) (netloc parts)
  /\ (netloc parts <> [] -> path parts = [] \/ startswith [47] (path parts) = true).
Proof.
  unfold urlsplit.
  set (u1 := remove_char 10 (remove_char 13 (remove_char 9 (lstrip_by c0_or_space u)))).
  pose proof (split_scheme_ok u1) as Hsch.
  destruct (split_scheme u1) as [sch rest]. cbn [fst] in Hsch.
  match goal with
  | |- bind ?m _ = _ -> _ => destruct m as [[nl url]|e] eqn:Hm; [|discriminate]
  end.
  cbn [bind].
  assert (Hnet : Forall (fun c => c <> 47 /\ c <> 63 /\ c <> 35) nl
                 /\ (nl <> [] ->
                     url = [] \/ exists c t, url = c :: t /\ (c = 47 \/ c = 63 \/ c = 35))).
  { match type of Hm with
    | match rest with [] => ?d | _ => _ end = _ =>
        destruct (double_slash_case
                    (fun after =>
                       let '(nl, rest0) := splitnetloc after in
                       if xorb (has_char 91 nl) (has_char 93 nl) then Raise ValueError
                       else if has_char 91 nl
                               && negb (bracketed_host_ok db (bracketed_host nl))
                       then Raise ValueError
                       else Ok (nl, rest0)) d rest) as [[after ->]|Hd]
    end.
    - pose proof (splitnetloc_shape after) as Hshape.
      destruct (splitnetloc after) as [nl0 rest0]. cbn [fst snd] in Hshape.
      destruct (xorb (has_char 91 nl0) (has_char 93 nl0)); [discriminate|].
      destruct (has_char 91 nl0 && negb (bracketed_host_ok db (bracketed_host nl0)));
        [discriminate|].
      injection Hm as <- <-. split; [tauto | intros _; tauto].
    - assert (Hx : @Ok (str * str) ([], rest) = Ok (nl, url))
        by exact (eq_trans (eq_sym Hd) Hm).
      injection Hx as <- <-. split; [constructor | congruence]. }
  destruct Hnet as [Hnl Hurl].
  pose proof (fun H => path_after_netloc url (Hurl H)) as Hpath. cbv zeta in Hpath.
  destruct (match cut 35 url with Some pr => pr | None => (url, []) end) as [url1 frag].
  cbn [fst] in Hpath.
  destruct (match cut 63 url1 with Some pr => pr | None => (url1, []) end) as [url2 qry].
  cbn [fst] in Hpath.
  destruct (match nl with [] => false | _ :: _ => negb (forallb is_ascii nl) end
            && negb (nfkc_netloc_ok db nl)); [discriminate|].
  intros [= <-]. cbn [scheme netloc path]. auto.
Qed.
(** ** More on [normalize_url]: the result is a fixed point *)

Lemma unquote_parts_slash (t run : str) :
  exists r, unquote_parts (run ++ [47]) t = 47 :: r.
Proof.
  assert (Hend : forall run' : str,
             Utf8.decode (unquote_to_bytes (rev (run' ++ [47])))
             = 47 :: Utf8.decode (unquote_to_bytes (rev run'))).
  { intros run'. rewrite rev_app_distr. cbn [rev app unquote_to_bytes].
    change (47 =? 37) with false. cbv iota. apply decode_ascii. lia. }
  revert run. induction t as [|c t IH]; intros run; cbn [unquote_parts].
  - rewrite Hend. eexists. reflexivity.
  - destruct (is_ascii c).
    + apply (IH (c :: run)).
    + rewrite Hend. eexists. reflexivity.
Qed.

Lemma unquote_slash (s : str) :
  startswith [47] s = true -> startswith [47] (unquote s) = true.
Proof.
  intros H. unfold unquote. destruct (has_char 37 s); [|exact H].
  apply startswith_spec in H. destruct H as [t ->]. cbn [app unquote_parts].
  change (is_ascii 47) with true. cbv iota.
  destruct (unquote_parts_slash t []) as [r Hr]. cbn [app] in Hr. rewrite Hr.
  apply startswith_spec. exists r. reflexivity.
Qed.

Lemma quote_slash (s safe q : str) :
  startswith [47] s = true -> is_safe safe 47 = true ->
  quote s safe = Ok q -> startswith [47] q = true.
Proof.
  intros H Hsafe. apply startswith_spec in H. destruct H as [t ->].
  unfold quote. cbn [app Utf8.encode].
  change (Utf8.encode_char 47) with (Some [47]). cbv iota.
  destruct (Utf8.encode t) as [bs|]; cbn [bind]; [|discriminate].
  intros [= <-]. cbn [app List.map List.concat]. unfold quote_byte at 1.
  rewrite Hsafe. apply startswith_spec. eexists. reflexivity.
Qed.

Lemma quote_no_colon (s safe q : str) :
  has_char 58 s = false -> quote s safe = Ok q -> has_char 58 q = false.
Proof.
  intros Hs Hq. apply not_true_iff_false. intros Hc.
  apply existsb_exists in Hc. destruct Hc as [x [Hx Hx58]].
  apply N.eqb_eq in Hx58. subst x.
  destruct (quote_chars s safe q 58 Hq Hx) as [H|[_ Hin]]; [lia|].
  apply not_true_iff_false in Hs. apply Hs.
  apply existsb_exists. exists 58. split; [exact Hin | reflexivity].
Qed.

Section Normalized.
Variables (db : pylib) (parts : SplitResult) (p' q' f' : str).
Hypothesis Hscheme : scheme_ok (scheme parts).
Hypothesis Hhost :
  Forall (fun c => printable c /\ c <> 47 /\ c <> 63 /\ c <> 35 /\ c <> 91 /\ c <> 93)
    (netloc parts).
Hypothesis Hrooted :
  netloc parts <> [] -> path parts = [] \/ startswith [47] (path parts) = true.
Hypothesis Hcolon :
  scheme parts <> [] \/ netloc parts <> [] \/ startswith [47] (path parts) = true
  \/ has_char 58 (unquote (path parts)) = false.
Hypothesis Hp : quote (unquote (path parts)) (lit "/~%:@!$&'()*+,;=") = Ok p'.
Hypothesis Hq : quote (unquote (query parts)) (lit "=&%") = Ok q'.
Hypothesis Hf : quote (unquote (fragment parts)) [] = Ok f'.

Lemma normalized_path_rooted :
  path parts = [] \/ startswith [47] (path parts) = true ->
  p' = [] \/ startswith [47] p' = true.
Proof.
  intros [He|Hs].
  - left. rewrite He in Hp. vm_compute in Hp. congruence.
  - right.
    apply (quote_slash (unquote (path parts)) (lit "/~%:@!$&'()*+,;=") p');
      [apply unquote_slash, Hs | reflexivity | exact Hp].
Qed.

Lemma normalized_canonical :
  canonical (mkSplit (lower db (scheme parts)) (lower db (netloc parts)) p' q' f').
Proof.
  destruct (host_lower db (netloc parts) Hhost) as [Hl [Hlow _]].
  constructor; cbn [scheme netloc path query fragment].
  - rewrite (scheme_ok_lower db _ Hscheme). exact Hscheme.
  - rewrite Hl. exact Hlow.
  - apply List.Forall_forall. intros c Hc.
    destruct (quote_chars _ _ _ c Hp Hc) as [H|[H _]].
    + unfold printable. lia.
    + apply path_safe_chars in H. unfold printable. lia.
  - apply List.Forall_forall. intros c Hc.
    destruct (quote_chars _ _ _ c Hq Hc) as [H|[H _]].
    + unfold printable. lia.
    + apply query_safe_chars in H. unfold printable. lia.
  - apply List.Forall_forall. intros c Hc.
    destruct (quote_chars _ _ _ c Hf Hc) as [H|[H _]].
    + unfold printable. lia.
    + apply fragment_safe_chars in H. unfold printable. lia.
  - intros Hn. apply normalized_path_rooted, Hrooted.
    intros He. apply Hn. rewrite Hl, He. reflexivity.
  - rewrite (scheme_ok_lower db _ Hscheme), Hl. intros Hs Hn.
    destruct Hcolon as [H|[H|[H|H]]].
    + contradiction.
    + exfalso. apply H. destruct (netloc parts); [reflexivity | discriminate].
    + destruct (normalized_path_rooted (or_intror H)) as [->|H']; [right; reflexivity|].
      left. exact H'.
    + right. exact (quote_no_colon _ _ _ H Hp).
Qed.
End Normalized.

(** X4. What [normalize_url] returns is a URL that [normalize_url] returns
    unchanged, when the network location of the input is printable ASCII
    without square brackets, the decoded path and query hold no percent sign,
    and the path, where it comes without scheme and network location, starts
    with a slash or decodes to a text without colon. *)
Theorem normalize_url_result_is_fixed (db : pylib) (x y : str) (parts : SplitResult) :
  urlsplit db (strip x) = Ok parts ->
  normalize_url db x = Ok y ->
  Forall (fun c => printable c /\ c <> 91 /\ c <> 93) (netloc parts) ->
  has_char 37 (unquote (path parts)) = false ->
  has_char 37 (unquote (query parts)) = false ->
  (scheme parts <> [] \/ netloc parts <> [] \/ startswith [47] (path parts) = true
   \/ has_char 58 (unquote (path parts)) = false) ->
  normalize_url db y = Ok y.
Proof.
  intros Hsplit Hnorm Hnet Hp37 Hq37 Hcolon.
  destruct (urlsplit_shape db _ parts Hsplit) as [Hscheme [Hsep Hrooted]].
  assert (Hhost : Forall (fun c => printable c /\ c <> 47 /\ c <> 63 /\ c <> 35
                                   /\ c <> 91 /\ c <> 93) (netloc parts)).
  { apply List.Forall_forall. intros c Hc.
    rewrite List.Forall_forall in Hnet, Hsep.
    specialize (Hnet c Hc). specialize (Hsep c Hc). tauto. }
  unfold normalize_url in Hnorm. rewrite Hsplit in Hnorm. cbn [bind] in Hnorm.
  destruct (quote (unquote (path parts)) (lit "/~%:@!$&'()*+,;=")) as [p'|] eqn:Hp;
    [|discriminate].
  destruct (quote (unquote (query parts)) (lit "=&%")) as [q'|] eqn:Hq; [|discriminate].
  destruct (quote (unquote (fragment parts)) []) as [f'|] eqn:Hf; [|discriminate].
  cbn [bind] in Hnorm. injection Hnorm as <-.
  pose proof (normalized_canonical db parts p' q' f' Hscheme Hhost Hrooted Hcolon Hp Hq Hf)
    as Hcan.
  set (n := mkSplit (lower db (scheme parts)) (lower db (netloc parts)) p' q' f') in *.
  unfold normalize_url.
  rewrite (proj1 (printable_clean _ (assembled_printable n Hcan))).
  rewrite (urlsplit_urlunsplit db n Hcan). cbn [bind].
  destruct (host_lower db (netloc parts) Hhost) as [Hl [_ Hll]].
  subst n. cbn [scheme netloc path query fragment].
  rewrite (scheme_ok_lower db _ Hscheme), (scheme_ok_lower db _ Hscheme).
  rewrite Hl, Hll.
  rewrite (unquote_quote _ _ _ Hp (or_introl Hp37)), Hp. cbn [bind].
  rewrite (unquote_quote _ _ _ Hq (or_introl Hq37)), Hq. cbn [bind].
  rewrite (unquote_quote _ _ _ Hf (or_intror eq_refl)), Hf. cbn [bind].
  reflexivity.
Qed.

Lemma normalize_url_result_is_fixed_witness :
  normalize_url example_lib (lit " HTTP://Example.com/a%2Fb c?q=1#Top ")
  = Ok (lit "http://example.com/a/b%20c?q=1#Top")
  /\ normalize_url example_lib (lit "http://example.com/a/b%20c?q=1#Top")
     = Ok (lit "http://example.com/a/b%20c?q=1#Top").
Proof.
  assert (H : normalize_url example_lib (lit " HTTP://Example.com/a%2Fb c?q=1#Top ")
              = Ok (lit "http://example.com/a/b%20c?q=1#Top"))
    by (vm_compute; reflexivity).
  split; [exact H|].
  apply (normalize_url_result_is_fixed example_lib
           (lit " HTTP://Example.com/a%2Fb c?q=1#Top ") _
           (mkSplit (lit "http") (lit "Example.com") (lit "/a%2Fb c") (lit "q=1") (lit "Top"))).
  - vm_compute. reflexivity.
  - exact H.
  - cbn [netloc]. apply List.Forall_forall. intros c Hc. vm_compute in Hc.
    unfold printable. repeat (destruct Hc as [<-|Hc]; [lia|]). destruct Hc.
  - vm_compute. reflexivity.
  - vm_compute. reflexivity.
  - left. discriminate.
Defined.

(** ** More on the scraper: the page chrome *)

(** Induction on a document tree, with the property for every child. *)
Lemma node_children_ind (P : node -> Prop) :
  (forall k s, P (NavigableString k s)) ->
  (forall n a cs, Forall P cs -> P (Tag n a cs)) ->
  forall e, P e.
Proof.
  intros HN HT. fix IH 1. intros [k s|n a cs]; [apply HN|]. apply HT.
  induction cs as [|c cs IHcs]; constructor; [apply IH | exact IHcs].
Qed.

Lemma is_chrome_remove_chrome (c : node) : is_chrome (remove_chrome c) = is_chrome c.
Proof. destruct c; reflexivity. Qed.

(** X5. After the chrome is removed from the body of an article, no element
    below it is a script, a style sheet, a post footer or a comment section,
    at any depth; and a body that holds none of them is left as it is. *)
Theorem remove_chrome_leaves_no_chrome (elem : node) :
  chrome_free (remove_chrome elem) = true
  /\ (chrome_free elem = true -> remove_chrome elem = elem)
  /\ remove_chrome (remove_chrome elem) = remove_chrome elem.
Proof.
  assert (Hfree : forall e, chrome_free (remove_chrome e) = true).
  { induction e as [k s|n a cs IH] using node_children_ind; [reflexivity|].
    cbn [remove_chrome chrome_free].
    induction IH as [|c cs Hc Hcs IHcs]; [reflexivity|].
    destruct (is_chrome c) eqn:Hch; [exact IHcs|].
    cbn [forallb]. rewrite is_chrome_remove_chrome, Hch, Hc. exact IHcs. }
  assert (Hfix : forall e, chrome_free e = true -> remove_chrome e = e).
  { induction e as [k s|n a cs IH] using node_children_ind; [reflexivity|].
    cbn [remove_chrome chrome_free]. intros H. f_equal.
    induction IH as [|c cs Hc Hcs IHcs]; [reflexivity|].
    cbn [forallb] in H. apply andb_true_iff in H. destruct H as [H1 H2].
    apply andb_true_iff in H1. destruct H1 as [Hn Hf].
    apply negb_true_iff in Hn. rewrite Hn, (Hc Hf), (IHcs H2). reflexivity. }
  split; [apply Hfree | split; [apply Hfix | apply Hfix, Hfree]].
Qed.

(** ** More on the scraper: what the batch loop counts *)

Lemma wrote_skipped_effect (e : effect) (effs : list effect) :
  (length (wrote (e :: effs)) + length (skipped (e :: effs))
   = match e with Visited _ => 0 | _ => 1 end
     + (length (wrote effs) + length (skipped effs)))%nat.
Proof.
  unfold wrote, skipped. cbn [List.map List.concat]. rewrite !length_app.
  destruct e; cbn [length]; lia.
Qed.

(** X6. The number the batch loop reports as saved counts every article
    whose page was fetched: the files written and, as well, the articles
    that [save_article_to_markdown] skipped because they had no content. *)
Theorem saved_count_counts_skipped (db : pylib) (w : web) (all_articles : list listed)
    (n m : Z) (effs : list effect) :
  crawl_articles db w all_articles n = (effs, Ok m) ->
  m = (n + Z.of_nat (length (wrote effs)) + Z.of_nat (length (skipped effs)))%Z
  /\ Forall (fun a => art_content a <> None /\ art_content a <> Some []) (wrote effs)
  /\ Forall (fun a => art_content a = None \/ art_content a = Some []) (skipped effs).
Proof.
  revert n m effs. induction all_articles as [|a rest IH]; intros n m effs; cbn [crawl_articles].
  - intros [= <- <-]. unfold wrote, skipped. cbn [List.map List.concat length].
    cbn [Z.of_nat]. rewrite !Z.add_0_r. split; [reflexivity | split; constructor].
  - destruct (extract_article_content db w (l_url a)) as [[full|]|e]; [| |discriminate].
    + destruct (crawl_articles db w rest (n + 1)%Z) as [effs' r] eqn:Hrest.
      intros [= <- ->]. destruct (IH _ _ _ Hrest) as [Hm [Hw Hs]].
      split; [|split].
      * pose proof (wrote_skipped_effect (Visited (l_url a))
                      (save_article_to_markdown (merge_listed full a) :: effs')) as H1.
        pose proof (wrote_skipped_effect (save_article_to_markdown (merge_listed full a))
                      effs') as H2.
        assert (H3 : match save_article_to_markdown (merge_listed full a) with
                     | Visited _ => 0%nat | _ => 1%nat end = 1%nat).
        { unfold save_article_to_markdown.
          destruct (art_content (merge_listed full a)) as [[|c t]|]; reflexivity. }
        cbv beta iota in H1. rewrite H3 in H2. lia.
      * unfold wrote in *. cbn [List.map List.concat app].
        unfold save_article_to_markdown.
        destruct (art_content (merge_listed full a)) as [[|c t]|] eqn:Hc;
          cbn [app]; try exact Hw.
        constructor; [|exact Hw]. rewrite Hc. split; discriminate.
      * unfold skipped in *. cbn [List.map List.concat app].
        unfold save_article_to_markdown.
        destruct (art_content (merge_listed full a)) as [[|c t]|] eqn:Hc;
          cbn [app]; try exact Hs.
        -- constructor; [|exact Hs]. right. exact Hc.
        -- constructor; [|exact Hs]. left. exact Hc.
    + destruct (crawl_articles db w rest n) as [effs' r] eqn:Hrest.
      intros [= <- ->]. destruct (IH _ _ _ Hrest) as [Hm [Hw Hs]].
      split; [|split; assumption].
      pose proof (wrote_skipped_effect (Visited (l_url a)) effs') as H1.
      cbv beta iota in H1. lia.
Qed.

Lemma saved_count_counts_skipped_witness :
  let run := crawl_articles example_lib (fun _ => Ok bare_soup)
               [mkListed (lit "T") (lit "https://example.com/2024/01/t.html")
                  (mkdate 2024 1 1) (lit "L")] 0 in
  snd run = Ok 1%Z /\ wrote (fst run) = [] /\ length (skipped (fst run)) = 1%nat.
Proof.
  cbv zeta.
  destruct (crawl_articles example_lib (fun _ => Ok bare_soup)
              [mkListed (lit "T") (lit "https://example.com/2024/01/t.html")
                 (mkdate 2024 1 1) (lit "L")] 0) as [effs r] eqn:Hrun.
  assert (Hr : r = Ok 1%Z) by (vm_compute in Hrun; congruence).
  subst r. cbn [fst snd].
  destruct (saved_count_counts_skipped _ _ _ _ _ _ Hrun) as [Hm [Hw Hs]].
  assert (Hw0 : wrote effs = []) by (vm_compute in Hrun; injection Hrun as <-; reflexivity).
  split; [reflexivity | split; [exact Hw0|]]. rewrite Hw0 in Hm. cbn in Hm. lia.
Defined.

(** ** More on the scraper: dates from addresses *)

Lemma datetime_Ok (y m d : Z) (dt : date) :
  datetime y m d = Ok dt ->
  (dt = mkdate y m d /\ 1 <= y <= 9999 /\ 1 <= m <= 12 /\ 1 <= d <= days_in_month y m)%Z.
Proof.
  unfold datetime.
  destruct ((1 <=? y) && (y <=? 9999) && (1 <=? m) && (m <=? 12)
            && (1 <=? d) && (d <=? days_in_month y m))%Z eqn:H; [|discriminate].
  intros [= <-]. rewrite !andb_true_iff, !Z.leb_le in H. split; [reflexivity | lia].
Qed.

Lemma parse_date_from_url_Some (db : pylib) (url : str) (d : date) :
  parse_date_from_url db url = Ok (Some d) ->
  (day d = 1 /\ 1 <= month d <= 12 /\ 1 <= year d <= 9999)%Z.
Proof.
  unfold parse_date_from_url. destruct (url_date_search db url) as [[y m]|]; [|discriminate].
  destruct (datetime (Z.of_N y) (Z.of_N m) 1) as [dt|e] eqn:Hdt; [|discriminate].
  cbn [bind]. intros [= <-]. apply datetime_Ok in Hdt.
  destruct Hdt as [-> H]. cbn [year month day]. lia.
Qed.

(** X7. [parse_date_from_url] gives the first day of a month of the calendar,
    or nothing, or it raises [ValueError]: an address whose digits name no
    month, as [/2024/13/], is not answered with [None]. A date that
    [is_in_year_range] accepts is of the years 2023 to 2025. *)
Theorem parse_date_from_url_outcomes (db : pylib) (url : str) :
  (forall d, parse_date_from_url db url = Ok (Some d) ->
     (day d = 1 /\ 1 <= month d <= 12 /\ 1 <= year d <= 9999)%Z)
  /\ (forall e, parse_date_from_url db url = Raise e -> e = ValueError)
  /\ (forall r, parse_date_from_url db url = Ok r -> is_in_year_range r = true ->
        exists d, r = Some d /\ (2023 <= year d <= 2025)%Z /\ day d = 1%Z)
  /\ parse_date_from_url db (lit "https://www.hecaitou.com/2024/01/a.html")
     = Ok (Some (mkdate 2024 1 1))
  /\ parse_date_from_url db (lit "https://www.hecaitou.com/2024/13/a.html")
     = Raise ValueError
  /\ parse_date_from_url db (lit "https://www.hecaitou.com/p/about.html") = Ok None.
Proof.
  split; [exact (parse_date_from_url_Some db url)|]. split; [|split].
  - intros e. unfold parse_date_from_url.
    destruct (url_date_search db url) as [[y m]|]; [|discriminate].
    destruct (datetime (Z.of_N y) (Z.of_N m) 1) as [dt|e'] eqn:Hdt; [discriminate|].
    cbn [bind]. intros [= <-]. exact (datetime_raises _ _ _ _ Hdt).
  - intros [d|] Hr Hin; [|discriminate]. exists d. split; [reflexivity|].
    unfold is_in_year_range, YEAR_RANGE in Hin. cbn [fst snd] in Hin.
    rewrite andb_true_iff, !Z.leb_le in Hin.
    split; [lia | exact (proj1 (parse_date_from_url_Some db url d Hr))].
  - split; [|split]; reflexivity.
Qed.

(** ** More on the scraper: the articles to fetch *)

Section Collected.
Variable db : pylib.


Lemma label_loop_good (label : str) (post_links : list (str * str)) :
  forall seen articles,
    label_loop db label post_links seen = Ok articles -> Forall (listed_ok db) articles.
Proof.
  induction post_links as [|[title href] rest IH]; intros seen articles; cbn [label_loop].
  - intros [= <-]. constructor.
  - destruct (bool_decide (href ∈ seen)); [apply IH|].
    destruct (parse_date_from_url db href) as [date|] eqn:Hd; [|discriminate].
    cbn [bind].
    destruct (label_loop db label rest ({[href]} ∪ seen)) as [more|] eqn:Hm; [|discriminate].
    cbn [bind]. intros [= <-]. specialize (IH _ _ Hm).
    destruct date as [d|]; [|exact IH].
    destruct (is_in_year_range (Some d)) eqn:Hin; [|exact IH].
    constructor; [split; assumption | exact IH].
Qed.

Lemma search_loop_good (label : str) (post_links : list (str * str)) :
  forall seen articles,
    search_loop db label post_links seen = Ok articles -> Forall (listed_ok db) articles.
Proof.
  induction post_links as [|[title href] rest IH]; intros seen articles; cbn [search_loop].
  - intros [= <-]. constructor.
  - destruct (negb (bool_decide (href ∈ seen)) && contains (lit ".html") href);
      [|apply IH].
    destruct (parse_date_from_url db href) as [date|] eqn:Hd; [|discriminate].
    cbn [bind].
    destruct (search_loop db label rest ({[href]} ∪ seen)) as [more|] eqn:Hm; [|discriminate].
    cbn [bind]. intros [= <-]. specialize (IH _ _ Hm).
    destruct date as [d|]; [|exact IH].
    destruct (is_in_year_range (Some d)) eqn:Hin; [|exact IH].
    constructor; [split; assumption | exact IH].
Qed.

Lemma inv_add (seen : gset str) (all : list listed) (a : listed) :
  collect_inv db (seen, all) -> listed_ok db a -> l_url a ∉ seen ->
  collect_inv db ({[ l_url a ]} ∪ seen, all ++ [a]).
Proof.
  unfold collect_inv. cbn [fst snd]. intros [Hnd [Hseen Hgood]] Ha Hnew. split; [|split].
  - rewrite List.map_app. cbn [List.map]. apply List.NoDup_app; [exact Hnd | |].
    + constructor; [intros [] | constructor].
    + intros u Hu [<-|[]]. apply List.in_map_iff in Hu. destruct Hu as [b [Hb Hin]].
      apply Hnew. rewrite <- Hb. apply Hseen, Hin.
  - intros b Hb. apply List.in_app_iff in Hb. destruct Hb as [Hb|[<-|[]]].
    + apply elem_of_union_r, Hseen, Hb.
    + apply elem_of_union_l, elem_of_singleton. reflexivity.
  - apply Forall_app. split; [exact Hgood | constructor; [exact Ha | constructor]].
Qed.

Lemma add_unseen_inv (articles : list listed) :
  forall seen all,
    collect_inv db (seen, all) -> Forall (listed_ok db) articles ->
    collect_inv db (add_unseen articles seen all).
Proof.
  induction articles as [|a rest IH]; intros seen all Hinv Hgood; cbn [add_unseen];
    [exact Hinv|].
  inversion Hgood as [|? ? Ha Hrest]; subst.
  destruct (bool_decide (l_url a ∈ seen)) eqn:Hseen.
  - apply IH; assumption.
  - apply bool_decide_eq_false in Hseen. apply IH; [|exact Hrest].
    apply inv_add; assumption.
Qed.

Lemma get_articles_from_label_page_good (w : index_web) (label label_url : str)
    (articles : list listed) :
  get_articles_from_label_page db w label label_url = Ok articles ->
  Forall (listed_ok db) articles.
Proof.
  unfold get_articles_from_label_page.
  destruct (get_index_page w (urljoin BASE_URL label_url)) as [[p|]|]; cbn [bind];
    [apply label_loop_good | intros [= <-]; constructor | discriminate].
Qed.

Lemma get_articles_from_search_good (w : index_web) (keyword : str)
    (articles : list listed) :
  get_articles_from_search db w keyword = Ok articles -> Forall (listed_ok db) articles.
Proof.
  unfold get_articles_from_search.
  destruct (get_index_page w (BASE_URL ++ lit "/search?q=" ++ keyword)) as [[p|]|];
    cbn [bind]; [apply search_loop_good | intros [= <-]; constructor | discriminate].
Qed.

Lemma collect_labels_inv (w : index_web) (labels : list (str * str)) :
  forall seen all st,
    collect_inv db (seen, all) -> collect_labels db w labels seen all = Ok st -> collect_inv db st.
Proof.
  induction labels as [|[label label_url] rest IH]; intros seen all st Hinv;
    cbn [collect_labels].
  - intros [= <-]. exact Hinv.
  - destruct (get_articles_from_label_page db w label label_url) as [articles|] eqn:Ha;
      [|discriminate].
    cbn [bind].
    pose proof (add_unseen_inv articles seen all Hinv
                  (get_articles_from_label_page_good _ _ _ _ Ha)) as Hnext.
    destruct (add_unseen articles seen all) as [seen' all']. apply IH, Hnext.
Qed.

Lemma collect_searches_inv (w : index_web) (keywords : list str) :
  forall seen all st,
    collect_inv db (seen, all) -> collect_searches db w keywords seen all = Ok st ->
    collect_inv db st.
Proof.
  induction keywords as [|keyword rest IH]; intros seen all st Hinv;
    cbn [collect_searches].
  - intros [= <-]. exact Hinv.
  - destruct (get_articles_from_search db w keyword) as [articles|] eqn:Ha;
      [|discriminate].
    cbn [bind].
    pose proof (add_unseen_inv articles seen all Hinv
                  (get_articles_from_search_good _ _ _ Ha)) as Hnext.
    destruct (add_unseen articles seen all) as [seen' all']. apply IH, Hnext.
Qed.

Lemma collect_known_inv (urls : list str) :
  forall seen all st,
    collect_inv db (seen, all) -> collect_known db urls seen all = Ok st -> collect_inv db st.
Proof.
  induction urls as [|url rest IH]; intros seen all st Hinv; cbn [collect_known].
  - intros [= <-]. exact Hinv.
  - destruct (bool_decide (url ∈ seen)) eqn:Hseen; [apply IH, Hinv|].
    apply bool_decide_eq_false in Hseen.
    destruct (parse_date_from_url db url) as [[d|]|] eqn:Hd; cbn [bind];
      [|apply IH, Hinv | discriminate].
    destruct (is_in_year_range (Some d)) eqn:Hin; [|apply IH, Hinv].
    apply IH.
    apply (inv_add seen all (mkListed (u8 "待获取") url d (u8 "已知文章")) Hinv);
      [split; assumption | exact Hseen].
Qed.

Lemma collect_articles_inv (w : index_web) (all : list listed) :
  collect_articles db w = Ok all ->
  List.NoDup (List.map l_url all) /\ Forall (listed_ok db) all.
Proof.
  unfold collect_articles.
  destruct (collect_labels db w TARGET_LABELS ∅ []) as [s1|] eqn:H1; [|discriminate].
  cbn [bind].
  destruct (collect_searches db w SEARCH_KEYWORDS (fst s1) (snd s1)) as [s2|] eqn:H2;
    [|discriminate].
  cbn [bind].
  destruct (collect_known db KNOWN_ARTICLES (fst s2) (snd s2)) as [s3|] eqn:H3;
    [|discriminate].
  cbn [bind]. intros [= <-].
  assert (H0 : collect_inv db (∅, [])).
  { split; [constructor | split; [intros a [] | constructor]]. }
  pose proof (collect_labels_inv w _ _ _ _ H0 H1) as I1.
  destruct s1 as [seen1 all1]. pose proof (collect_searches_inv w _ _ _ _ I1 H2) as I2.
  destruct s2 as [seen2 all2]. pose proof (collect_known_inv _ _ _ _ I2 H3) as I3.
  destruct I3 as [Hnd [_ Hgood]]. split; assumption.
Qed.

Lemma crawl_articles_visited (w : web) (all : list listed) :
  forall n effs m,
    crawl_articles db w all n = (effs, Ok m) -> visited effs = List.map l_url all.
Proof.
  induction all as [|a rest IH]; intros n effs m; cbn [crawl_articles].
  - intros [= <-]. reflexivity.
  - destruct (extract_article_content db w (l_url a)) as [[full|]|e]; [| |discriminate].
    + destruct (crawl_articles db w rest (n + 1)%Z) as [effs' r] eqn:Hrest.
      intros [= <- ->]. unfold visited in *. cbn [List.map List.concat app].
      rewrite (IH _ _ _ Hrest).
      unfold save_article_to_markdown.
      destruct (art_content (merge_listed full a)) as [[|c t]|]; reflexivity.
    + destruct (crawl_articles db w rest n) as [effs' r] eqn:Hrest.
      intros [= <- ->]. unfold visited in *. cbn [List.map List.concat app].
      rewrite (IH _ _ _ Hrest). reflexivity.
Qed.

Lemma collected_good (w : index_web) (all : list listed) :
  collect_articles db w = Ok all ->
  List.NoDup (List.map l_url all)
  /\ Forall (fun a =>
               (2023 <= year (l_date a) <= 2025)%Z /\ (1 <= month (l_date a) <= 12)%Z
               /\ day (l_date a) = 1%Z
               /\ parse_date_from_url db (l_url a) = Ok (Some (l_date a))) all.
Proof.
  intros H. destruct (collect_articles_inv w all H) as [Hnd Hgood].
  split; [exact Hnd|]. eapply List.Forall_impl; [|exact Hgood].
  intros a [Hin Hp]. unfold is_in_year_range, YEAR_RANGE in Hin. cbn [fst snd] in Hin.
  rewrite andb_true_iff, !Z.leb_le in Hin.
  pose proof (parse_date_from_url_Some db _ _ Hp). tauto.
Qed.
End Collected.

(** X8. The articles [main] of the scraper sets out to fetch: no address is
    among them twice, each is of the years 2023 to 2025 with the date its
    address gives, the first day of a month; and a run of [main] that comes
    to its end has fetched the page of each of them once, in that order. *)
Theorem scraper_fetches_each_article_once (db : pylib) (iw : index_web) (w : web)
    (all_articles : list listed) :
  collect_articles db iw = Ok all_articles ->
  List.NoDup (List.map l_url all_articles)
  /\ Forall (fun a =>
               (2023 <= year (l_date a) <= 2025)%Z /\ (1 <= month (l_date a) <= 12)%Z
               /\ day (l_date a) = 1%Z
               /\ parse_date_from_url db (l_url a) = Ok (Some (l_date a))) all_articles
  /\ (forall effs n,
        scraper_main db iw w = (effs, Ok (Some n)) ->
        visited effs = List.map l_url all_articles /\ List.NoDup (visited effs)).
Proof.
  intros Hall. destruct (collected_good db iw all_articles Hall) as [Hnd Hgood].
  split; [exact Hnd | split; [exact Hgood|]].
  intros effs n. unfold scraper_main. rewrite Hall.
  destruct all_articles as [|a rest]; [discriminate|].
  destruct (crawl_articles db w (a :: rest) 0) as [effs' r] eqn:Hrun.
  destruct r as [m|e]; [|discriminate]. intros [= <- <-].
  rewrite (crawl_articles_visited db w _ _ _ _ Hrun). split; [reflexivity | exact Hnd].
Qed.

Lemma scraper_fetches_each_article_once_witness :
  collect_articles example_lib example_index = Ok example_collected
  /\ List.NoDup (List.map l_url example_collected).
Proof.
  assert (H : collect_articles example_lib example_index = Ok example_collected)
    by (vm_compute; reflexivity).
  split; [exact H|].
  exact (proj1 (scraper_fetches_each_article_once example_lib example_index
                  (fun _ => Raise RequestException) example_collected H)).
Defined.

(** ** The scraper and the audit: the file of an article is found again *)

Lemma lstrip_by_idem (p : N -> bool) (s : str) :
  lstrip_by p (lstrip_by p s) = lstrip_by p s.
Proof.
  induction s as [|c s IH]; [reflexivity|]. cbn [lstrip_by].
  destruct (p c) eqn:Hc; [exact IH|]. cbn [lstrip_by]. rewrite Hc. reflexivity.
Qed.

Lemma lstrip_by_head (p : N -> bool) (s : str) :
  lstrip_by p s = [] \/ exists c t, lstrip_by p s = c :: t /\ p c = false.
Proof.
  induction s as [|c s IH]; [left; reflexivity|]. cbn [lstrip_by].
  destruct (p c) eqn:Hc; [exact IH|]. right. exists c, s. split; [reflexivity | exact Hc].
Qed.

Lemma strip_idem (s : str) : strip (strip s) = strip s.
Proof.
  unfold strip at 2. set (t := lstrip_by is_space s).
  assert (Hr : rstrip_by is_space (rstrip_by is_space t) = rstrip_by is_space t).
  { unfold rstrip_by. rewrite rev_involutive, lstrip_by_idem. reflexivity. }
  assert (Hl : lstrip_by is_space (rstrip_by is_space t) = rstrip_by is_space t).
  { destruct (lstrip_by_head is_space s) as [He|[c [t' [He Hc]]]]; fold t in He; rewrite He.
    - reflexivity.
    - unfold rstrip_by. cbn [rev]. rewrite lstrip_by_app.
      destruct (forallb is_space (rev t')).
      + cbn [lstrip_by]. rewrite Hc. cbn [rev app lstrip_by]. rewrite Hc. reflexivity.
      + rewrite rev_app_distr. cbn [rev app lstrip_by]. rewrite Hc. reflexivity. }
  unfold strip. rewrite Hl. exact Hr.
Qed.

Lemma normalize_url_strip (db : pylib) (u : str) :
  normalize_url db (strip u) = normalize_url db u.
Proof. unfold normalize_url. rewrite strip_idem. reflexivity. Qed.

Lemma universal_newlines_clean (a b : str) :
  has_char 13 a = false ->
  universal_newlines (a ++ 10 :: b) = a ++ 10 :: universal_newlines b.
Proof.
  unfold has_char. induction a as [|x a IH]; intros H.
  - reflexivity.
  - cbn [existsb] in H. apply orb_false_iff in H. destruct H as [Hx Ha].
    cbn [app universal_newlines]. rewrite N.eqb_sym in Hx. rewrite Hx, (IH Ha).
    reflexivity.
Qed.

Lemma split_on_line (c : N) (a b : str) :
  has_char c a = false -> split_on c (a ++ c :: b) = a :: split_on c b.
Proof.
  unfold has_char. induction a as [|x a IH]; intros H.
  - cbn [app split_on]. rewrite N.eqb_refl. reflexivity.
  - cbn [existsb] in H. apply orb_false_iff in H. destruct H as [Hx Ha].
    cbn [app split_on]. rewrite N.eqb_sym in Hx. rewrite Hx, (IH Ha). reflexivity.
Qed.

Lemma link_prefix_chars : link_prefix = [45; 32; 38142; 25509; 65306].
Proof. vm_compute. reflexivity. Qed.

Lemma date_prefix_chars : u8 "- 日期：" = [45; 32; 26085; 26399; 65306].
Proof. vm_compute. reflexivity. Qed.

(** The text of the file, line by line up to the line of the link. *)
Lemma md_content_lines (title date_str url labels content : str) :
  md_content title date_str url labels content
  = (lit "# " ++ title) ++ 10 :: [] ++ 10 :: (u8 "- 日期：" ++ date_str) ++ 10
    :: (link_prefix ++ url) ++ 10
    :: u8 "- 标签：" ++ labels ++ [10; 10] ++ lit "---" ++ [10; 10] ++ content ++ [10].
Proof. unfold md_content, link_prefix. rewrite <- !app_assoc. reflexivity. Qed.

(** The text the scraper writes, read as the audit reads it: the line of the
    link is the first that the pattern of the audit matches. *)
Lemma search_link_md_content (title date_str url labels content : str) :
  one_line title -> one_line date_str -> one_line url ->
  search_link (universal_newlines (md_content title date_str url labels content))
  = Some url.
Proof.
  intros [Ht10 Ht13] [Hd10 Hd13] [Hu10 Hu13]. unfold search_link.
  rewrite md_content_lines.
  generalize (u8 "- 标签：" ++ labels ++ [10; 10] ++ lit "---" ++ [10; 10] ++ content ++ [10]).
  intros rest.
  assert (H1 : one_line (lit "# " ++ title)).
  { split; rewrite has_char_app; [rewrite Ht10 | rewrite Ht13]; reflexivity. }
  assert (S1 : startswith link_prefix (lit "# " ++ title) = false)
    by (rewrite link_prefix_chars; reflexivity).
  revert H1 S1. generalize (lit "# " ++ title). intros l1 H1 S1.
  assert (H3 : one_line (u8 "- 日期：" ++ date_str)).
  { rewrite date_prefix_chars.
    split; rewrite has_char_app; [rewrite Hd10 | rewrite Hd13]; reflexivity. }
  assert (S3 : startswith link_prefix (u8 "- 日期：" ++ date_str) = false)
    by (rewrite date_prefix_chars, link_prefix_chars; reflexivity).
  revert H3 S3. generalize (u8 "- 日期：" ++ date_str). intros l3 H3 S3.
  assert (H4 : one_line (link_prefix ++ url)).
  { rewrite link_prefix_chars.
    split; rewrite has_char_app; [rewrite Hu10 | rewrite Hu13]; reflexivity. }
  assert (S2 : startswith link_prefix [] = false)
    by (rewrite link_prefix_chars; reflexivity).
  assert (S4 : startswith link_prefix (link_prefix ++ url) = true)
    by (apply startswith_spec; exists url; reflexivity).
  rewrite (universal_newlines_clean l1 _ (proj2 H1)).
  rewrite (universal_newlines_clean [] _ eq_refl).
  rewrite (universal_newlines_clean l3 _ (proj2 H3)).
  rewrite (universal_newlines_clean (link_prefix ++ url) _ (proj2 H4)).
  rewrite (split_on_line 10 l1 _ (proj1 H1)).
  rewrite (split_on_line 10 [] _ eq_refl).
  rewrite (split_on_line 10 l3 _ (proj1 H3)).
  rewrite (split_on_line 10 (link_prefix ++ url) _ (proj1 H4)).
  cbn [first_link_line].
  rewrite S1, S2, S3, S4. rewrite skipn_prefix. reflexivity.
Qed.

Lemma is_md_filename (date_str title : str) : is_md (md_filename date_str title) = true.
Proof.
  apply is_md_spec. exists (date_str ++ [45] ++ safe_title title).
  unfold md_filename. rewrite <- !app_assoc. reflexivity.
Qed.

(** X9. A file the scraper writes is found by the audit: with the bytes of
    the text of an article in a file of its name, alone in the local
    directory, [read_local_urls] returns the normalized address of the
    article and nothing else. The title, the date and the address must hold
    no line break; the content may hold any text. *)
Theorem written_article_is_indexed (db : pylib) (date_str : str) (a : article)
    (name text : str) (bytes : list N) (n : str) :
  written_file date_str a = Some (name, text) ->
  Utf8.encode text = Ok bytes ->
  one_line (or_empty (art_title a)) -> one_line date_str -> one_line (art_url a) ->
  strip (art_url a) <> [] ->
  normalize_url db (art_url a) = Ok n ->
  read_local_urls db [(name, RegularFile bytes)] = Ok {[ n ]}.
Proof.
  unfold written_file. destruct (art_title a) as [title|]; [|discriminate].
  destruct (art_content a) as [[|c content]|]; try discriminate.
  intros [= <- <-] Henc Ht Hd Hu Hne Hn. cbn [or_empty] in Ht.
  unfold read_local_urls. cbn [List.filter fst]. rewrite is_md_filename.
  cbn [sorted insert_sorted read_local_loop read_text bind].
  rewrite (decode_encode _ _ Henc).
  rewrite (search_link_md_content title date_str (art_url a) _ _ Ht Hd Hu).
  rewrite (nonempty_true _ Hne), normalize_url_strip, Hn. cbn [bind].
  f_equal. apply union_empty_r_L.
Qed.

Lemma written_article_is_indexed_witness :
  exists name text bytes,
    written_file (lit "2024-03-05") example_article = Some (name, text)
    /\ Utf8.encode text = Ok bytes
    /\ read_local_urls example_lib [(name, RegularFile bytes)]
       = Ok {[ lit "https://www.hecaitou.com/2024/03/To-Live.html" ]}.
Proof.
  destruct (written_file (lit "2024-03-05") example_article) as [[name text]|] eqn:Hw;
    [|vm_compute in Hw; discriminate].
  destruct (Utf8.encode text) as [bytes|e] eqn:Henc.
  2: { exfalso. vm_compute in Hw. injection Hw as <- <-. vm_compute in Henc. discriminate. }
  exists name, text, bytes. split; [reflexivity | split; [exact Henc|]].
  apply (written_article_is_indexed example_lib (lit "2024-03-05") example_article
           name text bytes _ Hw Henc).
  - vm_compute. split; reflexivity.
  - vm_compute. split; reflexivity.
  - vm_compute. split; reflexivity.
  - vm_compute. discriminate.
  - vm_compute. reflexivity.
Defined.

(** ** More on the walker: the entries it makes *)

Lemma _extract_entry_url_spec (links : list raw_link) (h : str) :
  _extract_entry_url links = Some h ->
  exists before l after,
    links = before ++ l :: after
    /\ rel l = Some (lit "alternate") /\ href l = Some h /\ h <> []
    /\ Forall (fun l' => rel l' <> Some (lit "alternate")
                         \/ href l' = None \/ href l' = Some []) before.
Proof.
  induction links as [|l rest IH]; cbn [_extract_entry_url]; [discriminate|].
  assert (Hrest : _extract_entry_url rest = Some h ->
                  (rel l <> Some (lit "alternate") \/ href l = None \/ href l = Some []) ->
                  exists before l0 after,
                    l :: rest = before ++ l0 :: after
                    /\ rel l0 = Some (lit "alternate") /\ href l0 = Some h /\ h <> []
                    /\ Forall (fun l' => rel l' <> Some (lit "alternate")
                                         \/ href l' = None \/ href l' = Some []) before).
  { intros H Hl. destruct (IH H) as [before [l0 [after [-> [H1 [H2 [H3 H4]]]]]]].
    exists (l :: before), l0, after. split; [reflexivity|].
    split; [exact H1 | split; [exact H2 | split; [exact H3|]]].
    constructor; assumption. }
  destruct (bool_decide_reflect (rel l = Some (lit "alternate"))) as [Hrel|Hrel].
  - destruct (href l) as [[|c t]|] eqn:Hh.
    + intros H. apply (Hrest H). right. right. reflexivity.
    + intros [= <-]. exists [], l, rest.
      split; [reflexivity|]. split; [exact Hrel|]. split; [exact Hh|].
      split; [discriminate | constructor].
    + intros H. apply (Hrest H). right. left. reflexivity.
  - intros H. apply (Hrest H). left. exact Hrel.
Qed.

Lemma dedup_In (x : str) (l : list str) : In x (dedup l) <-> In x l.
Proof.
  induction l as [|y l IH]; cbn [dedup]; [tauto|].
  destruct (existsb (PyStr.eqb y) l) eqn:Hy.
  - rewrite IH. split; [right; assumption|]. intros [<-|H]; [|exact H].
    apply existsb_exists in Hy. destruct Hy as [z [Hz Hyz]].
    unfold PyStr.eqb in Hyz. apply bool_decide_eq_true in Hyz. subst z. exact Hz.
  - cbn [In]. rewrite IH. tauto.
Qed.

Lemma dedup_NoDup (l : list str) : List.NoDup (dedup l).
Proof.
  induction l as [|y l IH]; cbn [dedup]; [constructor|].
  destruct (existsb (PyStr.eqb y) l) eqn:Hy; [exact IH|].
  constructor; [|exact IH]. rewrite dedup_In. intros Hin.
  apply not_true_iff_false in Hy. apply Hy. apply existsb_exists.
  exists y. split; [exact Hin|]. unfold PyStr.eqb. apply bool_decide_eq_true. reflexivity.
Qed.

Lemma StronglySorted_strict {A : Type} (R : A -> A -> Prop) (l : list A) :
  StronglySorted R l -> List.NoDup l ->
  StronglySorted (fun a b => R a b /\ a <> b) l.
Proof.
  induction 1 as [|x l Hs IH Hall]; intros Hnd; constructor.
  - apply IH. inversion Hnd; assumption.
  - inversion Hnd as [|? ? Hx Hl]; subst.
    rewrite List.Forall_forall in *. intros y Hy. split; [apply Hall, Hy|].
    intros ->. exact (Hx Hy).
Qed.

(** The labels of an entry: in ascending order, none twice, none empty, none
    with blanks around it; they are the terms of the categories, stripped. *)
Lemma entry_labels_tidy (cats : list (option str)) :
  StronglySorted (fun a b => PyStr.leb a b = true /\ a <> b) (entry_labels cats)
  /\ Forall (fun l => l <> [] /\ strip l = l) (entry_labels cats)
  /\ (forall l, In l (entry_labels cats) <->
                l <> [] /\ exists c, In c cats /\ l = strip (or_empty c)).
Proof.
  unfold entry_labels.
  set (terms := List.filter nonempty (List.map (fun c => strip (or_empty c)) cats)).
  assert (Hin : forall l, In l (sorted PyStr.leb (dedup terms)) <->
                          l <> [] /\ exists c, In c cats /\ l = strip (or_empty c)).
  { intros l. rewrite sorted_In, dedup_In. subst terms. rewrite filter_In, in_map_iff.
    split.
    - intros [[c [Hc Hin]] Hne]. split.
      + intros ->. discriminate.
      + exists c. split; [exact Hin | symmetry; exact Hc].
    - intros [Hne [c [Hin Hc]]]. split.
      + exists c. split; [symmetry; exact Hc | exact Hin].
      + apply nonempty_true, Hne. }
  split; [|split; [|exact Hin]].
  - apply StronglySorted_strict.
    + apply (sorted_sorted PyStr.leb str_leb_total str_leb_trans).
    + apply (Permutation_NoDup (l := dedup terms)).
      * apply Permutation_sym, sorted_perm.
      * apply dedup_NoDup.
  - apply List.Forall_forall. intros l Hl. apply Hin in Hl.
    destruct Hl as [Hne [c [_ ->]]]. split; [exact Hne | apply strip_idem].
Qed.

(** What [decode_entry] makes of a raw entry it keeps. *)
Lemma decode_entry_tidy (db : pylib) (raw : raw_entry) (e : FeedEntry) :
  decode_entry db raw = Ok (Some e) ->
  title e = strip (or_empty (raw_title raw)) /\ title e <> []
  /\ labels e = entry_labels (raw_categories raw)
  /\ strip (content e) = content e
  /\ fromisoformat_date db (replace_Z (strip (or_empty (raw_published raw))))
     = Ok (published e).
Proof.
  unfold decode_entry.
  destruct (_extract_entry_url (raw_links raw)) as [u|]; [|discriminate].
  destruct (nonempty (strip (or_empty (raw_title raw)))) eqn:Ht; [|discriminate].
  destruct (nonempty (strip (or_empty (raw_published raw)))); [|discriminate].
  cbn [andb].
  destruct (fromisoformat_date db _) as [d|] eqn:Hd; cbn [bind]; [|discriminate].
  destruct (normalize_url db u) as [n|]; cbn [bind]; [|discriminate].
  intros [= <-]. cbn [title labels content published].
  split; [reflexivity|]. split.
  - intros He. rewrite He in Ht. discriminate.
  - split; [reflexivity|]. split; [|reflexivity].
    destruct (nonempty (strip (or_empty (raw_content raw)))); apply strip_idem.
Qed.

(** X10. The walker invents nothing and yields tidy entries: an entry it
    yields is the decoding of a raw entry of a page the source served. Its
    title is not empty; title and content have no blanks around them; its
    labels are in ascending order, none twice, none empty, none with blanks
    around it; its address is the normalized address of the first alternate
    link of the raw entry that has one. *)
Theorem yielded_entries_are_tidy (db : pylib) (src : feed_source)
    (start_date end_date : date) (max_results : Z) (fuel : nat) (start_index : Z)
    (e : FeedEntry) :
  In e (yielded (fst (iter_recent_posts db src start_date end_date max_results
                        fuel start_index))) ->
  (exists i p raw,
     src i max_results = Ok p /\ In raw (page_of p)
     /\ decode_entry db raw = Ok (Some e)
     /\ exists before l after h,
          raw_links raw = before ++ l :: after
          /\ rel l = Some (lit "alternate") /\ href l = Some h /\ h <> []
          /\ Forall (fun l' => rel l' <> Some (lit "alternate")
                               \/ href l' = None \/ href l' = Some []) before
          /\ normalize_url db h = Ok (url e))
  /\ title e <> [] /\ strip (title e) = title e /\ strip (content e) = content e
  /\ StronglySorted (fun a b => PyStr.leb a b = true /\ a <> b) (labels e)
  /\ Forall (fun l => l <> [] /\ strip l = l) (labels e).
Proof.
  intros Hin.
  destruct (yielded_in_some_turn _ _ _ _ _ _ _ _ Hin) as [i [ys [o [Hturn Hys]]]].
  assert (Hraw : exists p raw,
            src i max_results = Ok p /\ In raw (page_of p)
            /\ decode_entry db raw = Ok (Some e)).
  { inversion Hturn as [? ?|? ? ?|? ? ? ? ?|p es Hsrc Hdec ? ? Heq|p es Hsrc Hdec ? ? Heq];
      subst; try (destruct Hys; fail);
      apply filter_In in Hys; destruct Hys as [Hes _];
      destruct (decode_page_In db _ _ Hdec e Hes) as [raw [Hr He]];
      exists p, raw; auto. }
  destruct Hraw as [p [raw [Hsrc [Hr He]]]].
  destruct (decode_entry_tidy db raw e He) as [Ht [Hne [Hl [Hc _]]]].
  destruct (decode_entry_url db raw e He) as [u [Hu Hn]].
  destruct (_extract_entry_url_spec _ _ Hu) as [before [l [after [H1 [H2 [H3 [H4 H5]]]]]]].
  destruct (entry_labels_tidy (raw_categories raw)) as [Hs [Hf _]].
  split.
  - exists i, p, raw. split; [exact Hsrc|]. split; [exact Hr|]. split; [exact He|].
    exists before, l, after, u. auto 10.
  - split; [exact Hne|]. split; [rewrite Ht; apply strip_idem|]. split; [exact Hc|].
    rewrite Hl. split; assumption.
Qed.

Lemma yielded_entries_are_tidy_witness :
  yielded (fst (iter_recent_posts example_lib untidy_feed (mkdate 2024 1 1)
                  (mkdate 2024 12 31) 150 2 1)) = [tidy_entry]
  /\ StronglySorted (fun a b => PyStr.leb a b = true /\ a <> b) (labels tidy_entry).
Proof.
  assert (H : yielded (fst (iter_recent_posts example_lib untidy_feed (mkdate 2024 1 1)
                              (mkdate 2024 12 31) 150 2 1)) = [tidy_entry])
    by (vm_compute; reflexivity).
  split; [exact H|].
  apply (yielded_entries_are_tidy example_lib untidy_feed (mkdate 2024 1 1)
           (mkdate 2024 12 31) 150 2 1 tidy_entry).
  rewrite H. left. reflexivity.
Defined.

(** ** The command line of the audit *)

Lemma days_in_month_range (y m : Z) : (28 <= days_in_month y m <= 31)%Z.
Proof.
  unfold days_in_month.
  destruct (m =? 2)%Z; [destruct (is_leap y); lia|].
  destruct ((m =? 4) || (m =? 6) || (m =? 9) || (m =? 11))%Z; lia.
Qed.

Lemma days_in_month_other_year (y y' m : Z) :
  m <> 2%Z -> days_in_month y m = days_in_month y' m.
Proof.
  intros Hm. unfold days_in_month. apply Z.eqb_neq in Hm. rewrite Hm. reflexivity.
Qed.

Lemma datetime_spec (y m d : Z) :
  (1 <= y <= 9999 /\ 1 <= m <= 12 /\ 1 <= d <= days_in_month y m)%Z
  /\ datetime y m d = Ok (mkdate y m d)
  \/ ~ (1 <= y <= 9999 /\ 1 <= m <= 12 /\ 1 <= d <= days_in_month y m)%Z
     /\ datetime y m d = Raise ValueError.
Proof.
  unfold datetime.
  destruct ((1 <=? y) && (y <=? 9999) && (1 <=? m) && (m <=? 12)
            && (1 <=? d) && (d <=? days_in_month y m))%Z eqn:H.
  - left. rewrite !andb_true_iff, !Z.leb_le in H. split; [lia | reflexivity].
  - right. split; [|reflexivity]. intros Hv.
    apply not_true_iff_false in H. apply H.
    rewrite !andb_true_iff, !Z.leb_le. lia.
Qed.

(** X11. [_default_start_date] goes three years back: for a date of the
    calendar in the year 4 or later it returns a date of the calendar, of
    the same month three years earlier, on the same day of the month, or on
    the 28th where it is asked for a 29th of February that the year does not
    have; the result is before the day it started from. For a day in the
    years 1 to 3 it raises [ValueError]. *)
Theorem default_start_date_three_years_back (today : date) :
  valid_date today ->
  ((4 <= year today)%Z ->
   exists d,
     _default_start_date today = Ok d /\ valid_date d
     /\ year d = (year today - 3)%Z /\ month d = month today
     /\ (day d = day today
         \/ (month today = 2 /\ day today = 29 /\ day d = 28
             /\ is_leap (year today - 3) = false)%Z)
     /\ date_ltb d today = true)
  /\ ((year today <= 3)%Z -> _default_start_date today = Raise ValueError).
Proof.
  unfold valid_date. intros Hv.
  destruct (datetime_spec (year today) (month today) (day today)) as [[Hr _]|[_ Hx]];
    [|rewrite Hx in Hv; discriminate].
  unfold _default_start_date. cbv zeta.
  pose proof (days_in_month_range (year today - 3) (month today)) as Hdim.
  split.
  - intros Hy.
    destruct (datetime_spec (year today - 3) (month today) (day today))
      as [[Hr3 ->]|[Hn3 ->]].
    + exists (mkdate (year today - 3) (month today) (day today)).
      cbn [year month day]. split; [reflexivity|].
      split; [destruct (datetime_spec (year today - 3) (month today) (day today))
                as [[_ E]|[N _]]; [exact E | contradiction]|].
      split; [reflexivity|]. split; [reflexivity|]. split; [left; reflexivity|].
      apply date_ltb_iff. cbn [year month day]. lia.
    + assert (Hfeb : month today = 2%Z).
      { destruct (Z.eq_dec (month today) 2%Z) as [E|E]; [exact E|]. exfalso. apply Hn3.
        rewrite (days_in_month_other_year (year today - 3) (year today) _ E). lia. }
      assert (H29 : (day today = 29 /\ days_in_month (year today - 3) (month today) = 28)%Z).
      { pose proof (days_in_month_range (year today) (month today)) as Hd0.
        assert (Hle : (days_in_month (year today) (month today) <= 29)%Z).
        { unfold days_in_month. rewrite Hfeb. cbn. destruct (is_leap (year today)); lia. }
        assert (Hle3 : (days_in_month (year today - 3) (month today) <= 29)%Z).
        { unfold days_in_month. rewrite Hfeb. cbn.
          destruct (is_leap (year today - 3)); lia. }
        lia. }
      destruct H29 as [Hday Hdim28].
      assert (Hleap : is_leap (year today - 3) = false).
      { revert Hdim28. unfold days_in_month. rewrite Hfeb. cbn.
        destruct (is_leap (year today - 3)); [discriminate | reflexivity]. }
      destruct (datetime_spec (year today - 3) (month today) 28) as [[_ E]|[N _]];
        [|exfalso; apply N; lia].
      exists (mkdate (year today - 3) (month today) 28). cbn [year month day].
      split; [exact E|]. split; [exact E|]. split; [reflexivity|]. split; [reflexivity|].
      split; [right; auto|]. apply date_ltb_iff. cbn [year month day]. lia.
  - intros Hy.
    destruct (datetime_spec (year today - 3) (month today) (day today))
      as [[Hr3 _]|[_ ->]]; [lia|].
    destruct (datetime_spec (year today - 3) (month today) 28) as [[Hr3 _]|[_ E]];
      [lia | exact E].
Qed.

Lemma default_start_date_three_years_back_witness :
  _default_start_date (mkdate 2024 2 29) = Ok (mkdate 2021 2 28)
  /\ _default_start_date (mkdate 2026 11 4) = Ok (mkdate 2023 11 4)
  /\ _default_start_date (mkdate 3 1 1) = Raise ValueError.
Proof.
  split; [|split; [reflexivity|]].
  - destruct (proj1 (default_start_date_three_years_back (mkdate 2024 2 29) eq_refl))
      as [d [Hd _]]; [cbn; lia|].
    rewrite Hd. vm_compute in Hd. symmetry. exact Hd.
  - reflexivity.
Defined.

(** ** The lists of the command line *)

Lemma split_on_free (c : N) (s : str) : has_char c s = false -> split_on c s = [s].
Proof.
  unfold has_char. induction s as [|x s IH]; intros H; [reflexivity|].
  cbn [existsb] in H. apply orb_false_iff in H. destruct H as [Hx Hs].
  cbn [split_on]. rewrite N.eqb_sym in Hx. rewrite Hx, (IH Hs). reflexivity.
Qed.

Lemma split_on_parts_free (c : N) (s : str) :
  Forall (fun p => has_char c p = false) (split_on c s).
Proof.
  induction s as [|x s IH]; cbn [split_on]; [constructor; [reflexivity | constructor]|].
  destruct (x =? c) eqn:Hx; [constructor; [reflexivity | exact IH]|].
  destruct (split_on c s) as [|p ps]; [constructor; [|constructor]|].
  - unfold has_char. cbn [existsb]. rewrite N.eqb_sym, Hx. reflexivity.
  - inversion IH as [|? ? Hp Hps]; subst. constructor; [|exact Hps].
    unfold has_char in *. cbn [existsb]. rewrite N.eqb_sym, Hx. exact Hp.
Qed.

Lemma split_on_join (c : N) (l : list str) :
  Forall (fun p => has_char c p = false) l -> l <> [] -> split_on c (join [c] l) = l.
Proof.
  induction 1 as [|x l Hx Hl IH]; intros Hne; [contradiction|].
  destruct l as [|y l]; cbn [join].
  - apply split_on_free, Hx.
  - cbn [app]. rewrite (split_on_line c x _ Hx). f_equal. apply IH. discriminate.
Qed.

Lemma has_char_false_Forall (c : N) (s : str) :
  has_char c s = false -> Forall (fun x => x <> c) s.
Proof.
  unfold has_char. induction s as [|x s IH]; intros H; [constructor|].
  cbn [existsb] in H. apply orb_false_iff in H. destruct H as [Hx Hs].
  constructor; [|exact (IH Hs)]. apply N.eqb_neq in Hx. congruence.
Qed.

Lemma strip_free (c : N) (s : str) : has_char c s = false -> has_char c (strip s) = false.
Proof.
  intros H. apply has_char_false, strip_Forall, has_char_false_Forall, H.
Qed.

Lemma lstrip_by_length (p : N -> bool) (s : str) :
  (length (lstrip_by p s) <= length s)%nat.
Proof.
  induction s as [|x s IH]; cbn [lstrip_by]; [lia|].
  destruct (p x); cbn [length]; lia.
Qed.

Lemma strip_length (s : str) : (length (strip s) <= length (lstrip_by is_space s))%nat.
Proof.
  unfold strip, rstrip_by. rewrite length_rev.
  etransitivity; [apply lstrip_by_length|]. rewrite length_rev. lia.
Qed.

(** A text without blanks around it starts with a character that is no
    blank. *)
Lemma stripped_head (s : str) :
  strip s = s -> s <> [] -> exists c t, s = c :: t /\ is_space c = false.
Proof.
  intros Hs Hne. destruct s as [|c t]; [contradiction|].
  exists c, t. split; [reflexivity|].
  destruct (is_space c) eqn:Hc; [|reflexivity]. exfalso.
  pose proof (strip_length (c :: t)) as H1. rewrite Hs in H1.
  cbn [lstrip_by] in H1. rewrite Hc in H1.
  pose proof (lstrip_by_length is_space t) as H2. cbn [length] in H1. lia.
Qed.

Lemma strip_nonempty_head (c : N) (t : str) : is_space c = false -> strip (c :: t) <> [].
Proof.
  intros Hc. unfold strip. cbn [lstrip_by]. rewrite Hc.
  unfold rstrip_by. cbn [rev]. rewrite lstrip_by_app.
  destruct (forallb is_space (rev t)).
  - cbn [lstrip_by]. rewrite Hc. discriminate.
  - rewrite rev_app_distr. discriminate.
Qed.

Lemma filter_map_items (l : list str) :
  Forall list_item l -> List.filter nonempty (List.map strip l) = l.
Proof.
  induction 1 as [|x l [Hne [Hs _]] Hl IH]; [reflexivity|].
  cbn [List.map List.filter]. rewrite Hs, (nonempty_true _ Hne), IH. reflexivity.
Qed.

Lemma _parse_comma_list_items (value : str) : Forall list_item (_parse_comma_list value).
Proof.
  unfold _parse_comma_list. destruct (nonempty (strip value)); [|constructor].
  apply List.Forall_forall. intros x Hx. apply filter_In in Hx. destruct Hx as [Hin Hne].
  apply in_map_iff in Hin. destruct Hin as [part [<- Hpart]].
  pose proof (split_on_parts_free 44 value) as Hfree.
  rewrite List.Forall_forall in Hfree.
  split; [intros He; rewrite He in Hne; discriminate|].
  split; [apply strip_idem | apply strip_free, Hfree, Hpart].
Qed.

Lemma _parse_comma_list_join (l : list str) :
  Forall list_item l -> _parse_comma_list (join [44] l) = l.
Proof.
  intros Hl. unfold _parse_comma_list. destruct l as [|x l]; [reflexivity|].
  assert (Hhead : nonempty (strip (join [44] (x :: l))) = true).
  { inversion Hl as [|? ? [Hne [Hs _]] _]; subst.
    destruct (stripped_head x Hs Hne) as [c [t [-> Hc]]].
    apply nonempty_true.
    destruct l as [|y l]; cbn [join app]; apply strip_nonempty_head, Hc. }
  rewrite Hhead, split_on_join.
  - apply filter_map_items, Hl.
  - eapply List.Forall_impl; [|exact Hl]. intros a [_ [_ Ha]]. exact Ha.
  - discriminate.
Qed.

(** X12. [_parse_comma_list] gives tidy items and reads back what was
    joined: every item it returns is not empty, has no blanks around it and
    holds no comma; a list of such items, joined with commas, is parsed to
    that list again; so parsing the joined result of a parse changes
    nothing. Blanks around the items and empty items are dropped. *)
Theorem parse_comma_list_round_trip (value : str) (l : list str) :
  Forall list_item (_parse_comma_list value)
  /\ (Forall list_item l -> _parse_comma_list (join [44] l) = l)
  /\ _parse_comma_list (join [44] (_parse_comma_list value)) = _parse_comma_list value
  /\ _parse_comma_list (lit " a, b c ,,d, ") = [lit "a"; lit "b c"; lit "d"]
  /\ _parse_comma_list (lit " , ") = [].
Proof.
  split; [apply _parse_comma_list_items|]. split; [apply _parse_comma_list_join|].
  split; [apply _parse_comma_list_join, _parse_comma_list_items|].
  split; vm_compute; reflexivity.
Qed.

(** ** The requests of the walker *)

Lemma lit_inj (s t : string) : lit s = lit t -> s = t.
Proof.
  unfold lit. intros H.
  rewrite <- (string_of_list_ascii_of_string s), <- (string_of_list_ascii_of_string t).
  f_equal. revert H. generalize (list_ascii_of_string s) (list_ascii_of_string t).
  induction l as [|a l IH]; intros [|b l']; cbn [List.map]; try discriminate;
    [reflexivity|].
  intros [= Hab Hl]. f_equal; [|exact (IH _ Hl)].
  rewrite <- (ascii_N_embedding a), <- (ascii_N_embedding b), Hab. reflexivity.
Qed.

Lemma str_of_Z_inj (n m : Z) : str_of_Z n = str_of_Z m -> n = m.
Proof.
  unfold str_of_Z. intros H. apply lit_inj in H. apply to_int_inj.
  assert (Hs : Some (Z.to_int n) = Some (Z.to_int m))
    by (rewrite <- !NilEmpty.isi, H; reflexivity).
  congruence.
Qed.

Lemma feed_page_url_inj (base_url : str) (i j max_results : Z) :
  feed_page_url base_url i max_results = feed_page_url base_url j max_results -> i = j.
Proof.
  unfold feed_page_url. intros H.
  apply app_inv_head in H. apply app_inv_head in H. apply app_inv_tail in H.
  exact (str_of_Z_inj _ _ H).
Qed.

Lemma NoDup_map_injective {A B : Type} (f : A -> B) (l : list A) :
  (forall x y, f x = f y -> x = y) -> List.NoDup l -> List.NoDup (List.map f l).
Proof.
  intros Hf. induction 1 as [|x l Hx Hl IH]; cbn [List.map]; constructor; [|exact IH].
  intros Hin. apply in_map_iff in Hin. destruct Hin as [y [Hy Hin]].
  apply Hf in Hy. subst y. exact (Hx Hin).
Qed.

(** X14. The walker asks for no page twice. With [_fetch_feed_page] as the
    source and a positive page size, the addresses requested in a walk are
    all different: the address determines the offset, and the offsets
    increase. Slashes at the end of the base address change nothing. *)
Theorem walker_requests_distinct_pages (db : pylib) (session : str -> res payload)
    (base_url : str) (start_date end_date : date) (max_results : Z) (fuel : nat) :
  (0 < max_results)%Z ->
  let src := fun i m => _fetch_feed_page base_url i m session in
  let evs := fst (iter_recent_posts db src start_date end_date max_results fuel 1) in
  List.NoDup (List.map (fun i => feed_page_url base_url i max_results) (fetched evs))
  /\ (forall i j m, feed_page_url base_url i m = feed_page_url base_url j m -> i = j)
  /\ (forall k i m,
        feed_page_url (base_url ++ repeat 47 k) i m = feed_page_url base_url i m).
Proof.
  intros Hpos src evs. split; [|split].
  - apply NoDup_map_injective.
    + intros x y. apply feed_page_url_inj.
    + subst evs.
      destruct (walk_fetched db src start_date end_date max_results fuel 1) as [Hf _].
      rewrite Hf. apply increasing_NoDup, progression_increasing, Hpos.
  - intros i j m. apply feed_page_url_inj.
  - intros k i m. unfold feed_page_url. f_equal. apply rstrip_by_suffix.
    induction k as [|k IH]; [reflexivity|]. cbn [repeat forallb]. exact IH.
Qed.

Lemma walker_requests_distinct_pages_witness :
  List.map (fun i => feed_page_url (lit "https://www.hecaitou.com/") i 150)
    (fetched (fst (iter_recent_posts example_lib
                     (fun i m => _fetch_feed_page (lit "https://www.hecaitou.com/") i m
                                   example_session)
                     (mkdate 2024 1 1) (mkdate 2024 12 31) 150 5 1)))
  = [lit "https://www.hecaitou.com/feeds/posts/default?alt=json&start-index=1&max-results=150";
     lit "https://www.hecaitou.com/feeds/posts/default?alt=json&start-index=151&max-results=150"]
  /\ List.NoDup
       (List.map (fun i => feed_page_url (lit "https://www.hecaitou.com/") i 150)
          (fetched (fst (iter_recent_posts example_lib
                           (fun i m => _fetch_feed_page (lit "https://www.hecaitou.com/") i m
                                         example_session)
                           (mkdate 2024 1 1) (mkdate 2024 12 31) 150 5 1)))).
Proof.
  split; [vm_compute; reflexivity|].
  apply (walker_requests_distinct_pages example_lib example_session
           (lit "https://www.hecaitou.com/") (mkdate 2024 1 1) (mkdate 2024 12 31) 150 5).
  reflexivity.
Defined.

(** ** Broader criteria, larger archive *)

Lemma existsb_incl {A : Type} (f : A -> bool) (l l' : list A) :
  (forall x, In x l -> In x l') -> existsb f l = true -> existsb f l' = true.
Proof.
  intros Hincl H. apply existsb_exists in H. destruct H as [x [Hx Hf]].
  apply existsb_exists. exists x. split; [apply Hincl, Hx | exact Hf].
Qed.

Lemma classify_make (ls tks cks : list str) (e : FeedEntry) :
  fst (classify (make_criteria ls tks cks) e)
  = existsb (fun label => bool_decide (label ∈ ls)) (labels e)
    || existsb (fun k => contains k (title e)) tks
    || existsb (fun k => contains k (content e)) cks.
Proof.
  rewrite (proj1 (classify_general _ e)), label_hit_make.
  cbn [make_criteria title_keyword_re content_keyword_re].
  rewrite !pattern_hit_compile. reflexivity.
Qed.

Lemma classify_broader (ls ls' tks tks' cks cks' : list str) (e : FeedEntry) :
  (forall x, In x ls -> In x ls') ->
  (forall x, In x tks -> In x tks') ->
  (forall x, In x cks -> In x cks') ->
  fst (classify (make_criteria ls tks cks) e) = true ->
  fst (classify (make_criteria ls' tks' cks') e) = true.
Proof.
  intros Hl Ht Hc. rewrite !classify_make, !orb_true_iff.
  intros [[H|H]|H].
  - left. left. apply existsb_exists in H. destruct H as [x [Hx Hin]].
    apply existsb_exists. exists x. split; [exact Hx|].
    apply bool_decide_eq_true in Hin. apply bool_decide_eq_true.
    apply list_elem_of_In, Hl, list_elem_of_In, Hin.
  - left. right. exact (existsb_incl _ _ _ Ht H).
  - right. exact (existsb_incl _ _ _ Hc H).
Qed.

(** X15. Broader criteria never lose a match, a larger archive never adds a
    gap: with more labels and keywords every entry that was matched is still
    matched, and what was missing is still missing; with the same criteria
    and more addresses in the local index, every entry that is missing was
    missing before. *)
Theorem audit_is_monotone (ls ls' tks tks' cks cks' : list str)
    (local_urls local_urls' : gset str) (entries : list FeedEntry) :
  (forall x, In x ls -> In x ls') ->
  (forall x, In x tks -> In x tks') ->
  (forall x, In x cks -> In x cks') ->
  local_urls ⊆ local_urls' ->
  let c := make_criteria ls tks cks in
  let c' := make_criteria ls' tks' cks' in
  (forall e, In e (fst (audit_loop c local_urls entries [] [])) ->
             In e (fst (audit_loop c' local_urls entries [] [])))
  /\ (forall e, In e (snd (audit_loop c local_urls entries [] [])) ->
                In e (snd (audit_loop c' local_urls entries [] [])))
  /\ (forall e, In e (snd (audit_loop c local_urls' entries [] [])) ->
                In e (snd (audit_loop c local_urls entries [] []))).
Proof.
  intros Hl Ht Hc Hsub c c'. rewrite !audit_loop_spec. cbn [fst snd app].
  split; [|split]; intros e; rewrite !filter_In.
  - intros [Hin Hm]. split; [exact Hin|]. exact (classify_broader _ _ _ _ _ _ e Hl Ht Hc Hm).
  - intros [[Hin Hm] Hu]. split; [split; [exact Hin|] | exact Hu].
    exact (classify_broader _ _ _ _ _ _ e Hl Ht Hc Hm).
  - intros [Hm Hu]. split; [exact Hm|].
    apply negb_true_iff, bool_decide_eq_false in Hu.
    apply negb_true_iff, bool_decide_eq_false. intros Hin. apply Hu, Hsub, Hin.
Qed.

Lemma audit_is_monotone_witness :
  (forall e,
     In e (snd (audit_loop (make_criteria [lit "books"] [] []) ∅
                  [entry_a; entry_b] [] [])) ->
     In e (snd (audit_loop (make_criteria [lit "books"; lit "films"] [lit "review"] [])
                  ∅ [entry_a; entry_b] [] [])))
  /\ snd (audit_loop (make_criteria [lit "books"] [] []) {[ url entry_a ]}
            [entry_a; entry_b] [] []) = [entry_b].
Proof.
  split; [|vm_compute; reflexivity].
  apply (audit_is_monotone [lit "books"] [lit "books"; lit "films"] [] [lit "review"]
           [] [] ∅ ∅ [entry_a; entry_b]).
  - intros x [<-|[]]. left. reflexivity.
  - intros x [].
  - intros x [].
  - reflexivity.
Defined.

(** ** The order of the directory *)

Lemma same_names_same_entries {A : Type} (l1 l2 : list (str * A)) :
  Permutation l1 l2 -> List.NoDup (List.map fst l1) ->
  List.map fst l1 = List.map fst l2 -> l1 = l2.
Proof.
  revert l2. induction l1 as [|a l1 IH]; intros l2 Hp Hnd Hnames.
  - apply Permutation_nil in Hp. congruence.
  - destruct l2 as [|b l2]; [discriminate|].
    cbn [List.map] in Hnames. injection Hnames as Hab Hrest.
    assert (Heq : a = b).
    { assert (Hin : In a (b :: l2)) by (apply (Permutation_in _ Hp); left; reflexivity).
      destruct Hin as [->|Hin]; [reflexivity|]. exfalso.
      inversion Hnd as [|? ? Hx _]; subst. apply Hx. rewrite Hrest, Hab.
      assert (Hnd2 : List.NoDup (List.map fst (b :: l2))).
      { apply (Permutation_NoDup (l := List.map fst (a :: l1))); [|exact Hnd].
        apply Permutation_map, Hp. }
      inversion Hnd2 as [|? ? Hy _]; subst. exfalso. apply Hy.
      rewrite <- Hab. apply in_map, Hin. }
    subst b. f_equal. apply IH; [|inversion Hnd; assumption | exact Hrest].
    exact (Permutation_cons_inv Hp).
Qed.

Lemma filter_Permutation {A : Type} (f : A -> bool) (l1 l2 : list A) :
  Permutation l1 l2 -> Permutation (List.filter f l1) (List.filter f l2).
Proof.
  induction 1 as [|x l1 l2 Hp IH|x y l|l1 l2 l3 H1 IH1 H2 IH2]; cbn [List.filter].
  - constructor.
  - destruct (f x); [constructor|]; exact IH.
  - destruct (f x), (f y); try apply Permutation_refl. constructor.
  - etransitivity; eassumption.
Qed.

Lemma NoDup_map_filter {A B : Type} (g : A -> B) (f : A -> bool) (l : list A) :
  List.NoDup (List.map g l) -> List.NoDup (List.map g (List.filter f l)).
Proof.
  induction l as [|x l IH]; cbn [List.map List.filter]; [auto|].
  intros Hnd. inversion Hnd as [|? ? Hx Hl]; subst.
  destruct (f x); [|exact (IH Hl)]. cbn [List.map]. constructor; [|exact (IH Hl)].
  intros Hin. apply Hx. apply in_map_iff in Hin. destruct Hin as [y [Hy Hin]].
  apply filter_In in Hin. apply in_map_iff. exists y. tauto.
Qed.

(** X16. The local index does not depend on the order in which the
    directory lists its files: for two listings of the same entries, with no
    name twice, [read_local_urls] gives the same result, the same set or the
    same exception. *)
Theorem read_local_urls_any_order (db : pylib) (dir1 dir2 : list (str * dirent)) :
  Permutation dir1 dir2 ->
  List.NoDup (List.map fst dir1) ->
  read_local_urls db dir1 = read_local_urls db dir2.
Proof.
  intros Hp Hnd. unfold read_local_urls. f_equal.
  set (f := fun p : str * dirent => is_md (fst p)).
  assert (Hperm : Permutation (sorted name_leb (List.filter f dir1))
                    (sorted name_leb (List.filter f dir2))).
  { etransitivity; [apply sorted_perm|].
    etransitivity; [apply filter_Permutation, Hp|]. apply Permutation_sym, sorted_perm. }
  assert (Hsorted : forall d,
            StronglySorted (fun a b => PyStr.leb a b = true)
              (List.map fst (sorted name_leb (List.filter f d)))).
  { intros d. apply StronglySorted_map.
    apply (sorted_sorted name_leb).
    - intros a b. apply str_leb_total.
    - intros a b c. apply str_leb_trans. }
  apply same_names_same_entries.
  - exact Hperm.
  - apply (Permutation_NoDup (l := List.map fst (List.filter f dir1))).
    + apply Permutation_map, Permutation_sym, sorted_perm.
    + apply NoDup_map_filter, Hnd.
  - apply (sorted_unique (fun a b => PyStr.leb a b = true)).
    + intros a b. apply str_leb_antisym.
    + apply Hsorted.
    + apply Hsorted.
    + apply Permutation_map, Hperm.
Qed.

Lemma read_local_urls_any_order_witness :
  read_local_urls example_lib [(lit "notes.txt", Directory); example_file_a]
  = read_local_urls example_lib [example_file_a; (lit "notes.txt", Directory)].
Proof.
  apply read_local_urls_any_order.
  - apply perm_swap.
  - vm_compute. constructor; [|constructor; [|constructor]].
    + intros [H|[]]. discriminate H.
    + intros [].
Defined.

(** ** A page that does not decode *)

(** A walk that [k] turns left running goes on as a walk from where it
    stood. *)
Lemma iter_recent_posts_resume (db : pylib) (src : feed_source)
    (start_date end_date : date) (max_results : Z) (k : nat) :
  forall n i evs j,
    iter_recent_posts db src start_date end_date max_results k i = (evs, Running j) ->
    iter_recent_posts db src start_date end_date max_results (k + n) i
    = (evs ++ fst (iter_recent_posts db src start_date end_date max_results n j),
       snd (iter_recent_posts db src start_date end_date max_results n j)).
Proof.
  induction k as [|k IH]; intros n i evs j.
  - cbn [iter_recent_posts Nat.add]. intros [= <- <-]. cbn [app].
    destruct (iter_recent_posts db src start_date end_date max_results n i). reflexivity.
  - cbn [iter_recent_posts Nat.add].
    destruct (src i max_results) as [p|e]; [|intros H; discriminate H].
    destruct (page_of p) as [|raw raws]; [intros H; discriminate H|].
    destruct (decode_page db (raw :: raws)) as [es|e]; [|intros H; discriminate H].
    destruct (match oldest es with
              | None => true
              | Some d => date_ltb d start_date
              end); [intros H; discriminate H|].
    destruct (iter_recent_posts db src start_date end_date max_results k
                (i + max_results)%Z) as [evs' out'] eqn:Hk.
    intros [= <- ->]. rewrite (IH n _ _ _ Hk).
    cbn [app]. rewrite <- app_assoc. reflexivity.
Qed.

(** The exception of a page is the exception of its first entry that does
    not decode. *)
Lemma decode_page_first_bad (db : pylib) (before after : list raw_entry)
    (bad : raw_entry) (e : exn) :
  Forall (fun r => exists oe, decode_entry db r = Ok oe) before ->
  decode_entry db bad = Raise e ->
  decode_page db (before ++ bad :: after) = Raise e.
Proof.
  intros Hbefore Hbad. induction Hbefore as [|r before [oe Hr] _ IH]; cbn [app decode_page].
  - rewrite Hbad. reflexivity.
  - rewrite Hr, IH. reflexivity.
Qed.

(** X17. One entry that does not decode loses its page and ends the walk.
    When the walk comes, after any number of pages, to a page that holds a
    raw entry whose time stamp or address raises, the exception of the first
    such entry of the page leaves the walker; no entry of that page is
    yielded, not even those before the bad one; what the pages before it
    yielded stays yielded. [main] then ends with that exception and writes
    no report. *)
Theorem bad_entry_ends_the_walk (db : pylib) (src : feed_source)
    (start_date end_date : date) (max_results : Z) (k fuel : nat) (start_index : Z)
    (evs : list event) (j : Z) (p : payload) (before after : list raw_entry)
    (bad : raw_entry) (e : exn) :
  iter_recent_posts db src start_date end_date max_results k start_index
    = (evs, Running j) ->
  src j max_results = Ok p ->
  page_of p = before ++ bad :: after ->
  Forall (fun r => exists oe, decode_entry db r = Ok oe) before ->
  decode_entry db bad = Raise e ->
  iter_recent_posts db src start_date end_date max_results (k + S fuel) start_index
    = (evs ++ [Fetched j], Raised e)
  /\ yielded (evs ++ [Fetched j]) = yielded evs
  /\ (forall (a : args) (dir : list (str * dirent)) (local_urls : gset str)
             (write : option str -> list chunk -> res unit),
        a_from_date a = start_date -> a_to_date a = end_date ->
        max_results = 150%Z -> start_index = 1%Z ->
        read_local_urls db dir = Ok local_urls ->
        main db {| w_local_dir := Some dir; w_feed := src; w_write := write |} a
          (k + S fuel)
        = Crashed e).
Proof.
  intros Hrun Hsrc Hpage Hbefore Hbad.
  assert (Hturn : iter_recent_posts db src start_date end_date max_results (S fuel) j
                  = ([Fetched j], Raised e)).
  { cbn [iter_recent_posts]. rewrite Hsrc.
    pose proof (decode_page_first_bad db before after bad e Hbefore Hbad) as Hdec.
    rewrite <- Hpage in Hdec.
    destruct (page_of p) as [|r rs] eqn:Hp; [destruct before; discriminate Hpage|].
    rewrite Hdec. reflexivity. }
  assert (Hwalk : iter_recent_posts db src start_date end_date max_results (k + S fuel)
                    start_index = (evs ++ [Fetched j], Raised e)).
  { rewrite (iter_recent_posts_resume db src start_date end_date max_results k
               (S fuel) start_index evs j Hrun), Hturn. reflexivity. }
  split; [exact Hwalk|]. split.
  - rewrite yielded_app. cbn [yielded List.map List.concat app]. apply app_nil_r.
  - intros a dir local_urls write <- <- -> -> Hread. unfold main.
    cbn [w_local_dir w_feed]. rewrite Hread, Hwalk. reflexivity.
Qed.

Lemma bad_entry_ends_the_walk_witness :
  iter_recent_posts example_lib bad_second_page (mkdate 2024 1 1) (mkdate 2024 12 31)
    150 2 1
  = ([Fetched 1%Z;
      Yielded (entry_n "p1" "https://example.com/2024/06/p1.html" (mkdate 2024 6 10));
      Yielded (entry_n "p2" "https://example.com/2024/05/p2.html" (mkdate 2024 5 10));
      Fetched 151%Z],
     Raised ValueError).
Proof.
  apply (proj1 (bad_entry_ends_the_walk example_lib bad_second_page (mkdate 2024 1 1)
                  (mkdate 2024 12 31) 150 1 0 1
                  [Fetched 1%Z;
                   Yielded (entry_n "p1" "https://example.com/2024/06/p1.html"
                              (mkdate 2024 6 10));
                   Yielded (entry_n "p2" "https://example.com/2024/05/p2.html"
                              (mkdate 2024 5 10))]
                  151 bad_stamp_page
                  [raw_n "good" "https://example.com/2024/06/good.html"
                     "2024-06-10T00:00:00Z"]
                  []
                  (raw_n "bad" "https://example.com/2024/05/bad.html" "yesterday")
                  ValueError
                  ltac:(vm_compute; reflexivity) eq_refl eq_refl
                  ltac:(constructor; [eexists; vm_compute; reflexivity | constructor])
                  ltac:(vm_compute; reflexivity))).
Defined.

(** ** The scraper and the audit: an archived article is not missing *)

(** X18. What the scraper has saved the audit does not report: when a file
    the scraper wrote for an article is among the files of the local
    directory and the index is read, the normalized address of the article
    is in the index, and no entry with that address is in the list of the
    missing, whatever the criteria and the entries of the feed. *)
Theorem archived_article_is_not_missing (db : pylib) (dir : list (str * dirent))
    (local_urls : gset str) (date_str : str) (a : article) (name text : str)
    (bytes : list N) (n : str) :
  written_file date_str a = Some (name, text) ->
  Utf8.encode text = Ok bytes ->
  In (name, RegularFile bytes) dir ->
  one_line (or_empty (art_title a)) -> one_line date_str -> one_line (art_url a) ->
  strip (art_url a) <> [] ->
  normalize_url db (art_url a) = Ok n ->
  read_local_urls db dir = Ok local_urls ->
  n ∈ local_urls
  /\ (forall (c : criteria) (entries : list FeedEntry) (e : FeedEntry),
        In e (snd (audit_loop c local_urls entries [] [])) -> url e <> n).
Proof.
  intros Hw Henc Hin Ht Hd Hu Hne Hn Hread.
  assert (Hmem : n ∈ local_urls).
  { unfold read_local_urls in Hread.
    apply (read_local_loop_spec db _ ∅ local_urls Hread n). right.
    unfold written_file in Hw. destruct (art_title a) as [title|]; [|discriminate].
    destruct (art_content a) as [[|c content]|]; try discriminate.
    injection Hw as <- <-. cbn [or_empty] in Ht.
    exists (md_filename date_str title), bytes, (art_url a).
    split; [|split; [|split]].
    - apply sorted_In, filter_In. split; [exact Hin|]. cbn [fst]. apply is_md_filename.
    - rewrite (decode_encode _ _ Henc). apply search_link_md_content; assumption.
    - exact Hne.
    - rewrite normalize_url_strip. exact Hn. }
  split; [exact Hmem|].
  intros c entries e. rewrite audit_loop_spec. cbn [snd app]. rewrite filter_In.
  intros [_ He] Heq. rewrite Heq in He.
  apply negb_true_iff, bool_decide_eq_false in He. exact (He Hmem).
Qed.

Lemma archived_article_is_not_missing_witness :
  exists name text bytes,
    written_file (lit "2024-03-05") example_article = Some (name, text)
    /\ Utf8.encode text = Ok bytes
    /\ lit "https://www.hecaitou.com/2024/03/To-Live.html"
       ∈ ({[ lit "https://www.hecaitou.com/2024/03/To-Live.html";
             lit "https://example.com/2024/01/a.html" ]} : gset str).
Proof.
  destruct (written_file (lit "2024-03-05") example_article) as [[name text]|] eqn:Hw;
    [|vm_compute in Hw; discriminate].
  destruct (Utf8.encode text) as [bytes|e] eqn:Henc.
  2: { exfalso. vm_compute in Hw. injection Hw as <- <-. vm_compute in Henc. discriminate. }
  exists name, text, bytes. split; [reflexivity | split; [exact Henc|]].
  refine (proj1 (archived_article_is_not_missing example_lib
                   [example_file_a; (name, RegularFile bytes)] _ (lit "2024-03-05")
                   example_article name text bytes _ Hw Henc _ _ _ _ _ _ _)).
  - right. left. reflexivity.
  - vm_compute. split; reflexivity.
  - vm_compute. split; reflexivity.
  - vm_compute. split; reflexivity.
  - vm_compute. discriminate.
  - vm_compute. reflexivity.
  - vm_compute in Hw. injection Hw as <- <-. vm_compute in Henc. injection Henc as <-.
    vm_compute. reflexivity.
Defined.

(** ** The name of the file of an article *)

Lemma firstn_Forall {A : Type} (P : A -> Prop) (k : nat) (l : list A) :
  Forall P l -> Forall P (firstn k l).
Proof.
  intros H. revert k. induction H as [|x l Hx Hl IH]; intros [|k]; cbn [firstn];
    constructor; [exact Hx | apply IH].
Qed.

(** X19. The file of an article lands in the output directory and is one
    the audit reads: its name ends with [.md]; no slash is in it, when the
    date string has none; the part taken from the title has at most fifty
    characters and none of the nine that are removed. *)
Theorem md_filename_is_plain (date_str title : str) :
  has_char 47 date_str = false ->
  has_char 47 (md_filename date_str title) = false
  /\ is_md (md_filename date_str title) = true
  /\ (length (safe_title title) <= 50)%nat
  /\ Forall (fun c => ~ In c [92; 47; 58; 42; 63; 34; 60; 62; 124]) (safe_title title).
Proof.
  intros Hd.
  assert (Hsafe : Forall (fun c => ~ In c [92; 47; 58; 42; 63; 34; 60; 62; 124])
                    (safe_title title)).
  { unfold safe_title. apply firstn_Forall. apply List.Forall_forall. intros x Hx.
    apply filter_In in Hx. destruct Hx as [_ Hx]. apply negb_true_iff in Hx.
    intros Hin. apply not_true_iff_false in Hx. apply Hx.
    apply existsb_exists. exists x. split; [exact Hin | apply N.eqb_refl]. }
  split; [|split; [apply is_md_filename | split; [|exact Hsafe]]].
  - unfold md_filename. rewrite !has_char_app, Hd.
    assert (Ht : has_char 47 (safe_title title) = false).
    { apply has_char_false. eapply List.Forall_impl; [|exact Hsafe].
      intros c Hc ->. apply Hc. right. left. reflexivity. }
    rewrite Ht. reflexivity.
  - unfold safe_title. apply firstn_le_length.
Qed.

Lemma md_filename_is_plain_witness :
  md_filename (lit "2024-03-05") (lit "a/b: c?") = lit "2024-03-05-ab c.md"
  /\ has_char 47 (md_filename (lit "2024-03-05") (lit "a/b: c?")) = false.
Proof.
  split; [vm_compute; reflexivity|].
  apply (md_filename_is_plain (lit "2024-03-05") (lit "a/b: c?")). reflexivity.
Defined.
